(** * python-irclib: a shallow embedding of [connection.py] and [session.py]

    The development follows the two source modules.

    - [Py]: the fragment of Python the code relies on: exceptions, attribute
      presence, truthiness, string methods.
    - [Connection]: [connection.py] -- [Event], the [IRC] handler table and
      its dispatcher, [ServerConnection] (send paths, [disconnect],
      [connect], [reconnect], the line parser of [process_data]).
    - [Session]: [session.py] -- [Nickname], [HighEvent.from_low_event], the
      declarative registry [event_handler], [Session._handle_event],
      [send_once] and the liveness watchdog of [process_once].

    Conventions.  Text is a [string] (the UTF-8 bytes of the Python unicode
    object), so [len(message.encode('utf-8'))] is [String.length].  Wall-clock
    readings ([time.time()]) are rationals.  Everything the code obtains from
    outside (the clock, the transport, what application handlers do) is read
    from the environment [Env]; collaborators of the repository that the
    modules import but do not define ([utils], the permission tracker, the
    connection methods [_parse_modes], [hasanymodes], [is_channel]) are
    section variables. *)

From Stdlib Require Import ZArith QArith String Ascii List Bool Lia Lqa.
From stdpp Require Import base gmap strings list sorting.

(** ** Python fragment *)

Module Py.

Inductive exn :=
| AttributeError
| TypeError
| IndexError
| ServerNotConnectedError
| ServerConnectionError
| KeyError
| AppError (n : nat).

Definition exn_eqb (a b : exn) : bool :=
  match a, b with
  | AttributeError, AttributeError => true
  | TypeError, TypeError => true
  | IndexError, IndexError => true
  | ServerNotConnectedError, ServerNotConnectedError => true
  | ServerConnectionError, ServerConnectionError => true
  | KeyError, KeyError => true
  | AppError n, AppError m => Nat.eqb n m
  | _, _ => false
  end.

(** The outcome of evaluating an expression or running a statement.
    [OutOfFuel] is the model's stand-in for a loop or recursion cut short
    by its fuel; no [except] clause catches it. *)
Inductive Result (A : Type) :=
| Ok (a : A)
| Raise (e : exn)
| OutOfFuel.
Arguments Ok {A} a.
Arguments Raise {A} e.
Arguments OutOfFuel {A}.

Definition rbind {A B} (r : Result A) (k : A -> Result B) : Result B :=
  match r with
  | Ok a => k a
  | Raise e => Raise e
  | OutOfFuel => OutOfFuel
  end.

(** What a call of a function defined outside the two modules does: it
    returns a value or raises. *)
Inductive Outcome (A : Type) :=
| Returns (a : A)
| Raises (e : exn).
Arguments Returns {A} a.
Arguments Raises {A} e.

Definition run {A} (o : Outcome A) : Result A :=
  match o with
  | Returns a => Ok a
  | Raises e => Raise e
  end.

(** An instance attribute: never assigned, or bound to a value. *)
Inductive attr (A : Type) :=
| Unset
| Bound (a : A).
Arguments Unset {A}.
Arguments Bound {A} a.

(** Reading an attribute that was never assigned raises [AttributeError]. *)
Definition getattr {A} (a : attr A) : Result A :=
  match a with
  | Unset => Raise AttributeError
  | Bound v => Ok v
  end.

(** State-and-exception monad: a raised exception keeps the mutations made
    before it. *)
Definition M (St A : Type) : Type := St -> Result A * St.

Definition ret {St A} (a : A) : M St A := fun s => (Ok a, s).
Definition raise {St A} (e : exn) : M St A := fun s => (Raise e, s).
Definition out_of_fuel {St A} : M St A := fun s => (OutOfFuel, s).
Definition bind {St A B} (m : M St A) (k : A -> M St B) : M St B :=
  fun s =>
    match m s with
    | (Ok a, s') => k a s'
    | (Raise e, s') => (Raise e, s')
    | (OutOfFuel, s') => (OutOfFuel, s')
    end.
Definition get {St} : M St St := fun s => (Ok s, s).
Definition put {St} (s : St) : M St unit := fun _ => (Ok tt, s).
Definition modify {St} (f : St -> St) : M St unit := fun s => (Ok tt, f s).
Definition lift {St A} (r : Result A) : M St A := fun s => (r, s).

(** [try: body / except E: handler], for the exceptions [catches] selects. *)
Definition try_except {St A} (body : M St A) (catches : exn -> bool)
           (handler : M St A) : M St A :=
  fun s =>
    match body s with
    | (Raise e, s') => if catches e then handler s' else (Raise e, s')
    | r => r
    end.

(** [for x in l: body x]. *)
Fixpoint for_each {St A} (l : list A) (body : A -> M St unit) : M St unit :=
  match l with
  | [] => ret tt
  | x :: l' => bind (body x) (fun _ => for_each l' body)
  end.

(** Truthiness of the values the code tests. *)
Definition truthy_str (s : string) : bool :=
  match s with EmptyString => false | _ => true end.
Definition truthy_opt (o : option string) : bool :=
  match o with Some s => truthy_str s | None => false end.
Definition truthy_list {A} (l : list A) : bool :=
  match l with [] => false | _ => true end.

(** [x or y] on strings. *)
Definition str_or (x y : string) : string := if truthy_str x then x else y.

(** [l[i]] on a list: [IndexError] out of range. *)
Definition index {A} (l : list A) (i : nat) : Result A :=
  match nth_error l i with
  | Some x => Ok x
  | None => Raise IndexError
  end.

(** [a[i]] when [a] may be [None]: subscripting [None] is a [TypeError]. *)
Definition index_opt {A} (a : option (list A)) (i : nat) : Result A :=
  match a with
  | None => Raise TypeError
  | Some l => index l i
  end.

(** [a[i:]] when [a] may be [None]. *)
Definition slice_from_opt {A} (a : option (list A)) (i : nat) : Result (list A) :=
  match a with
  | None => Raise TypeError
  | Some l => Ok (drop i l)
  end.

(** *** String methods *)

Definition lower_ascii (c : ascii) : ascii :=
  let n := nat_of_ascii c in
  if (65 <=? n)%nat && (n <=? 90)%nat then ascii_of_nat (n + 32) else c.

(** [s.lower()].  Letters outside ASCII are left as they are. *)
Fixpoint lower (s : string) : string :=
  match s with
  | EmptyString => EmptyString
  | String c s' => String (lower_ascii c) (lower s')
  end.

(** [sep.join(l)]. *)
Fixpoint join (sep : string) (l : list string) : string :=
  match l with
  | [] => EmptyString
  | [x] => x
  | x :: l' => x +:+ sep +:+ join sep l'
  end.

(** Whitespace as [str.split()] and [str.strip()] see it. *)
Definition is_space (c : ascii) : bool :=
  let n := nat_of_ascii c in
  ((9 <=? n)%nat && (n <=? 13)%nat) || ((28 <=? n)%nat && (n <=? 32)%nat).

(** The words of [s], with a flag telling whether [s] starts inside the
    first of them. *)
Fixpoint words (s : string) : bool * list string :=
  match s with
  | EmptyString => (false, [])
  | String c s' =>
      let '(inw, ws) := words s' in
      if is_space c then (false, ws)
      else if inw then
        (true, match ws with w :: r => String c w :: r | [] => [String c EmptyString] end)
      else (true, String c EmptyString :: ws)
  end.

(** [s.split()]. *)
Definition split_ws (s : string) : list string := snd (words s).

(** [s.split(c)] for a one-character separator. *)
Fixpoint split_on (c : ascii) (s : string) : list string :=
  match s with
  | EmptyString => [EmptyString]
  | String a s' =>
      if Ascii.eqb a c then EmptyString :: split_on c s'
      else match split_on c s' with
           | w :: ws => String a w :: ws
           | [] => [String a EmptyString]
           end
  end.

Fixpoint drop_str (n : nat) (s : string) : string :=
  match n, s with
  | S n', String _ s' => drop_str n' s'
  | _, _ => s
  end.

(** [s.split(sep, 1)]: the text before and after the first [sep], when
    there is one. *)
Fixpoint split_first (sep s : string) : option (string * string) :=
  if String.prefix sep s then Some (EmptyString, drop_str (String.length sep) s)
  else match s with
       | EmptyString => None
       | String a s' =>
           match split_first sep s' with
           | Some (x, y) => Some (String a x, y)
           | None => None
           end
       end.

Fixpoint lstrip (s : string) : string :=
  match s with
  | String c s' => if is_space c then lstrip s' else s
  | EmptyString => EmptyString
  end.

Fixpoint rstrip (s : string) : string :=
  match s with
  | EmptyString => EmptyString
  | String c s' =>
      match rstrip s' with
      | EmptyString => if is_space c then EmptyString else String c EmptyString
      | r => String c r
      end
  end.

(** [s.strip()]. *)
Definition strip (s : string) : string := rstrip (lstrip s).

(** [x in l] for a list of strings. *)
Definition str_in (x : string) (l : list string) : bool :=
  existsb (String.eqb x) l.

(** [x in l] when [x] may be [None]: [None] equals no string. *)
Definition opt_in (x : option string) (l : list string) : bool :=
  match x with
  | Some s => str_in s l
  | None => false
  end.

(** [c in s] for a character of a string. *)
Fixpoint char_in (c : ascii) (s : string) : bool :=
  match s with
  | EmptyString => false
  | String a s' => Ascii.eqb a c || char_in c s'
  end.

End Py.

Export Py.

Declare Scope py_scope.
Delimit Scope py_scope with py.
Notation "x <- m ;; k" := (Py.bind m (fun x => k))
  (at level 100, m at next level, right associativity) : py_scope.
Notation "m ;;; k" := (Py.bind m (fun _ => k))
  (at level 100, right associativity) : py_scope.

Local Open Scope py_scope.

(** ** connection.py *)

Module Connection.

(** [Event = collections.namedtuple('Event', ('eventtype', 'source',
    'target', 'argument'))]. *)
Record Event := mkEvent {
  eventtype : string;
  source : option string;
  target : option string;
  argument : list string }.

(** What the connection does to the outside world, in order. *)
Inductive Effect :=
| EWrite (data : string)
| EClose
| EOpen (host : string) (port : Z)
| EAddSocket
| EDispatch (e : Event).

(** The outside world: successive readings of [time.time()], the transport
    ([socket.error] on a write, on [close()], on [bind]/[connect]) and what a
    call of [self._handle_event(event)] looks like from its call site (it
    returns, or an exception leaves it). *)
Record Env := mkEnv {
  clock : nat -> Q;
  tick : nat;
  log : list Effect;
  next_socket : nat;
  send_fails : string -> bool;
  close_fails : bool;
  connect_fails : string -> Z -> bool;
  dispatch_raises : Event -> option exn }.

(** The object a connection was created by ([IRC.server()] or
    [Session.server()]).  [IRC.__init__] assigns [fn_to_add_socket];
    [Session.__init__] does not. *)
Record IrcLibObj := mkLib {
  fn_to_add_socket : attr bool;
  lib_encoding : string }.

(** The arguments of [connect], stored on the object for [reconnect]. *)
Record ConnectInfo := mkInfo {
  ci_server : string;
  ci_port : Z;
  ci_nickname : string;
  ci_password : option string;
  ci_username : option string;
  ci_ircname : option string;
  ci_localaddress : string;
  ci_localport : Z;
  ci_ssl : bool;
  ci_ipv6 : bool }.

(** [ServerConnection].  [last_time] and [_last_ping] are optional because
    the session loops guard their reads with [except AttributeError]; a
    [ServerConnection] has both from [__init__] on.  There is no field for
    [self.sqlite]: the only assignment to it is commented out. *)
Record ServerConnection := mkConn {
  irclibobj : IrcLibObj;
  connected : bool;
  socket : option nat;
  ssl : bool;
  message_queue : list string;
  sent_bytes : Z;
  send_time : Q;
  last_time : option Q;
  _last_ping : option Q;
  encoding : string;
  featurelist : gmap string string;
  previous_buffer : string;
  handlers : gmap string (list nat);
  real_server_name : string;
  real_nickname : string;
  info : ConnectInfo }.

Definition server (c : ServerConnection) : string := ci_server (info c).
Definition port (c : ServerConnection) : Z := ci_port (info c).
Definition nickname (c : ServerConnection) : string := ci_nickname (info c).
Definition password (c : ServerConnection) : option string := ci_password (info c).
Definition username (c : ServerConnection) : option string := ci_username (info c).
Definition ircname (c : ServerConnection) : option string := ci_ircname (info c).

(** [ServerConnection.__init__], at the clock reading [now]. *)
Definition ServerConnection_init (lib : IrcLibObj) (now1 now2 : Q) : ServerConnection :=
  {| irclibobj := lib; connected := false; socket := None; ssl := false;
     message_queue := []; sent_bytes := 0; send_time := 0;
     last_time := Some now1; _last_ping := Some now2;
     encoding := lib_encoding lib; featurelist := ∅;
     previous_buffer := EmptyString; handlers := ∅;
     real_server_name := EmptyString; real_nickname := EmptyString;
     info := mkInfo EmptyString 0 EmptyString None None None EmptyString 0 false false |}.

Definition set_connected (v : bool) (c : ServerConnection) : ServerConnection :=
  mkConn (irclibobj c) v (socket c) (ssl c) (message_queue c) (sent_bytes c)
    (send_time c) (last_time c) (_last_ping c) (encoding c) (featurelist c)
    (previous_buffer c) (handlers c) (real_server_name c) (real_nickname c) (info c).
Definition set_socket (v : option nat) (c : ServerConnection) : ServerConnection :=
  mkConn (irclibobj c) (connected c) v (ssl c) (message_queue c) (sent_bytes c)
    (send_time c) (last_time c) (_last_ping c) (encoding c) (featurelist c)
    (previous_buffer c) (handlers c) (real_server_name c) (real_nickname c) (info c).
Definition set_ssl (v : bool) (c : ServerConnection) : ServerConnection :=
  mkConn (irclibobj c) (connected c) (socket c) v (message_queue c) (sent_bytes c)
    (send_time c) (last_time c) (_last_ping c) (encoding c) (featurelist c)
    (previous_buffer c) (handlers c) (real_server_name c) (real_nickname c) (info c).
Definition set_message_queue (v : list string) (c : ServerConnection) : ServerConnection :=
  mkConn (irclibobj c) (connected c) (socket c) (ssl c) v (sent_bytes c)
    (send_time c) (last_time c) (_last_ping c) (encoding c) (featurelist c)
    (previous_buffer c) (handlers c) (real_server_name c) (real_nickname c) (info c).
Definition set_sent_bytes (v : Z) (c : ServerConnection) : ServerConnection :=
  mkConn (irclibobj c) (connected c) (socket c) (ssl c) (message_queue c) v
    (send_time c) (last_time c) (_last_ping c) (encoding c) (featurelist c)
    (previous_buffer c) (handlers c) (real_server_name c) (real_nickname c) (info c).
Definition set_send_time (v : Q) (c : ServerConnection) : ServerConnection :=
  mkConn (irclibobj c) (connected c) (socket c) (ssl c) (message_queue c) (sent_bytes c)
    v (last_time c) (_last_ping c) (encoding c) (featurelist c)
    (previous_buffer c) (handlers c) (real_server_name c) (real_nickname c) (info c).
Definition set_last_time (v : option Q) (c : ServerConnection) : ServerConnection :=
  mkConn (irclibobj c) (connected c) (socket c) (ssl c) (message_queue c) (sent_bytes c)
    (send_time c) v (_last_ping c) (encoding c) (featurelist c)
    (previous_buffer c) (handlers c) (real_server_name c) (real_nickname c) (info c).
Definition set_last_ping (v : option Q) (c : ServerConnection) : ServerConnection :=
  mkConn (irclibobj c) (connected c) (socket c) (ssl c) (message_queue c) (sent_bytes c)
    (send_time c) (last_time c) v (encoding c) (featurelist c)
    (previous_buffer c) (handlers c) (real_server_name c) (real_nickname c) (info c).
Definition set_featurelist (v : gmap string string) (c : ServerConnection) : ServerConnection :=
  mkConn (irclibobj c) (connected c) (socket c) (ssl c) (message_queue c) (sent_bytes c)
    (send_time c) (last_time c) (_last_ping c) (encoding c) v
    (previous_buffer c) (handlers c) (real_server_name c) (real_nickname c) (info c).
Definition set_previous_buffer (v : string) (c : ServerConnection) : ServerConnection :=
  mkConn (irclibobj c) (connected c) (socket c) (ssl c) (message_queue c) (sent_bytes c)
    (send_time c) (last_time c) (_last_ping c) (encoding c) (featurelist c)
    v (handlers c) (real_server_name c) (real_nickname c) (info c).
Definition set_real_server_name (v : string) (c : ServerConnection) : ServerConnection :=
  mkConn (irclibobj c) (connected c) (socket c) (ssl c) (message_queue c) (sent_bytes c)
    (send_time c) (last_time c) (_last_ping c) (encoding c) (featurelist c)
    (previous_buffer c) (handlers c) v (real_nickname c) (info c).
Definition set_real_nickname (v : string) (c : ServerConnection) : ServerConnection :=
  mkConn (irclibobj c) (connected c) (socket c) (ssl c) (message_queue c) (sent_bytes c)
    (send_time c) (last_time c) (_last_ping c) (encoding c) (featurelist c)
    (previous_buffer c) (handlers c) (real_server_name c) v (info c).

(** A connection in its world. *)
Record CW := mkCW { conn : ServerConnection; env : Env }.

(** The environment after the effects [l]. *)
Definition add_log (l : list Effect) (e : Env) : Env :=
  mkEnv (clock e) (tick e) (log e ++ l) (next_socket e) (send_fails e)
        (close_fails e) (connect_fails e) (dispatch_raises e).

(** The environment after [n] more readings of the clock. *)
Definition add_ticks (n : nat) (e : Env) : Env :=
  mkEnv (clock e) (n + tick e) (log e) (next_socket e) (send_fails e)
        (close_fails e) (connect_fails e) (dispatch_raises e).

(** The number of connection attempts among the effects [l]. *)
Fixpoint opens (l : list Effect) : nat :=
  match l with
  | [] => O
  | EOpen _ _ :: l' => S (opens l')
  | _ :: l' => opens l'
  end.

(** The events handed over among the effects [l]. *)
Fixpoint dispatched (l : list Effect) : list Event :=
  match l with
  | [] => []
  | EDispatch e :: l' => e :: dispatched l'
  | _ :: l' => dispatched l'
  end.

(** A computation only ever adds to the record of effects. *)
Definition extends {A} (m : M CW A) : Prop :=
  forall w, exists l, log (env (snd (m w))) = log (env w) ++ l.

(** A computation leaves the activity stamp [_last_ping] as it is. *)
Definition keeps_stamp {A} (m : M CW A) : Prop :=
  forall w, _last_ping (conn (snd (m w))) = _last_ping (conn w).

(** The write of the queued line [m]. *)
Definition write_of (m : string) : Effect := EWrite (m +:+ String "013" (String "010" EmptyString)).

Definition on_conn (f : ServerConnection -> ServerConnection) : M CW unit :=
  modify (fun w => mkCW (f (conn w)) (env w)).

Definition emit (x : Effect) : M CW unit :=
  modify (fun w =>
    let e := env w in
    mkCW (conn w)
      (mkEnv (clock e) (tick e) (log e ++ [x]) (next_socket e) (send_fails e)
             (close_fails e) (connect_fails e) (dispatch_raises e))).

(** [time.time()]: the next reading of the clock. *)
Definition time_time : M CW Q :=
  fun w =>
    let e := env w in
    (Ok (clock e (tick e)),
     mkCW (conn w)
       (mkEnv (clock e) (S (tick e)) (log e) (next_socket e) (send_fails e)
              (close_fails e) (connect_fails e) (dispatch_raises e))).

(** [socket.socket(...)]: a socket no connection holds yet. *)
Definition new_socket : M CW nat :=
  fun w =>
    let e := env w in
    (Ok (next_socket e),
     mkCW (conn w)
       (mkEnv (clock e) (tick e) (log e) (S (next_socket e)) (send_fails e)
              (close_fails e) (connect_fails e) (dispatch_raises e))).

(** The call [self._handle_event(event)] as its call sites in this class see
    it: the event is handed over, and the call returns or raises.  (The
    method itself is [ServerConnection_handle_event] below.) *)
Definition dispatch (e : Event) : M CW unit :=
  emit (EDispatch e) ;;;
  w <- get ;;
  match dispatch_raises (env w) e with
  | Some x => raise x
  | None => ret tt
  end.

Definition CRLF : string := String "013" (String "010" EmptyString).

(** [message and (prefix + message)]. *)
Definition and_prefix (prefix message : string) : string :=
  if truthy_str message then prefix +:+ message else message.

(** [send_raw_instant], given what [self.disconnect] does. *)
Definition send_raw_instant_with (disconnect : string -> M CW unit)
           (s : string) : M CW unit :=
  w <- get ;;
  match socket (conn w) with
  | None => raise ServerNotConnectedError
  | Some _ =>
      let message := s +:+ CRLF in
      emit (EWrite message) ;;;
      if send_fails (env w) message
      then disconnect "Connection reset by peer."
      else ret tt
  end.

(** [quit]: [send_raw_instant("QUIT" + (message and (" :" + message)))]. *)
Definition quit_with (disconnect : string -> M CW unit) (message : string) : M CW unit :=
  send_raw_instant_with disconnect ("QUIT" +:+ and_prefix " :" message).

(** [disconnect].  It sends QUIT through [send_raw_instant], whose
    [except socket.error] clause calls [disconnect] again; the fuel bounds
    that nesting. *)
Fixpoint disconnect_fuel (fuel : nat) (message : string) : M CW unit :=
  match fuel with
  | O => out_of_fuel
  | S fuel' =>
      w <- get ;;
      if negb (connected (conn w)) then ret tt
      else
        on_conn (set_connected false) ;;;
        quit_with (disconnect_fuel fuel') message ;;;
        w1 <- get ;;
        match socket (conn w1) with
        | None => raise AttributeError
        | Some _ => emit EClose
        end ;;;
        on_conn (set_socket None) ;;;
        w2 <- get ;;
        dispatch (mkEvent "disconnect" (Some (server (conn w2))) (Some EmptyString) [message])
  end.

Definition disconnect : string -> M CW unit := disconnect_fuel 2.

Definition send_raw_instant : string -> M CW unit := send_raw_instant_with disconnect.

Definition quit : string -> M CW unit := quit_with disconnect.

(** [send_raw]: queue the line for the rate-limited sender. *)
Definition send_raw (s : string) : M CW unit :=
  w <- get ;;
  match socket (conn w) with
  | None => raise ServerNotConnectedError
  | Some _ => on_conn (fun c => set_message_queue (message_queue c ++ [s]) c)
  end.

Definition pass_ (password : string) : M CW unit := send_raw ("PASS " +:+ password).
Definition nick (newnick : string) : M CW unit := send_raw ("NICK " +:+ newnick).
Definition user (username realname : string) : M CW unit :=
  send_raw ("USER " +:+ username +:+ " 0 * :" +:+ realname).
Definition notice (target text : string) : M CW unit :=
  send_raw ("NOTICE " +:+ target +:+ " :" +:+ text).
Definition CTCP_DELIM : string := String "001" EmptyString.
Definition ctcp_reply (target parameter : string) : M CW unit :=
  notice target (CTCP_DELIM +:+ parameter +:+ CTCP_DELIM).
Definition pong (target : string) : M CW unit :=
  send_raw_instant ("PONG " +:+ target).

(** [x or y] when [x] may be [None]. *)
Definition opt_or (x : option string) (y : string) : string :=
  match x with
  | Some s => str_or s y
  | None => y
  end.

(** [connect]. *)
Definition connect (a : ConnectInfo) : M CW unit :=
  w <- get ;;
  (if connected (conn w) then disconnect "Changing servers" else ret tt) ;;;
  on_conn (fun c =>
    mkConn (irclibobj c) (connected c) (socket c) (ssl c) (message_queue c)
      (sent_bytes c) (send_time c) (last_time c) (_last_ping c) (encoding c)
      ∅ EmptyString ∅ EmptyString (ci_nickname a)
      (mkInfo (ci_server a) (ci_port a) (ci_nickname a) (ci_password a)
         (Some (opt_or (ci_username a) (ci_nickname a)))
         (Some (opt_or (ci_ircname a) (ci_nickname a)))
         (ci_localaddress a) (ci_localport a) (ci_ssl a) (ci_ipv6 a))) ;;;
  s <- new_socket ;;
  on_conn (set_socket (Some s)) ;;;
  emit (EOpen (ci_server a) (ci_port a)) ;;;
  w1 <- get ;;
  (if connect_fails (env w1) (ci_server a) (ci_port a)
   then emit EClose ;;; on_conn (set_socket None) ;;; raise ServerConnectionError
   else if ci_ssl a then on_conn (set_ssl true) else ret tt) ;;;
  on_conn (set_connected true) ;;;
  add <- lift (getattr (fn_to_add_socket (irclibobj (conn w1)))) ;;
  (if add : bool then emit EAddSocket else ret tt) ;;;
  (if truthy_opt (ci_password a)
   then pass_ (default EmptyString (ci_password a)) else ret tt) ;;;
  nick (ci_nickname a) ;;;
  user (opt_or (ci_username a) (ci_nickname a)) (opt_or (ci_ircname a) (ci_nickname a)).

(** [reconnect]: disconnect and connect with the stored parameters. *)
Definition reconnect (message : string) : M CW unit :=
  disconnect message ;;;
  w <- get ;;
  connect (info (conn w)).

(** *** The handler table of [IRC] and the two dispatchers *)

(** A registered callback is a function object.  Python 2 orders two
    function objects by their addresses, so a callback is modelled by the
    address it lives at. *)
Definition Callback := nat.

(** An entry [(priority, handler)] of a global handler list. *)
Definition Entry : Type := Z * Callback.

(** [x < y] on [(priority, handler)] tuples: the first components decide
    unless they are equal, then the second do. *)
Definition entry_lt (x y : Entry) : bool :=
  if (fst x =? fst y)%Z then (snd x <? snd y)%nat else (fst x <? fst y)%Z.

(** [x <= y] on entries: [y] is not smaller than [x]. *)
Definition entry_le : relation Entry := fun x y => entry_lt y x = false.

(** [bisect.insort(a, x)] on a sorted list, by its contract: [x] goes in
    front of the first entry it is smaller than, that is after every entry
    equal to it. *)
Fixpoint insort (a : list Entry) (x : Entry) : list Entry :=
  match a with
  | [] => [x]
  | y :: a' => if entry_lt x y then x :: y :: a' else y :: insort a' x
  end.

(** [h.get(k, [])]. *)
Definition get_list {A} (h : gmap string (list A)) (k : string) : list A :=
  default [] (h !! k).

(** [IRC.add_global_handler]. *)
Definition add_global_handler (event : string) (handler : Callback) (priority : Z)
           (h : gmap string (list Entry)) : gmap string (list Entry) :=
  <[event := insort (get_list h event) (priority, handler)]> h.

(** [IRC.__init__] registers the built-in keep-alive at priority -42. *)
Definition IRC_init (_ping_ponger : Callback) : gmap string (list Entry) :=
  add_global_handler "ping" _ping_ponger (-42) ∅.

(** A registration [add_global_handler(event, handler, priority)]. *)
Definition Registration : Type := string * Callback * Z.

(** The table reached from [h] by a run of registrations, oldest first. *)
Definition register_from (h : gmap string (list Entry)) (regs : list Registration)
  : gmap string (list Entry) :=
  foldl (fun h r => add_global_handler r.1.1 r.1.2 r.2 h) h regs.

(** The same on a fresh table. *)
Definition register_all (regs : list Registration) : gmap string (list Entry) :=
  register_from ∅ regs.

(** The entries registered for [event], oldest first. *)
Definition entries_for (event : string) (regs : list Registration) : list Entry :=
  map (fun r : Registration => (r.2, r.1.2))
      (filter (fun r : Registration => r.1.1 = event) regs).

(** The handlers that ran, in order. *)
Inductive Ran :=
| RanGlobal (h : Callback) (e : Event)
| RanLocal (h : Callback) (e : Event).

(** The record of a global entry's call. *)
Definition ran_global (e : Event) (x : Entry) : Ran := RanGlobal (snd x) e.

Section Dispatchers.

(** The value of the expression [event.eventtype()].  Both dispatchers of
    this module obtain the event type through this call. *)
Variable eventtype_call : Event -> Result string.

(** What a global handler does when called: it returns (["NO MORE"] or
    anything else) or raises. *)
Variable call_global : Callback -> Event -> Result bool.

(** What a per-connection handler does when called. *)
Variable call_local : Callback -> Event -> Result unit.

(** The loop of [IRC._handle_event]. *)
Fixpoint run_global (l : list Entry) (e : Event) : M (list Ran) unit :=
  match l with
  | [] => ret tt
  | handler :: l' =>
      modify (fun r => r ++ [RanGlobal (snd handler) e]) ;;;
      no_more <- lift (call_global (snd handler) e) ;;
      if no_more : bool then ret tt else run_global l' e
  end.

(** [IRC._handle_event]. *)
Definition IRC_handle_event (h : gmap string (list Entry)) (e : Event) : M (list Ran) unit :=
  let wild := get_list h "all_events" in
  t <- lift (eventtype_call e) ;;
  run_global (wild ++ get_list h t) e.

(** The loop of [ServerConnection._handle_event]. *)
Definition run_local (fns : list Callback) (e : Event) : M (list Ran) unit :=
  for_each fns (fun fn =>
    modify (fun r => r ++ [RanLocal fn e]) ;;;
    lift (call_local fn e)).

(** The statements of [ServerConnection._handle_event] after the call of
    the global dispatcher. *)
Definition own_handlers (own : gmap string (list Callback)) (e : Event) : M (list Ran) unit :=
  t <- lift (eventtype_call e) ;;
  match own !! t with
  | None => ret tt
  | Some _ =>
      t' <- lift (eventtype_call e) ;;
      fns <- lift (match own !! t' with Some l => Ok l | None => Raise KeyError end) ;;
      run_local fns e
  end.

(** [ServerConnection._handle_event]. *)
Definition ServerConnection_handle_event (h : gmap string (list Entry))
           (own : gmap string (list Callback)) (e : Event) : M (list Ran) unit :=
  IRC_handle_event h e ;;;
  own_handlers own e.

End Dispatchers.

(** [event.eventtype()] on an event object whose [eventtype] is a method
    returning the type. *)
Definition eventtype_method (e : Event) : Result string := Ok (eventtype e).

(** [event.eventtype()] on an [Event] as this module declares it: a
    namedtuple, whose [eventtype] is the string itself; calling a string
    raises [TypeError]. *)
Definition eventtype_namedtuple (e : Event) : Result string := Raise TypeError.

(** *** [process_data] *)

Definition numeric_events : list (string * string) :=
  [ ("001", "welcome"); ("002", "yourhost"); ("003", "created");
    ("004", "myinfo"); ("005", "featurelist"); ("200", "tracelink");
    ("201", "traceconnecting"); ("202", "tracehandshake");
    ("203", "traceunknown"); ("204", "traceoperator"); ("205", "traceuser");
    ("206", "traceserver"); ("207", "traceservice"); ("208", "tracenewtype");
    ("209", "traceclass"); ("210", "tracereconnect");
    ("211", "statslinkinfo"); ("212", "statscommands");
    ("213", "statscline"); ("214", "statsnline"); ("215", "statsiline");
    ("216", "statskline"); ("217", "statsqline"); ("218", "statsyline");
    ("219", "endofstats"); ("221", "umodeis"); ("231", "serviceinfo");
    ("232", "endofservices"); ("233", "service"); ("234", "servlist");
    ("235", "servlistend"); ("241", "statslline"); ("242", "statsuptime");
    ("243", "statsoline"); ("244", "statshline"); ("250", "luserconns");
    ("251", "luserclient"); ("252", "luserop"); ("253", "luserunknown");
    ("254", "luserchannels"); ("255", "luserme"); ("256", "adminme");
    ("257", "adminloc1"); ("258", "adminloc2"); ("259", "adminemail");
    ("261", "tracelog"); ("262", "endoftrace"); ("263", "tryagain");
    ("265", "n_local"); ("266", "n_global"); ("300", "none");
    ("301", "away"); ("302", "userhost"); ("303", "ison"); ("305", "unaway");
    ("306", "nowaway"); ("307", "whoisidentified"); ("311", "whoisuser");
    ("312", "whoisserver"); ("313", "whoisoperator"); ("314", "whowasuser");
    ("315", "endofwho"); ("316", "whoischanop"); ("317", "whoisidle");
    ("318", "endofwhois"); ("319", "whoischannels"); ("321", "liststart");
    ("322", "list"); ("323", "listend"); ("324", "channelmodeis");
    ("329", "channelcreate"); ("331", "notopic"); ("332", "currenttopic");
    ("333", "topicinfo"); ("341", "inviting"); ("342", "summoning");
    ("346", "invitelist"); ("347", "endofinvitelist"); ("348", "exceptlist");
    ("349", "endofexceptlist"); ("351", "version"); ("352", "whoreply");
    ("353", "namreply"); ("361", "killdone"); ("362", "closing");
    ("363", "closeend"); ("364", "links"); ("365", "endoflinks");
    ("366", "endofnames"); ("367", "banlist"); ("368", "endofbanlist");
    ("369", "endofwhowas"); ("371", "info"); ("372", "motd");
    ("373", "infostart"); ("374", "endofinfo"); ("375", "motdstart");
    ("376", "endofmotd"); ("377", "motd2"); ("381", "youreoper");
    ("382", "rehashing"); ("384", "myportis"); ("391", "time");
    ("392", "usersstart"); ("393", "users"); ("394", "endofusers");
    ("395", "nousers"); ("401", "nosuchnick"); ("402", "nosuchserver");
    ("403", "nosuchchannel"); ("404", "cannotsendtochan");
    ("405", "toomanychannels"); ("406", "wasnosuchnick");
    ("407", "toomanytargets"); ("409", "noorigin"); ("411", "norecipient");
    ("412", "notexttosend"); ("413", "notoplevel"); ("414", "wildtoplevel");
    ("421", "unknowncommand"); ("422", "nomotd"); ("423", "noadmininfo");
    ("424", "fileerror"); ("431", "nonicknamegiven");
    ("432", "erroneusnickname"); ("433", "nicknameinuse");
    ("436", "nickcollision"); ("437", "unavailresource");
    ("441", "usernotinchannel"); ("442", "notonchannel");
    ("443", "useronchannel"); ("444", "nologin"); ("445", "summondisabled");
    ("446", "usersdisabled"); ("451", "notregistered");
    ("461", "needmoreparams"); ("462", "alreadyregistered");
    ("463", "nopermforhost"); ("464", "passwdmismatch");
    ("465", "yourebannedcreep"); ("466", "youwillbebanned");
    ("467", "keyset"); ("471", "channelisfull"); ("472", "unknownmode");
    ("473", "inviteonlychan"); ("474", "bannedfromchan");
    ("475", "badchannelkey"); ("476", "badchanmask"); ("477", "nochanmodes");
    ("478", "banlistfull"); ("481", "noprivileges");
    ("482", "chanoprivsneeded"); ("483", "cantkillserver");
    ("484", "restricted"); ("485", "uniqopprivsneeded");
    ("491", "nooperhost"); ("492", "noservicehost");
    ("501", "umodeunknownflag"); ("502", "usersdontmatch") ].

(** [numeric_events[command]] when [command in numeric_events]. *)
Fixpoint assoc (k : string) (l : list (string * string)) : option string :=
  match l with
  | [] => None
  | (k', v) :: l' => if String.eqb k k' then Some v else assoc k l'
  end.

Definition translate_numeric (command : string) : string :=
  default command (assoc command numeric_events).

(** The longest prefix without a space, and what follows it. *)
Fixpoint span_nonspace (s : string) : string * string :=
  match s with
  | EmptyString => (EmptyString, EmptyString)
  | String c s' =>
      if Ascii.eqb c " " then (EmptyString, s)
      else let '(a, b) := span_nonspace s' in (String c a, b)
  end.

(** The number of leading spaces, and what follows them. *)
Fixpoint span_spaces (s : string) : nat * string :=
  match s with
  | String c s' =>
      if Ascii.eqb c " " then let '(n, r) := span_spaces s' in (S n, r) else (O, s)
  | EmptyString => (O, EmptyString)
  end.

(** The longest prefix without a newline: what [.+] can cover. *)
Fixpoint until_newline (s : string) : string :=
  match s with
  | EmptyString => EmptyString
  | String c s' => if Ascii.eqb c "010" then EmptyString else String c (until_newline s')
  end.

(** The tail [( *(?P<argument> .+))?] of the line pattern, matched against
    what follows the command: [ *] gives back spaces until one space and at
    least one more character are left for the group. *)
Definition argument_group (r : string) : option string :=
  let '(k, rest) := span_spaces r in
  let body := until_newline rest in
  if (1 <=? k)%nat && truthy_str body then Some (" " +:+ body)
  else if (2 <=? k)%nat then Some "  "
  else None.

(** The command and the tail, with no prefix group. *)
Definition match_no_prefix (line : string) : option (option string * string * option string) :=
  let '(c, r) := span_nonspace line in
  if truthy_str c then Some (None, c, argument_group r) else None.

(** [_rfc_1459_command_regexp.match(line)], the pattern being
    [^(:(?P<prefix>[^ ]+) +)?(?P<command>[^ ]+)( *(?P<argument> .+))?]:
    the groups prefix, command and argument, or [None] when the line does not
    match. *)
Definition _rfc_1459_command_regexp (line : string)
  : option (option string * string * option string) :=
  match line with
  | String ":" s1 =>
      let '(p, r1) := span_nonspace s1 in
      let '(k, r2) := span_spaces r1 in
      let '(c, r3) := span_nonspace r2 in
      if truthy_str p && (1 <=? k)%nat && truthy_str c
      then Some (Some p, c, argument_group r3)
      else match_no_prefix line
  | _ => match_no_prefix line
  end.

(** [a = argument.split(" :", 1); arguments = a[0].split(); if len(a) == 2:
    arguments.append(a[1])]. *)
Definition split_arguments (argument : string) : list string :=
  match split_first " :" argument with
  | Some (a0, a1) => split_ws a0 ++ [a1]
  | None => split_ws argument
  end.

(** The command of a line as [process_data] goes on with it: lower-cased,
    a known numeric replaced by its name. *)
Definition parsed_command (line : string) : option string :=
  match _rfc_1459_command_regexp line with
  | Some (_, c, _) => Some (translate_numeric (lower c))
  | None => None
  end.

(** The prefix of a line, when it has one. *)
Definition parsed_prefix (line : string) : option string :=
  match _rfc_1459_command_regexp line with
  | Some (p, _, _) => p
  | None => None
  end.

(** The argument list of a line; [None] when the line has no argument. *)
Definition parsed_arguments (line : string) : option (list string) :=
  match _rfc_1459_command_regexp line with
  | Some (_, _, Some a) => Some (split_arguments a)
  | _ => None
  end.

(** A segment of a dequoted message: plain text, or a CTCP-tagged tuple. *)
Inductive CtcpPart :=
| Plain (s : string)
| Tagged (m : list string).

(** [s[0]]. *)
Definition first_char (s : string) : Result ascii :=
  match s with
  | EmptyString => Raise IndexError
  | String c _ => Ok c
  end.

(** [get_server_name]. *)
Definition get_server_name (c : ServerConnection) : string :=
  if truthy_str (real_server_name c) then real_server_name c else EmptyString.

(** The event every non-empty line is announced by. *)
Definition raw_event (c : ServerConnection) (line : string) : Event :=
  mkEvent "all_raw_messages" (Some (get_server_name c)) None [line].

(** The body of the [featurelist] loop. *)
Definition add_feature (fl : gmap string string) (feature : string) : gmap string string :=
  match split_on "=" feature with
  | [k; v] => <[k := v]> fl
  | [k] => <[k := EmptyString]> fl
  | _ => fl
  end.

(** What [recv] returned: [socket.error], or the bytes read. *)
Inductive Recv :=
| RecvError
| RecvData (d : string).

Section ProcessData.

(** [utils.nm_to_n], [utils.is_channel], [utils._ctcp_dequote] and
    [utils._linesep_regexp.split] are not defined in this module; neither is
    the codec behind [line.decode(self.encoding, 'replace')]. *)
Variable nm_to_n : option string -> Outcome string.
Variable is_channel : string -> bool.
Variable _ctcp_dequote : string -> list CtcpPart.
Variable linesep_split : string -> list string.
Variable decode : string -> string -> string.

(** Any use of [self.sqlite]: the attribute is never assigned. *)
Definition sqlite {A} : M CW A := raise AttributeError.

(** The loop over the segments of a PRIVMSG or NOTICE.  [command] is
    reassigned inside the loop and carried to the next segment. *)
Fixpoint ctcp_loop (prefix : option string) (target : string)
         (messages : list CtcpPart) (command : string) : M CW unit :=
  match messages with
  | [] => ret tt
  | Tagged m :: rest =>
      let command' :=
        if str_in command ["privmsg"; "pubmsg"] then "ctcp" else "ctcpreply" in
      dispatch (mkEvent command' prefix (Some target) m) ;;;
      (if String.eqb command' "ctcp"
       then m0 <- lift (index m 0) ;;
            if String.eqb m0 "ACTION"
            then dispatch (mkEvent "action" prefix (Some target) (drop 1 m))
            else ret tt
       else ret tt) ;;;
      ctcp_loop prefix target rest command'
  | Plain m :: rest =>
      dispatch (mkEvent command prefix (Some target) [m]) ;;;
      ctcp_loop prefix target rest command
  end.

(** The branch of [process_data] for every command but PRIVMSG and NOTICE. *)
Definition other_command (prefix : option string) (command : string)
           (arguments : option (list string)) : M CW unit :=
  ta <-
     (if String.eqb command "quit"
      then a0 <- lift (index_opt arguments 0) ;; sqlite
      else if String.eqb command "ping"
      then a0 <- lift (index_opt arguments 0) ;;
           ret (Some a0, default [] arguments)
      else a0 <- lift (index_opt arguments 0) ;;
           rest <- lift (slice_from_opt arguments 1) ;;
           ret (Some a0, rest)) ;;
  let target : option string := fst ta in
  let arguments : list string := snd ta in
  (if str_in command ["join"; "part"] then sqlite
   else if String.eqb command "kick" then sqlite
   else if String.eqb command "topic" then sqlite
   else if String.eqb command "currenttopic" then sqlite
   else if String.eqb command "notopic" then sqlite
   else if String.eqb command "featurelist"
   then on_conn (fun c => set_featurelist (foldl add_feature (featurelist c) arguments) c)
   else if String.eqb command "endofmotd"
   then w <- get ;;
        (if bool_decide (is_Some (featurelist (conn w) !! "CHANMODES")) then sqlite else ret tt) ;;;
        (if bool_decide (is_Some (featurelist (conn w) !! "PREFIX")) then sqlite else ret tt)
   else if String.eqb command "namreply"
   then chan <- lift (index arguments 1) ;;
        names <- lift (index arguments 2) ;;
        sqlite
   else ret tt) ;;;
  command <-
    (if String.eqb command "mode"
     then let command := if is_channel (default EmptyString target) then command else "umode" in
          a0 <- lift (index arguments 0) ;;
          operator <- lift (first_char a0) ;;
          sqlite
     else ret command) ;;
  dispatch (mkEvent command prefix target arguments).

(** The loop body from [m = _rfc_1459_command_regexp.match(line)] on: the
    structured parse of a line and the dispatch of its events. *)
Definition parse_line (line : string) : M CW unit :=
  match _rfc_1459_command_regexp line with
  | None => raise AttributeError
  | Some (prefix, command, argument) =>
      match prefix with
      | Some p =>
          on_conn (fun c =>
            if truthy_str (real_server_name c) then c else set_real_server_name p c)
      | None => ret tt
      end ;;;
      let command := lower command in
      let arguments := option_map split_arguments argument in
      let command := translate_numeric command in
      (if String.eqb command "nick"
       then old_nick <- lift (run (nm_to_n prefix)) ;;
            w1 <- get ;;
            (if String.eqb old_nick (real_nickname (conn w1))
             then a0 <- lift (index_opt arguments 0) ;; on_conn (set_real_nickname a0)
             else ret tt) ;;;
            sqlite
       else if String.eqb command "welcome"
       then a0 <- lift (index_opt arguments 0) ;; on_conn (set_real_nickname a0)
       else ret tt) ;;;
      if str_in command ["privmsg"; "notice"]
      then target <- lift (index_opt arguments 0) ;;
           message <- lift (index_opt arguments 1) ;;
           let messages := _ctcp_dequote message in
           let command :=
             if String.eqb command "privmsg"
             then (if is_channel target then "pubmsg" else command)
             else (if is_channel target then "pubnotice" else "privnotice") in
           ctcp_loop prefix target messages command
      else other_command prefix command arguments
  end.

(** The body of the loop over the lines of one read. *)
Definition process_line (raw : string) : M CW unit :=
  w <- get ;;
  let line := decode (encoding (conn w)) raw in
  if negb (truthy_str line) then ret tt
  else
    dispatch (raw_event (conn w) line) ;;;
    parse_line line.

(** [ServerConnection.process_data], given what the read returned. *)
Definition process_data (r : Recv) : M CW unit :=
  w <- get ;;
  (if ssl (conn w) then ret tt
   else match socket (conn w) with
        | None => raise AttributeError
        | Some _ => ret tt
        end) ;;;
  match r with
  | RecvError => disconnect "Connection reset by peer"
  | RecvData new_data =>
      if negb (truthy_str new_data) then disconnect "Connection reset by peer"
      else
        now <- time_time ;;
        on_conn (set_last_ping (Some now)) ;;;
        let lines := linesep_split (previous_buffer (conn w) +:+ new_data) in
        match reverse lines with
        | [] => raise IndexError
        | unfinished :: done =>
            on_conn (set_previous_buffer unfinished) ;;;
            for_each (reverse done) process_line
        end
  end.

End ProcessData.

End Connection.

(** ** session.py *)

Module Session.

Import Connection.

(** [Nickname]: [name] is assigned on both paths of the constructor, [host]
    on one of them only. *)
Record Nickname := mkNickname {
  name : option string;
  host : attr (option string) }.

(** One decoded mode change: [(sign, mode, param)]. *)
Definition ModeChange : Type := string * string * option string.

(** The [modes] attribute of a mode event: one tuple, or the whole list. *)
Inductive ModesField :=
| OneMode (m : ModeChange)
| ManyModes (l : list ModeChange).

(** [HighEvent].  The constructor assigns [command], [nickname], [server],
    [channel] and [message]; the other attributes exist only on the events of
    the commands that assign them.  The [server] attribute (the connection
    object itself) carries no data of its own and is left out. *)
Record HighEvent := mkHigh {
  command : string;
  nickname : option Nickname;
  channel : option string;
  message : option string;
  server_name : attr (option string);
  new_nickname : attr Nickname;
  text_command : attr string;
  ctcp : attr string;
  kicker : attr Nickname;
  modes : attr ModesField;
  hsource : attr (option string);
  htarget : attr (option string) }.

(** [cls(server, command, nickname, channel, message)]. *)
Definition creator (command : string) (nickname : option Nickname)
           (channel message : option string) : HighEvent :=
  mkHigh command nickname channel message Unset Unset Unset Unset Unset Unset Unset Unset.

Definition set_command (v : string) (h : HighEvent) : HighEvent :=
  mkHigh v (nickname h) (channel h) (message h) (server_name h) (new_nickname h)
    (text_command h) (ctcp h) (kicker h) (modes h) (hsource h) (htarget h).
Definition set_server_name (v : option string) (h : HighEvent) : HighEvent :=
  mkHigh (command h) (nickname h) (channel h) (message h) (Bound v) (new_nickname h)
    (text_command h) (ctcp h) (kicker h) (modes h) (hsource h) (htarget h).
Definition set_new_nickname (v : Nickname) (h : HighEvent) : HighEvent :=
  mkHigh (command h) (nickname h) (channel h) (message h) (server_name h) (Bound v)
    (text_command h) (ctcp h) (kicker h) (modes h) (hsource h) (htarget h).
Definition set_text_command (v : string) (h : HighEvent) : HighEvent :=
  mkHigh (command h) (nickname h) (channel h) (message h) (server_name h) (new_nickname h)
    (Bound v) (ctcp h) (kicker h) (modes h) (hsource h) (htarget h).
Definition set_ctcp (v : string) (h : HighEvent) : HighEvent :=
  mkHigh (command h) (nickname h) (channel h) (message h) (server_name h) (new_nickname h)
    (text_command h) (Bound v) (kicker h) (modes h) (hsource h) (htarget h).
Definition set_kicker (v : Nickname) (h : HighEvent) : HighEvent :=
  mkHigh (command h) (nickname h) (channel h) (message h) (server_name h) (new_nickname h)
    (text_command h) (ctcp h) (Bound v) (modes h) (hsource h) (htarget h).
Definition set_modes (v : ModesField) (h : HighEvent) : HighEvent :=
  mkHigh (command h) (nickname h) (channel h) (message h) (server_name h) (new_nickname h)
    (text_command h) (ctcp h) (kicker h) (Bound v) (hsource h) (htarget h).
Definition set_source_target (s t : option string) (h : HighEvent) : HighEvent :=
  mkHigh (command h) (nickname h) (channel h) (message h) (server_name h) (new_nickname h)
    (text_command h) (ctcp h) (kicker h) (modes h) (Bound s) (Bound t).

(** An entry of [Session.handlers]: the filters of one registered callback.
    [regex] is the pattern compiled with [re.I], or [None]. *)
Record Handler := mkHandler {
  events : list string;
  channels : list string;
  nicks : list string;
  hmodes : string;
  regex : option string }.

(** An argument that may be one string or a list of strings. *)
Inductive StrOrList :=
| One (s : string)
| Many (l : list string).

Definition as_list (x : StrOrList) : list string :=
  match x with
  | One s => [s]
  | Many l => l
  end.

(** [event_handler(events, channels, nicks, modes, regex)] applied to the
    function [fn_module.fn_name]: the entry it stores in [Session.handlers]. *)
Definition event_handler (events channels nicks : StrOrList) (modes regex : string)
           (fn_module fn_name : string) (handlers : gmap string Handler)
  : gmap string Handler :=
  let events := map lower (as_list events) in
  let channels := map lower (as_list channels) in
  let nicks := map lower (as_list nicks) in
  let cregex := if truthy_str regex then Some regex else None in
  <[fn_module +:+ ":" +:+ fn_name := mkHandler events channels nicks modes cregex]> handlers.

(** What the application sees, in order: a call of [from_low_event], a call
    of a registered callback, an exception written to the log. *)
Inductive Call :=
| Translate (e : Event)
| Called (fn : string) (ev : HighEvent)
| LoggedException (what : string).

(** The session: its settings, the registry, the connection an event came
    from, and the record of calls. *)
Record SW := mkSW {
  handle_ctcp : bool;
  ctcp_version : string;
  ctcp_source : string;
  handlers : gmap string Handler;
  cw : CW;
  calls : list Call }.

Definition on_server {A} (m : M CW A) : M SW A :=
  fun s =>
    let '(r, w) := m (cw s) in
    (r, mkSW (handle_ctcp s) (ctcp_version s) (ctcp_source s) (handlers s) w (calls s)).

Definition record (c : Call) : M SW unit :=
  modify (fun s =>
    mkSW (handle_ctcp s) (ctcp_version s) (ctcp_source s) (handlers s) (cw s) (calls s ++ [c])).

(** The session after the calls [l]. *)
Definition add_calls (l : list Call) (s : SW) : SW :=
  mkSW (handle_ctcp s) (ctcp_version s) (ctcp_source s) (handlers s) (cw s) (calls s ++ l).

(** A computation only adds calls to the record, and each call it adds
    satisfies [P]. *)
Definition adds {A} (P : Call -> Prop) (m : M SW A) : Prop :=
  forall s, exists new, calls (snd (m s)) = calls s ++ new /\ Forall P new.

(** ["{}".format(x)] when [x] may be [None]. *)
Definition format_opt (x : option string) : string := default "None" x.

Section Translator.

(** [utils.nm_to_n] and the connection methods [is_channel], [_parse_modes]
    and [hasanymodes] are called here and defined nowhere in the two
    modules; so are the compiled pattern's [match], the callbacks themselves
    and the formatted local time. *)
Variable nm_to_n : option string -> Outcome string.
Variable is_channel : option string -> bool.
Variable _parse_modes : string -> list ModeChange.
Variable hasanymodes : string -> string -> string -> bool.
Variable re_match : string -> string -> bool.
Variable callback_raises : string -> HighEvent -> bool.
Variable strftime_now : string.

(** [Nickname.__init__]. *)
Definition Nickname_init (host : option string) (nickname_only : bool) : Result Nickname :=
  if nickname_only then Ok (mkNickname host Unset)
  else rbind (run (nm_to_n host)) (fun n => Ok (mkNickname (Some n) (Bound host))).

(** [HighEvent.from_low_event]. *)
Definition from_low_event (low_event : Event) : Result HighEvent :=
  let command := eventtype low_event in
  let creator := creator command in
  let arg (i : nat) := index (argument low_event) i in
  if String.eqb command "welcome" then
    let server_name := source low_event in
    rbind (Nickname_init (target low_event) true) (fun nickname =>
    rbind (arg 0) (fun message =>
    Ok (set_server_name server_name
          (set_command "connect" (creator (Some nickname) None (Some message))))))
  else if String.eqb command "nick" then
    rbind (Nickname_init (source low_event) false) (fun old_nickname =>
    rbind (Nickname_init (source low_event) false) (fun new_nickname =>
    let new_nickname := mkNickname (target low_event) (host new_nickname) in
    Ok (set_new_nickname new_nickname (creator (Some old_nickname) None None))))
  else if str_in command ["pubmsg"; "pubnotice"] then
    rbind (Nickname_init (source low_event) false) (fun nickname =>
    let channel := target low_event in
    rbind (arg 0) (fun message =>
    Ok (set_command "text"
          (set_text_command command (creator (Some nickname) channel (Some message))))))
  else if str_in command ["privmsg"; "privnotice"] then
    rbind (Nickname_init (source low_event) false) (fun nickname =>
    rbind (arg 0) (fun message =>
    Ok (set_command "text"
          (set_text_command command (creator (Some nickname) None (Some message))))))
  else if String.eqb command "ctcp" then
    rbind (Nickname_init (source low_event) false) (fun nickname =>
    rbind (arg 0) (fun ctcp =>
    let message := join " " (drop 1 (argument low_event)) in
    Ok (set_ctcp ctcp (creator (Some nickname) None (Some message)))))
  else if String.eqb command "action" then
    rbind (Nickname_init (source low_event) false) (fun nickname =>
    let channel := target low_event in
    let channel := if is_channel channel then channel else None in
    rbind (arg 0) (fun message =>
    Ok (creator (Some nickname) channel (Some message))))
  else if String.eqb command "ctcpreply" then
    rbind (Nickname_init (source low_event) false) (fun nickname =>
    rbind (arg 0) (fun ctcp =>
    let message := join " " (drop 1 (argument low_event)) in
    Ok (set_ctcp ctcp (creator (Some nickname) None (Some message)))))
  else if String.eqb command "quit" then
    rbind (Nickname_init (source low_event) false) (fun nickname =>
    rbind (arg 0) (fun message =>
    Ok (creator (Some nickname) None (Some message))))
  else if String.eqb command "join" then
    rbind (Nickname_init (source low_event) false) (fun nickname =>
    Ok (creator (Some nickname) (target low_event) None))
  else if String.eqb command "part" then
    rbind (Nickname_init (source low_event) false) (fun nickname =>
    Ok (creator (Some nickname) (target low_event) None))
  else if String.eqb command "kick" then
    rbind (Nickname_init (source low_event) false) (fun kicker =>
    rbind (arg 0) (fun kicked =>
    rbind (Nickname_init (Some kicked) true) (fun target_nick =>
    rbind (arg 1) (fun reason =>
    let channel := target low_event in
    Ok (set_kicker kicker (creator (Some target_nick) channel (Some reason)))))))
  else if String.eqb command "invite" then
    rbind (Nickname_init (source low_event) false) (fun nickname =>
    rbind (arg 0) (fun channel =>
    Ok (creator (Some nickname) (Some channel) None)))
  else if str_in command ["mode"; "umode"] then
    rbind (Nickname_init (source low_event) false) (fun mode_setter =>
    let channel := target low_event in
    let event := creator (Some mode_setter) channel None in
    let modes := _parse_modes (join " " (argument low_event)) in
    if (1 <? length modes)%nat then Ok (set_modes (ManyModes modes) event)
    else rbind (index modes 0) (fun m => Ok (set_modes (OneMode m) event)))
  else if str_in command ["topic"; "currenttopic"; "notopic"] then
    rbind (if String.eqb command "currenttopic"
           then rbind (arg 0) (fun c => Ok (Some c))
           else Ok (target low_event)) (fun channel =>
    rbind (if String.eqb command "topic"
           then rbind (Nickname_init (source low_event) false) (fun _ => Ok tt)
           else Ok tt) (fun _ =>
    rbind (if String.eqb command "currenttopic"
           then Ok (join " " (drop 1 (argument low_event)))
           else if String.eqb command "topic" then arg 0
           else Ok EmptyString) (fun topic =>
    Ok (set_command "topic" (creator None channel (Some topic))))))
  else if String.eqb command "all_raw_messages" then
    rbind (arg 0) (fun message =>
    Ok (set_command "raw" (creator None None (Some message))))
  else
    rbind (arg 0) (fun message =>
    Ok (set_source_target (source low_event) (target low_event)
          (creator None None (Some message)))).

(** [Session._ping_ponger]. *)
Definition _ping_ponger (event : Event) : M SW unit :=
  on_server (now <- time_time ;;
             on_conn (set_last_ping (Some now)) ;;;
             pong (format_opt (target event))).

(** [Session._ctcp_handler]. *)
Definition _ctcp_handler (event : Event) : M SW unit :=
  ctcp <- lift (index (argument event) 0) ;;
  src <- lift (match source event with
               | None => Raise TypeError
               | Some s => if char_in "!" s then run (nm_to_n (Some s)) else Ok s
               end) ;;
  s <- get ;;
  if String.eqb ctcp "VERSION"
  then on_server (ctcp_reply src ("VERSION " +:+ ctcp_version s))
  else if String.eqb ctcp "PING"
  then ping_time <- lift (index (argument event) 1) ;;
       on_server (ctcp_reply src ("PING " +:+ ping_time))
  else if String.eqb ctcp "TIME"
  then on_server (ctcp_reply src ("TIME " +:+ strftime_now))
  else if String.eqb ctcp "SOURCE"
  then on_server (ctcp_reply src ("SOURCE " +:+ ctcp_source s))
  else ret tt.

(** One turn of the loop over [Session.handlers.values()]: the chain of
    [continue] tests, then the guarded call. *)
Definition handler_step (high_event : HighEvent) (channel nickname : option string)
           (entry : string * Handler) : M SW unit :=
  let function := fst entry in
  let h := snd entry in
  if truthy_list (events h) && negb (str_in (lower (command high_event)) (events h))
  then ret tt
  else if truthy_list (channels h) && negb (opt_in channel (channels h))
  then ret tt
  else if truthy_list (nicks h) && negb (opt_in nickname (nicks h))
  then ret tt
  else if truthy_opt channel && truthy_opt nickname && negb (String.eqb (hmodes h) EmptyString)
          && negb (hasanymodes (default EmptyString channel) (default EmptyString nickname) (hmodes h))
  then ret tt
  else if truthy_opt (message high_event)
          && match regex h with
             | Some r => negb (re_match r (default EmptyString (message high_event)))
             | None => false
             end
  then ret tt
  else
    record (Called function high_event) ;;;
    if callback_raises function high_event
    then record (LoggedException "Exception in IRC handler")
    else ret tt.

(** The end of [Session._handle_event], from [handlers = Session.handlers]
    on: the loop over the registry. *)
Definition dispatch_high (high_event : HighEvent) : M SW unit :=
  s <- get ;;
  let channel :=
    if truthy_opt (channel high_event)
    then option_map lower (channel high_event)
    else channel high_event in
  nickname <-
    match nickname high_event with
    | None => ret None
    | Some n =>
        match name n with
        | None => raise AttributeError
        | Some x => ret (Some (lower x))
        end
    end ;;
  for_each (map_to_list (handlers s)) (handler_step high_event channel nickname).

(** The calls the loop makes for one entry of the registry, given whether
    the entry's filters let the event through. *)
Definition calls_for (passes : Handler -> bool) (high_event : HighEvent)
           (entry : string * Handler) : list Call :=
  if passes (snd entry)
  then Called (fst entry) high_event
       :: (if callback_raises (fst entry) high_event
           then [LoggedException "Exception in IRC handler"]
           else [])
  else [].

(** The second half of [Session._handle_event]: translation, then the
    loop. *)
Definition translate_and_dispatch (event : Event) : M SW unit :=
  record (Translate event) ;;;
  high_event <- lift (from_low_event event) ;;
  dispatch_high high_event.

(** The low-level event a decoded mode change is sent round again as. *)
Definition single_mode_event (event : Event) (m : ModeChange) : Event :=
  let '(sign, mode, param) := m in
  let param := if truthy_opt param then default EmptyString param else EmptyString in
  mkEvent (eventtype event) (source event) (target event) [sign +:+ mode; param].

(** A call concerns at most one mode change: the event handed to the
    translator, when it is a mode event, does not decode to several changes,
    and the event handed to a callback does not carry a list of changes. *)
Definition single_change (c : Call) : Prop :=
  match c with
  | Translate e =>
      str_in (eventtype e) ["mode"; "umode"] = true ->
      (length (_parse_modes (join " " (argument e))) <= 1)%nat
  | Called _ ev => forall l, modes ev <> Bound (ManyModes l)
  | LoggedException _ => True
  end.

(** [Session._handle_event].  The recursion on the re-emitted mode events
    is bounded by the fuel. *)
Fixpoint _handle_event (fuel : nat) (event : Event) : M SW unit :=
  match fuel with
  | O => out_of_fuel
  | S fuel' =>
      (if String.eqb (eventtype event) "ping" then _ping_ponger event else ret tt) ;;;
      s <- get ;;
      (if handle_ctcp s && String.eqb (eventtype event) "ctcp"
       then try_except (_ctcp_handler event) (fun _ => true)
              (record (LoggedException "Error in CTCP handler"))
       else ret tt) ;;;
      if str_in (eventtype event) ["mode"; "umode"]
      then
        let modes := _parse_modes (join " " (argument event)) in
        if (1 <? length modes)%nat
        then for_each modes (fun m => _handle_event fuel' (single_mode_event event m))
        else translate_and_dispatch event
      else translate_and_dispatch event
  end.

End Translator.

(** *** The send queue and the liveness watchdog *)

(** [for c in self.connections: body], each connection in the shared
    environment; an exception leaves the loop. *)
Fixpoint each_connection (body : M CW unit) (cs : list ServerConnection) (e : Env)
  : Result unit * (list ServerConnection * Env) :=
  match cs with
  | [] => (Ok tt, ([], e))
  | c :: cs' =>
      match body (mkCW c e) with
      | (Ok _, w) =>
          let '(r, (cs'', e')) := each_connection body cs' (env w) in
          (r, (conn w :: cs'', e'))
      | (bad, w) => (bad, (conn w :: cs', env w))
      end
  end.

(** The [while] loop of [send_once] for one connection. *)
Fixpoint send_loop (fuel : nat) : M CW unit :=
  match fuel with
  | O => out_of_fuel
  | S fuel' =>
      w <- get ;;
      match message_queue (conn w) with
      | [] => ret tt
      | message :: rest =>
          if (sent_bytes (conn w) <=? 2500)%Z
          then
            on_conn (set_message_queue rest) ;;;
            try_except (send_raw_instant message) (exn_eqb AttributeError) (reconnect EmptyString) ;;;
            on_conn (fun c =>
              set_sent_bytes (sent_bytes c + Z.of_nat (String.length message)) c) ;;;
            send_loop fuel'
          else ret tt
      end
  end.

(** The body of the [for] loop of [Session.send_once]. *)
Definition send_once_conn (fuel : nat) : M CW unit :=
  now <- time_time ;;
  w <- get ;;
  match last_time (conn w) with
  | None => ret tt
  | Some lt =>
      let delta := (now - lt)%Q in
      now' <- time_time ;;
      on_conn (set_last_time (Some now')) ;;;
      on_conn (fun c => set_send_time (send_time c + delta)%Q c) ;;;
      w1 <- get ;;
      (if Qle_bool 1.3 (send_time (conn w1))
       then on_conn (set_send_time 0) ;;; on_conn (set_sent_bytes 0)
       else ret tt) ;;;
      send_loop fuel
  end.

(** [Session.send_once]. *)
Definition send_once (fuel : nat) (cs : list ServerConnection) (e : Env)
  : Result unit * (list ServerConnection * Env) :=
  each_connection (send_once_conn fuel) cs e.

(** The body of the watchdog loop of [Session.process_once]. *)
Definition watchdog_conn (_current_time : Q) : M CW unit :=
  w <- get ;;
  match _last_ping (conn w) with
  | None => ret tt
  | Some lp =>
      let _difference := (_current_time - lp)%Q in
      if Qle_bool 260 _difference
      then reconnect "Ping timeout: 260 seconds"
      else ret tt
  end.

(** [Session.process_once] from [_current_time = time.time()] on: the
    watchdog loop, then [send_once].  A pass on which no socket is readable
    and no delayed command is due does nothing else. *)
Definition process_once_tail (fuel : nat) (cs : list ServerConnection) (e : Env)
  : Result unit * (list ServerConnection * Env) :=
  let _current_time := clock e (tick e) in
  let e1 := mkEnv (clock e) (S (tick e)) (log e) (next_socket e) (send_fails e)
              (close_fails e) (connect_fails e) (dispatch_raises e) in
  match each_connection (watchdog_conn _current_time) cs e1 with
  | (Ok _, (cs1, e2)) => send_once fuel cs1 e2
  | bad => bad
  end.

End Session.

(** ** Collaborators described by the specification only *)

Module Collaborators.

Import Connection Session.

Fixpoint before_bang (s : string) : string :=
  match s with
  | EmptyString => EmptyString
  | String c s' => if Ascii.eqb c "!" then EmptyString else String c (before_bang s')
  end.

(** Modelled from the spec: [utils.nm_to_n] is not under src/.  The spec
    names it the hostmask-to-nick extraction and has the hostmask
    [nick!user@host] yield [nick]: the text before the first [!].  A null
    hostmask is no string, and the call raises. *)
Definition nm_to_n (hostmask : option string) : Outcome string :=
  match hostmask with
  | Some s => Returns (before_bang s)
  | None => Raises AttributeError
  end.

(** Modelled from the spec: [utils.is_channel] and the connection method
    [is_channel] are not under src/.  The spec names a channel-name
    predicate and writes every channel with a leading [#]. *)
Definition is_channel (target : string) : bool :=
  match target with
  | String "#" _ => true
  | _ => false
  end.

Definition is_channel_opt (target : option string) : bool :=
  match target with
  | Some t => is_channel t
  | None => false
  end.

(** The tagged segment [body]: the CTCP command, and the payload when there
    is one. *)
Definition tagged (body : string) : CtcpPart :=
  match split_first " " body with
  | Some (c, payload) => Tagged [c; payload]
  | None => Tagged [body]
  end.

Fixpoint dequote_segments (plain : bool) (l : list string) : list CtcpPart :=
  match l with
  | [] => []
  | x :: l' =>
      if plain
      then (if truthy_str x then [Plain x] else []) ++ dequote_segments false l'
      else match l' with
           | [] => if truthy_str x then [Plain x] else []
           | _ => tagged x :: dequote_segments true l'
           end
  end.

(** Modelled from the spec: [utils._ctcp_dequote] is not under src/.  The
    spec has it produce the ordered sequence of plain-text and
    [(ctcp_command, payload)] segments of a message, a segment being tagged
    when it stands between two [\x01] delimiters. *)
Definition _ctcp_dequote (message : string) : list CtcpPart :=
  dequote_segments true (split_on "001" message).

Definition chop_cr (s : string) : string :=
  match reverse (list_ascii_of_string s) with
  | c :: r => if Ascii.eqb c "013" then string_of_list_ascii (reverse r) else s
  | [] => s
  end.

Fixpoint chop_all_but_last (l : list string) : list string :=
  match l with
  | [] => []
  | [x] => [x]
  | x :: l' => chop_cr x :: chop_all_but_last l'
  end.

(** Modelled from the spec: [utils._linesep_regexp] is not under src/.  The
    spec has the parser split the buffer on line terminators and keep the
    last, unfinished line: a newline ends a line, a carriage return before it
    belongs to the terminator. *)
Definition linesep_split (buffer : string) : list string :=
  chop_all_but_last (split_on "010" buffer).

(** Text is modelled by its bytes, so decoding leaves a line as it is. *)
Definition decode (encoding line : string) : string := line.

Definition one_char (c : ascii) : string := String c EmptyString.

(** The walk over the mode letters: [sign] is the current sign, [targets]
    the parameter tokens not consumed yet. *)
Fixpoint walk_modes (argmodes : string) (sign : string) (letters : string)
         (targets : list string) : list ModeChange :=
  match letters with
  | EmptyString => []
  | String c rest =>
      if Ascii.eqb c "+" || Ascii.eqb c "-"
      then walk_modes argmodes (one_char c) rest targets
      else if char_in c argmodes
      then (sign, one_char c, head targets) :: walk_modes argmodes sign rest (tail targets)
      else (sign, one_char c, None) :: walk_modes argmodes sign rest targets
  end.

(** Modelled from the spec: the connection method [_parse_modes] is not
    under src/.  The spec has the mode string walked left to right keeping a
    current sign, a letter of [argmodes] taking the next unconsumed parameter
    token, and the walk producing the sequence of
    [(sign, mode_letter, param_or_null)] tuples. *)
Definition _parse_modes (argmodes : string) (modestring : string) : list ModeChange :=
  match split_ws modestring with
  | [] => []
  | letters :: targets =>
      walk_modes argmodes (match letters with
                           | String c _ => one_char c
                           | EmptyString => EmptyString
                           end) letters targets
  end.

Fixpoint shares_char (a b : string) : bool :=
  match a with
  | EmptyString => false
  | String c a' => char_in c b || shares_char a' b
  end.

(** Modelled from the spec: the connection method [hasanymodes] and the
    tracker behind it are not under src/.  The spec asks of the tracker only
    the query whether a nick currently holds any of the given modes in a
    channel; [held] lists the modes each nick holds in each channel. *)
Definition hasanymodes (held : list (string * string * string))
           (channel nick modes : string) : bool :=
  existsb (fun '(c, n, m) => String.eqb c channel && String.eqb n nick && shares_char m modes)
          held.

(** A pattern without metacharacters matches, under [re.I], the messages
    that start with it whatever the case. *)
Definition re_match_literal (pattern message : string) : bool :=
  String.prefix (lower pattern) (lower message).

End Collaborators.

(** ** Sample worlds *)

Module Sample.

Import Connection Session.

Definition env0 : Env :=
  mkEnv (fun n => inject_Z (Z.of_nat n)) 0 [] 1
        (fun _ => false) false (fun _ _ => false) (fun _ => None).

Definition irc_lib : IrcLibObj := mkLib (Bound false) "utf-8".

Definition info0 : ConnectInfo :=
  mkInfo "irc.example.org" 6667 "bot" None (Some "bot") (Some "bot") EmptyString 0 false false.

(** A connection that is connected, with an empty queue. *)
Definition conn0 : ServerConnection :=
  mkConn irc_lib true (Some 0%nat) false [] 0 0 (Some 0%Q) (Some 0%Q) "utf-8"
         ∅ EmptyString ∅ "irc.example.org" "bot" info0.

Definition cw0 : CW := mkCW conn0 env0.

Definition sw0 (hs : gmap string Handler) : SW :=
  mkSW true "Hanyuu IRC Lib 1.3" "https://github.com/R-a-dio/Hanyuu-sama/" hs cw0 [].

(** A world in which the clock is 300 seconds past the sample connection's
    last activity, and moves on a second at each reading. *)
Definition silent_env : Env :=
  mkEnv (fun n => inject_Z (300 + Z.of_nat n)) 0 [] 1
        (fun _ => false) false (fun _ _ => false) (fun _ => None).

(** A line of [n] bytes. *)
Fixpoint filler (n : nat) : string :=
  match n with
  | O => EmptyString
  | S n' => String "x" (filler n')
  end.

(** A PING as [process_data] hands it over. *)
Definition ping_event : Event := mkEvent "ping" None (Some "irc.example.org") ["irc.example.org"].

(** A handler registered for [join] with the pattern [hello]. *)
Definition join_registry : gmap string Handler :=
  event_handler (One "join") (Many []) (Many []) EmptyString "hello" "bot" "on_join" ∅.

(** Alice joins [#chan]. *)
Definition join_event : Event := mkEvent "join" (Some "alice!a@host") (Some "#chan") [].

(** The handler [join_registry] holds. *)
Definition join_handler : Handler := mkHandler ["join"] [] [] EmptyString (Some "hello").

(** The high-level event of [join_event]. *)
Definition join_high : HighEvent :=
  creator "join" (Some (mkNickname (Some "alice") (Bound (Some "alice!a@host"))))
          (Some "#chan") None.

(** The formatted local time of the sample runs. *)
Definition sample_time : string := "Thu Jan 01 1970 00:00:00".

(** The server sets two modes on [#chan] in one line. *)
Definition mode_event : Event :=
  mkEvent "mode" (Some "op!o@host") (Some "#chan") ["+o-v"; "alice"; "bob"].

End Sample.

(** ** The specification's own wording, where a claim is compared with it *)

Module SpecWords.

Import Connection Session.

(** Insertion that looks at the priority only: the new entry goes after
    every entry of the same priority. *)
Fixpoint stable_insert (a : list Entry) (x : Entry) : list Entry :=
  match a with
  | [] => [x]
  | y :: a' => if (fst x <? fst y)%Z then x :: y :: a' else y :: stable_insert a' x
  end.

(** The global handler list of [event] as the specification orders it:
    ascending priority, ties in the order of insertion. *)
Definition stable_handler_list (event : string) (regs : list Registration) : list Entry :=
  foldl stable_insert [] (entries_for event regs).

(** The commands whose branch of [process_data] goes to the tracker
    [self.sqlite]: "nick, quit, join, part, kick, topic, currenttopic,
    notopic, or namreply, ... every mode line, and ... endofmotd when
    CHANMODES or PREFIX was advertised". *)
Definition uses_tracker (featurelist : gmap string string) (command : string) : bool :=
  str_in command ["nick"; "quit"; "join"; "part"; "kick"; "topic"; "currenttopic";
                  "notopic"; "namreply"; "mode"]
  || (String.eqb command "endofmotd"
      && (bool_decide (is_Some (featurelist !! "CHANMODES"))
          || bool_decide (is_Some (featurelist !! "PREFIX")))).

(** The line has at least [n] arguments. *)
Definition has_arguments (n : nat) (arguments : option (list string)) : bool :=
  match arguments with
  | Some l => (n <=? length l)%nat
  | None => false
  end.

(** The reads a branch makes before it reaches the tracker all succeed:
    the arguments it subscripts are there (for [nick], the old nick is
    extracted and the new one is there when the nick is the connection's
    own; for [mode], the mode string is not empty). *)
Definition reads_succeed (nm_to_n : option string -> Outcome string)
           (real_nickname : string) (prefix : option string) (command : string)
           (arguments : option (list string)) : bool :=
  if String.eqb command "nick" then
    match nm_to_n prefix with
    | Returns old_nick =>
        negb (String.eqb old_nick real_nickname) || has_arguments 1 arguments
    | Raises _ => false
    end
  else if String.eqb command "namreply" then has_arguments 4 arguments
  else if String.eqb command "mode" then
    match arguments with
    | Some (_ :: a1 :: _) => truthy_str a1
    | _ => false
    end
  else has_arguments 1 arguments.

(** The lower-cased channel of a high-level event. *)
Definition lowered_channel (ev : HighEvent) : option string :=
  option_map lower (channel ev).

(** The lower-cased nick of a high-level event. *)
Definition lowered_nick (ev : HighEvent) : option string :=
  match nickname ev with
  | Some n => option_map lower (name n)
  | None => None
  end.

Section Filters.

Variable hasanymodes : string -> string -> string -> bool.
Variable re_match : string -> string -> bool.

(** The event, channel, nick and permission filters: "the event's command
    (case-insensitively) is in the event filter; the lower-cased channel is
    in the channel filter; the lower-cased nick is in the nick filter; when
    both channel and nick are present on the event and the
    required-permission string is non-empty, the acting nick holds at least
    one of the required channel modes", each filter passing when it is
    empty. *)
Definition identity_filters_pass (h : Handler) (ev : HighEvent) : bool :=
  (negb (truthy_list (events h)) || str_in (lower (command ev)) (events h))
  && (negb (truthy_list (channels h)) || opt_in (lowered_channel ev) (channels h))
  && (negb (truthy_list (nicks h)) || opt_in (lowered_nick ev) (nicks h))
  && (negb (truthy_opt (lowered_channel ev) && truthy_opt (lowered_nick ev)
            && negb (String.eqb (hmodes h) EmptyString))
      || hasanymodes (default EmptyString (lowered_channel ev))
                     (default EmptyString (lowered_nick ev)) (hmodes h)).

(** The pattern filter as the specification words it: "when a pattern is set, the
    event's message matches the pattern". *)
Definition pattern_passes_as_stated (h : Handler) (ev : HighEvent) : bool :=
  match regex h with
  | None => true
  | Some r =>
      match message ev with
      | Some m => re_match r m
      | None => false
      end
  end.

(** The pattern filter, amended: a pattern is consulted only for a message
    that is there and not empty. *)
Definition pattern_passes (h : Handler) (ev : HighEvent) : bool :=
  match regex h with
  | None => true
  | Some r =>
      if truthy_opt (message ev)
      then re_match r (default EmptyString (message ev))
      else true
  end.

Definition filters_pass_as_stated (h : Handler) (ev : HighEvent) : bool :=
  identity_filters_pass h ev && pattern_passes_as_stated h ev.

Definition filters_pass (h : Handler) (ev : HighEvent) : bool :=
  identity_filters_pass h ev && pattern_passes h ev.

End Filters.

(** The bytes of a run of messages. *)
Definition total_bytes (l : list string) : Z :=
  foldr (fun m n => (Z.of_nat (String.length m) + n)%Z) 0%Z l.

(** The messages a send pass takes from the queue when "messages are
    dequeued and sent only while the sent-byte counter is at or below 2,500
    bytes, each send adding the message's encoded byte length to the
    counter". *)
Fixpoint budget_prefix (counter : Z) (queue : list string) : list string :=
  match queue with
  | [] => []
  | m :: q =>
      if (counter <=? 2500)%Z
      then m :: budget_prefix (counter + Z.of_nat (String.length m)) q
      else []
  end.

(** "The prefix that fits the budget": the longest prefix of the queue that
    keeps the counter within 2,500 bytes. *)
Fixpoint fitting_prefix (counter : Z) (queue : list string) : list string :=
  match queue with
  | [] => []
  | m :: q =>
      if (counter + Z.of_nat (String.length m) <=? 2500)%Z
      then m :: fitting_prefix (counter + Z.of_nat (String.length m)) q
      else []
  end.

End SpecWords.

(** ** The rest of [connection.py] *)

(** *** Lines and their words *)

Module Lines.

Import Connection.

(** Every character of [s] satisfies [p]. *)
Fixpoint str_all (p : ascii -> bool) (s : string) : bool :=
  match s with
  | EmptyString => true
  | String c s' => p c && str_all p s'
  end.

(** The character [c] does not occur in [s]. *)
Definition no_char (c : ascii) (s : string) : bool :=
  str_all (fun a => negb (Ascii.eqb a c)) s.

(** A word as a command takes it for a parameter: not empty, made of
    ASCII characters, and free of the whitespace [str.split()] cuts at. *)
Definition is_word (s : string) : bool :=
  truthy_str s
  && str_all (fun c => negb (is_space c) && (nat_of_ascii c <? 128)%nat) s.

(** The connection once [process_data] has looked at the prefix of a line:
    the first prefix seen becomes the server's name. *)
Definition note_prefix (prefix : option string) (c : ServerConnection) : ServerConnection :=
  match prefix with
  | Some p => if truthy_str (real_server_name c) then c else set_real_server_name p c
  | None => c
  end.

(** The commands [process_data] tells apart by name and that a server
    sends as words, not as numerics. *)
Definition word_commands : list string :=
  ["nick"; "quit"; "join"; "part"; "kick"; "topic"; "mode"; "privmsg"; "notice"; "ping"].

(** The commands [process_data] has a branch of its own for. *)
Definition special_commands : list string :=
  ["nick"; "welcome"; "privmsg"; "notice"; "quit"; "ping"; "join"; "part"; "kick";
   "topic"; "currenttopic"; "notopic"; "featurelist"; "endofmotd"; "namreply"; "mode"].

End Lines.

(** *** The commands of [ServerConnection] *)

Module Commands.

Import Connection.

Definition upper_ascii (c : ascii) : ascii :=
  let n := nat_of_ascii c in
  if (97 <=? n)%nat && (n <=? 122)%nat then ascii_of_nat (n - 32) else c.

(** [s.upper()].  Letters outside ASCII are left as they are. *)
Fixpoint upper (s : string) : string :=
  match s with
  | EmptyString => EmptyString
  | String c s' => String (upper_ascii c) (upper s')
  end.

(** [l and (prefix + sep.join(l))], or the empty string, for a list that
    may be [None]. *)
Definition and_joined (prefix sep : string) (l : option (list string)) : string :=
  match l with
  | Some (x :: l') => prefix +:+ join sep (x :: l')
  | _ => EmptyString
  end.

Definition privmsg (target text : string) : M CW unit :=
  send_raw ("PRIVMSG " +:+ target +:+ " :" +:+ text).

Definition privmsg_many (targets : list string) (text : string) : M CW unit :=
  send_raw ("PRIVMSG " +:+ join "," targets +:+ " :" +:+ text).

(** [ctcp]: the type goes out in upper case, followed by a space and the
    parameter when there is one. *)
Definition ctcp (ctcptype target parameter : string) : M CW unit :=
  let ctcptype := upper ctcptype in
  privmsg target (CTCP_DELIM +:+ ctcptype +:+ and_prefix " " parameter +:+ CTCP_DELIM).

Definition action (target action : string) : M CW unit := ctcp "ACTION" target action.

Definition admin (server : string) : M CW unit :=
  send_raw (strip (join " " ["ADMIN"; server])).

Definition globops (text : string) : M CW unit := send_raw ("GLOBOPS :" +:+ text).

Definition info_ (server : string) : M CW unit :=
  send_raw (strip (join " " ["INFO"; server])).

Definition invite (nick channel : string) : M CW unit :=
  send_raw (strip (join " " ["INVITE"; nick; channel])).

Definition ison (nicks : list string) : M CW unit :=
  send_raw ("ISON " +:+ join " " nicks).

Definition join_ (channel key : string) : M CW unit :=
  send_raw ("JOIN " +:+ channel +:+ and_prefix " " key).

Definition kick (channel nick comment : string) : M CW unit :=
  send_raw ("KICK " +:+ channel +:+ " " +:+ nick +:+ and_prefix " :" comment).

Definition links (remote_server server_mask : string) : M CW unit :=
  let command := "LINKS" in
  let command := if truthy_str remote_server then command +:+ " " +:+ remote_server
                 else command in
  let command := if truthy_str server_mask then command +:+ " " +:+ server_mask
                 else command in
  send_raw command.

Definition list_ (channels : option (list string)) (server : string) : M CW unit :=
  let command := "LIST" in
  let command := match channels with
                 | Some (x :: l) => command +:+ " " +:+ join "," (x :: l)
                 | _ => command
                 end in
  let command := if truthy_str server then command +:+ " " +:+ server else command in
  send_raw command.

Definition lusers (server : string) : M CW unit :=
  send_raw ("LUSERS" +:+ and_prefix " " server).

Definition mode (target command : string) : M CW unit :=
  send_raw ("MODE " +:+ target +:+ " " +:+ command).

Definition motd (server : string) : M CW unit :=
  send_raw ("MOTD" +:+ and_prefix " " server).

Definition names (channels : option (list string)) : M CW unit :=
  send_raw ("NAMES" +:+ and_joined " " "," channels).

Definition oper (nick password : string) : M CW unit :=
  send_raw ("OPER " +:+ nick +:+ " " +:+ password).

(** What [part] may be given for its channels: a [str], a [unicode]
    string, or a list of names. *)
Inductive Channels :=
| StrChannels (s : string)
| UnicodeChannels (s : string)
| ListChannels (l : list string).

(** The characters of a string, as iterating over it yields them. *)
Fixpoint chars (s : string) : list string :=
  match s with
  | EmptyString => []
  | String c s' => String c EmptyString :: chars s'
  end.

(** [part]: only a [str] passes the test [type(channels) ==
    types.StringType]; anything else is joined with commas, a [unicode]
    string character by character. *)
Definition part (channels : Channels) (message : string) : M CW unit :=
  match channels with
  | StrChannels s => send_raw ("PART " +:+ s +:+ and_prefix " " message)
  | UnicodeChannels s => send_raw ("PART " +:+ join "," (chars s) +:+ and_prefix " " message)
  | ListChannels l => send_raw ("PART " +:+ join "," l +:+ and_prefix " " message)
  end.

Definition ping (target target2 : string) : M CW unit :=
  send_raw_instant ("PING " +:+ target +:+ and_prefix " " target2).

Definition squit (server comment : string) : M CW unit :=
  send_raw ("SQUIT " +:+ server +:+ and_prefix " :" comment).

Definition stats (statstype server : string) : M CW unit :=
  send_raw ("STATS " +:+ statstype +:+ and_prefix " " server).

Definition time_ (server : string) : M CW unit :=
  send_raw ("TIME" +:+ and_prefix " " server).

Definition topic (channel : string) (new_topic : option string) : M CW unit :=
  match new_topic with
  | None => send_raw ("TOPIC " +:+ channel)
  | Some t => send_raw ("TOPIC " +:+ channel +:+ " :" +:+ t)
  end.

Definition trace (target : string) : M CW unit :=
  send_raw ("TRACE" +:+ and_prefix " " target).

Definition userhost (nicks : list string) : M CW unit :=
  send_raw ("USERHOST " +:+ join "," nicks).

Definition users (server : string) : M CW unit :=
  send_raw ("USERS" +:+ and_prefix " " server).

Definition version (server : string) : M CW unit :=
  send_raw ("VERSION" +:+ and_prefix " " server).

Definition wallops (text : string) : M CW unit := send_raw ("WALLOPS :" +:+ text).

(** [who]: ["WHO{}{}".format(target and (" " + target), op and (" o"))]. *)
Definition who (target op : string) : M CW unit :=
  send_raw ("WHO" +:+ and_prefix " " target +:+ (if truthy_str op then " o" else op)).

Definition whois (targets : list string) : M CW unit :=
  send_raw ("WHOIS " +:+ join "," targets).

Definition whowas (nick max server : string) : M CW unit :=
  send_raw ("WHOWAS " +:+ nick +:+ and_prefix " " max +:+ and_prefix " " server).

(** A command either raises [ServerNotConnectedError] and changes nothing,
    or puts one line at the end of the queue and does nothing else. *)
Definition queues_one_line (m : M CW unit) : Prop :=
  forall w,
    match socket (conn w) with
    | None => m w = (Raise ServerNotConnectedError, w)
    | Some _ =>
        exists line,
          m w = (Ok tt, mkCW (set_message_queue (message_queue (conn w) ++ [line]) (conn w))
                          (env w))
    end.

End Commands.

(** *** Connecting *)

Module Lifecycle.

Import Connection.

(** The lines [connect] logs on with: PASS when there is a password, then
    NICK and USER. *)
Definition login_lines (a : ConnectInfo) : list string :=
  (if truthy_opt (ci_password a) then ["PASS " +:+ default EmptyString (ci_password a)] else [])
  ++ ["NICK " +:+ ci_nickname a;
      "USER " +:+ opt_or (ci_username a) (ci_nickname a) +:+ " 0 * :"
        +:+ opt_or (ci_ircname a) (ci_nickname a)].

(** The connection as [connect] sets it up before it opens the socket. *)
Definition fresh_connection (a : ConnectInfo) (c : ServerConnection) : ServerConnection :=
  mkConn (irclibobj c) (connected c) (socket c) (ssl c) (message_queue c)
    (sent_bytes c) (send_time c) (last_time c) (_last_ping c) (encoding c)
    ∅ EmptyString ∅ EmptyString (ci_nickname a)
    (mkInfo (ci_server a) (ci_port a) (ci_nickname a) (ci_password a)
       (Some (opt_or (ci_username a) (ci_nickname a)))
       (Some (opt_or (ci_ircname a) (ci_nickname a)))
       (ci_localaddress a) (ci_localport a) (ci_ssl a) (ci_ipv6 a)).

(** The environment once a socket has been handed out. *)
Definition socket_taken (e : Env) : Env :=
  mkEnv (clock e) (tick e) (log e) (S (next_socket e)) (send_fails e)
        (close_fails e) (connect_fails e) (dispatch_raises e).

End Lifecycle.

(** *** Removing a global handler *)

Module IrcObject.

Import Connection.

(** [x == y] on [(priority, handler)] tuples. *)
Definition entry_eqb (x y : Entry) : bool :=
  (fst x =? fst y)%Z && (snd x =? snd y)%nat.

(** [l.remove(x)]: the first element equal to [x] goes. *)
Fixpoint list_remove (x : Entry) (l : list Entry) : list Entry :=
  match l with
  | [] => []
  | y :: l' => if entry_eqb x y then l' else y :: list_remove x l'
  end.

(** [handler == h[1]]. *)
Definition is_of (handler : Callback) (h : Entry) : bool := (handler =? snd h)%nat.

(** The loop [for h in l: if handler == h[1]: l.remove(h)] over the list it
    changes.  The list iterator holds the index [i] of the element it yields
    next and stops when [i] is past the end of the list as it then is; the
    list never grows, so [length l] turns are all the fuel the loop needs. *)
Fixpoint remove_loop (fuel : nat) (handler : Callback) (i : nat) (l : list Entry)
  : list Entry :=
  match fuel with
  | O => l
  | S fuel' =>
      match nth_error l i with
      | None => l
      | Some h =>
          remove_loop fuel' handler (S i)
            (if is_of handler h then list_remove h l else l)
      end
  end.

(** [IRC.remove_global_handler]: the value returned and the table left. *)
Definition remove_global_handler (event : string) (handler : Callback)
           (h : gmap string (list Entry)) : Z * gmap string (list Entry) :=
  match h !! event with
  | None => (0%Z, h)
  | Some l => (1%Z, <[event := remove_loop (length l) handler 0 l]> h)
  end.

(** The entries of a list that are not [handler]'s. *)
Definition others (handler : Callback) (l : list Entry) : list Entry :=
  List.filter (fun x => negb (is_of handler x)) l.

(** No two neighbours in [l] are both entries of [handler]. *)
Fixpoint isolated (handler : Callback) (l : list Entry) : bool :=
  match l with
  | x :: l' =>
      match l' with
      | y :: _ => negb (is_of handler x && is_of handler y)
      | [] => true
      end && isolated handler l'
  | [] => true
  end.

End IrcObject.

(** *** Delayed commands *)

Module Timers.

Import Connection.

Section DelayedCommands.

(** The tuple of arguments a delayed command is called with, and the
    order Python puts two such tuples in. *)
Variable Args : Type.
Variable args_lt : Args -> Args -> bool.

(** An entry [(time, function, arguments)] of [delayed_commands]. *)
Definition Command : Type := Q * Callback * Args.

Definition due_at (c : Command) : Q := c.1.1.
Definition function_of (c : Command) : Callback := c.1.2.
Definition arguments_of (c : Command) : Args := c.2.

(** [x < y] on such tuples: the times decide unless they are equal, then
    the functions, then the arguments. *)
Definition command_lt (x y : Command) : bool :=
  if Qeq_bool (due_at x) (due_at y)
  then if (function_of x =? function_of y)%nat
       then args_lt (arguments_of x) (arguments_of y)
       else (function_of x <? function_of y)%nat
  else negb (Qle_bool (due_at y) (due_at x)).

(** [bisect.insort(a, x)] on a sorted list, by its contract. *)
Fixpoint insort_command (a : list Command) (x : Command) : list Command :=
  match a with
  | [] => [x]
  | y :: a' => if command_lt x y then x :: y :: a' else y :: insort_command a' x
  end.

(** The part of an [IRC] or [Session] object the delayed commands live in:
    the list, whether there is a [fn_to_add_timeout] and the delays it was
    called with, the clock, and the commands that were called. *)
Record TW := mkTW {
  delayed_commands : list Command;
  fn_to_add_timeout : bool;
  timeouts : list Q;
  tclock : nat -> Q;
  ttick : nat;
  ran : list (Callback * Args) }.

Definition set_delayed (v : list Command) (s : TW) : TW :=
  mkTW v (fn_to_add_timeout s) (timeouts s) (tclock s) (ttick s) (ran s).

(** [time.time()]. *)
Definition timer_time : M TW Q :=
  fun s => (Ok (tclock s (ttick s)),
            mkTW (delayed_commands s) (fn_to_add_timeout s) (timeouts s) (tclock s)
                 (S (ttick s)) (ran s)).

(** [Session.execute_delayed]. *)
Definition Session_execute_delayed (delay : Q) (function : Callback) (arguments : Args)
  : M TW unit :=
  now <- timer_time ;;
  modify (fun s => set_delayed
            (insort_command (delayed_commands s) ((delay + now)%Q, function, arguments)) s).

(** [IRC.execute_delayed]: the same, and the external main loop is told
    of the delay when there is one. *)
Definition IRC_execute_delayed (delay : Q) (function : Callback) (arguments : Args)
  : M TW unit :=
  Session_execute_delayed delay function arguments ;;;
  s <- get ;;
  if fn_to_add_timeout s
  then modify (fun s => mkTW (delayed_commands s) (fn_to_add_timeout s)
                          (timeouts s ++ [delay]) (tclock s) (ttick s) (ran s))
  else ret tt.

(** [execute_at], of either class, given its [execute_delayed]. *)
Definition execute_at (execute_delayed : Q -> Callback -> Args -> M TW unit)
           (at_ : Q) (function : Callback) (arguments : Args) : M TW unit :=
  now <- timer_time ;;
  execute_delayed (at_ - now)%Q function arguments.

(** What calling a delayed command does to the object. *)
Variable call : Callback -> Args -> M TW unit.

(** The loop of [process_timeout]: the head of the list is called and
    then deleted, as long as it is due. *)
Fixpoint timeout_loop (fuel : nat) (t : Q) : M TW unit :=
  match fuel with
  | O => out_of_fuel
  | S fuel' =>
      s <- get ;;
      match delayed_commands s with
      | [] => ret tt
      | c :: _ =>
          if Qle_bool (due_at c) t
          then
            modify (fun s => mkTW (delayed_commands s) (fn_to_add_timeout s) (timeouts s)
                               (tclock s) (ttick s)
                               (ran s ++ [(function_of c, arguments_of c)])) ;;;
            call (function_of c) (arguments_of c) ;;;
            s1 <- get ;;
            match delayed_commands s1 with
            | [] => raise IndexError
            | _ :: rest => put (set_delayed rest s1)
            end ;;;
            timeout_loop fuel' t
          else ret tt
      end
  end.

(** [process_timeout], of either class. *)
Definition process_timeout (fuel : nat) : M TW unit :=
  t <- timer_time ;;
  timeout_loop fuel t.

(** The commands of [l] that are due at [t], and the others. *)
Definition due (t : Q) (l : list Command) : list Command :=
  List.filter (fun c => Qle_bool (due_at c) t) l.
Definition pending (t : Q) (l : list Command) : list Command :=
  List.filter (fun c => negb (Qle_bool (due_at c) t)) l.

(** The list is in the order of the times. *)
Definition by_time (l : list Command) : Prop :=
  StronglySorted (fun x y => (due_at x <= due_at y)%Q) l.

(** A command that returns and leaves the list and the record alone. *)
Definition returns_quietly (s : TW) (c : Command) : Prop :=
  exists s', call (function_of c) (arguments_of c) s = (Ok tt, s')
             /\ delayed_commands s' = delayed_commands s /\ ran s' = ran s.

End DelayedCommands.

End Timers.

(** ** The rest of [session.py] *)

Module SessionTables.

Import Connection Session.

(** A computation leaves the connection and the session's settings as
    they are. *)
Definition keeps_server {A} (m : M SW A) : Prop :=
  forall s, cw (snd (m s)) = cw s /\ handle_ctcp (snd (m s)) = handle_ctcp s.

(** The session with its connection replaced. *)
Definition set_cw (w : CW) (s : SW) : SW :=
  mkSW (handle_ctcp s) (ctcp_version s) (ctcp_source s) (Session.handlers s) w (calls s).

(** The text the session answers a CTCP with, for the four it answers. *)
Definition ctcp_answer (s : SW) (strftime_now : string) (argument : list string)
  : option string :=
  match argument with
  | ctcp :: parameters =>
      if String.eqb ctcp "VERSION" then Some ("VERSION " +:+ ctcp_version s)
      else if String.eqb ctcp "PING"
      then match parameters with
           | ping_time :: _ => Some ("PING " +:+ ping_time)
           | [] => None
           end
      else if String.eqb ctcp "TIME" then Some ("TIME " +:+ strftime_now)
      else if String.eqb ctcp "SOURCE" then Some ("SOURCE " +:+ ctcp_source s)
      else None
  | [] => None
  end.

(** [high_level_events], as the module lists it: there is no comma
    between ['ctcpreply'] and ['action'], and Python joins adjacent string
    literals. *)
Definition high_level_events : list string :=
  ["connect"; "text"; "join"; "part"; "kick"; "quit"; "mode"; "umode"; "topic";
   "invite"; "ctcp"; "ctcpreplyaction"; "nick"; "raw"].

(** The low-level event types [from_low_event] has a branch for. *)
Definition translated_types : list string :=
  ["welcome"; "nick"; "pubmsg"; "pubnotice"; "privmsg"; "privnotice"; "ctcp"; "action";
   "ctcpreply"; "quit"; "join"; "part"; "kick"; "invite"; "mode"; "umode"; "topic";
   "currenttopic"; "notopic"; "all_raw_messages"].

End SessionTables.

(** ** More sample worlds *)

Module MoreSamples.

Import Connection Session Sample Timers.

(** The object [Session.server()] hands to its connections: it has no
    [fn_to_add_socket]. *)
Definition session_lib : IrcLibObj := mkLib Unset "utf-8".

(** A connection fresh from [IRC.server()], and one from
    [Session.server()]. *)
Definition down0 : CW := mkCW (ServerConnection_init irc_lib 0 0) env0.
Definition session_down0 : CW := mkCW (ServerConnection_init session_lib 0 0) env0.

(** A world in which no server can be reached. *)
Definition unreachable_env : Env :=
  mkEnv (fun n => inject_Z (Z.of_nat n)) 0 [] 1
        (fun _ => false) false (fun _ _ => true) (fun _ => None).

(** A world in which every write fails. *)
Definition broken_pipe_env : Env :=
  mkEnv (fun n => inject_Z (Z.of_nat n)) 0 [] 1
        (fun _ => true) false (fun _ _ => false) (fun _ => None).

(** The sample connection after a hang-up, one line still queued. *)
Definition hung_up : CW :=
  mkCW (set_message_queue ["PRIVMSG #chan :hello"]
          (set_socket None (set_connected false conn0))) env0.

(** A CTCP VERSION request from Alice, and a CTCP without a word in it. *)
Definition version_request : Event :=
  mkEvent "ctcp" (Some "alice!a@host") (Some "bot") ["VERSION"].
Definition empty_ctcp : Event := mkEvent "ctcp" (Some "alice!a@host") (Some "bot") [].

(** [ERROR :Closing Link] as [process_data] hands it over. *)
Definition error_event : Event := mkEvent "error" None (Some "Closing Link") [].

(** Alice waves in [#chan]. *)
Definition action_event : Event :=
  mkEvent "action" (Some "alice!a@host") (Some "#chan") ["waves"].

(** A registry holding one handler for [JOIN], written in capitals. *)
Definition shouted_registry : gmap string Handler :=
  event_handler (Many ["JOIN"]) (Many []) (Many []) EmptyString EmptyString "bot" "on_join" ∅.

(** A timer object at time zero, its clock a second further at each
    reading, holding the commands [l]. *)
Definition timers0 (l : list (Command (list string))) : TW (list string) :=
  mkTW (list string) l false [] (fun n => inject_Z (Z.of_nat n)) 0 [].

(** Tuples of arguments are compared like lists of strings; the samples
    never get to compare two. *)
Definition no_args_lt (x y : list string) : bool := false.

(** A command that returns, and one that raises. *)
Definition returning (f : Callback) (a : list string) : M (TW (list string)) unit := ret tt.
Definition failing (f : Callback) (a : list string) : M (TW (list string)) unit :=
  raise (AppError 1).

End MoreSamples.

(** * Properties *)

(** ** Value types *)

Module NicknameFacts.

Import Connection Session.

(** C7, as the code has it.  From a hostmask the constructor keeps the
    extracted nick as [name] and the whole hostmask as [host]; for
    [nick!user@host] that is [name = nick], [host = nick!user@host].  In
    [nickname_only] mode it assigns [name] and nothing else: the object has
    no [host] attribute, and reading it raises [AttributeError]. *)
Theorem nickname_init_fields :
  (forall nm_to_n hostmask n,
      nm_to_n (Some hostmask) = Returns n ->
      Nickname_init nm_to_n (Some hostmask) false
      = Ok (mkNickname (Some n) (Bound (Some hostmask))))
  /\ Nickname_init Collaborators.nm_to_n (Some "nick!user@host") false
     = Ok (mkNickname (Some "nick") (Bound (Some "nick!user@host")))
  /\ (forall nm_to_n bare,
         Nickname_init nm_to_n (Some bare) true = Ok (mkNickname (Some bare) Unset))
  /\ (forall nm_to_n bare,
         rbind (Nickname_init nm_to_n (Some bare) true) (fun n => getattr (host n))
         = Raise AttributeError).
Proof.
  repeat split.
  - intros nm_to_n hostmask n Hn. unfold Nickname_init. rewrite Hn. reflexivity.
Qed.

(** C7 as stated fails: after [Nickname("nick", nickname_only=True)] the
    [host] attribute is not [None], it does not exist. *)
Lemma nickname_only_host_is_not_null :
  rbind (Nickname_init Collaborators.nm_to_n (Some "nick") true)
        (fun n => Ok (host n))
  <> Ok (Bound None).
Proof. discriminate. Qed.

End NicknameFacts.

(** ** The global handler table *)

Module HandlerTableFacts.

Import Connection.

Lemma entry_le_spec x y :
  entry_le x y <-> (fst x < fst y)%Z \/ (fst x = fst y /\ (snd x <= snd y)%nat).
Proof.
  unfold entry_le, entry_lt. destruct x as [p h], y as [q k]; simpl.
  destruct (Z.eqb_spec q p) as [->|Hne].
  - rewrite Nat.ltb_ge. lia.
  - rewrite Z.ltb_ge. lia.
Qed.

#[local] Instance entry_le_trans : Transitive entry_le.
Proof. intros x y z. rewrite !entry_le_spec. lia. Qed.

#[local] Instance entry_le_antisymm : AntiSymm (=) entry_le.
Proof.
  intros [p h] [q k]. rewrite !entry_le_spec. simpl. intros H1 H2.
  f_equal; lia.
Qed.

Lemma entry_lt_false_le x y : entry_lt x y = false -> entry_le y x.
Proof. done. Qed.

Lemma entry_lt_true_le x y : entry_lt x y = true -> entry_le x y.
Proof.
  unfold entry_le, entry_lt. destruct x as [p h], y as [q k]; simpl.
  destruct (Z.eqb_spec p q) as [->|Hne].
  - rewrite Z.eqb_refl, Nat.ltb_lt, Nat.ltb_ge. lia.
  - destruct (Z.eqb_spec q p); [congruence|]. rewrite Z.ltb_lt, Z.ltb_ge. lia.
Qed.

Lemma insort_perm a x : insort a x ≡ₚ x :: a.
Proof.
  induction a as [|y a IH]; simpl; [done|].
  destruct (entry_lt x y); [done|].
  rewrite IH. apply Permutation_swap.
Qed.

Lemma insort_sorted a x :
  StronglySorted entry_le a -> StronglySorted entry_le (insort a x).
Proof.
  induction a as [|y a IH]; simpl; intros Hs.
  - repeat constructor.
  - apply StronglySorted_inv in Hs as [Hs Hall].
    destruct (entry_lt x y) eqn:Hlt.
    + constructor; [by constructor|].
      constructor; [by apply entry_lt_true_le|].
      eapply Forall_impl; [exact Hall|].
      intros z Hz. etrans; [by apply entry_lt_true_le|done].
    + constructor; [by apply IH|].
      rewrite insort_perm. constructor; [by apply entry_lt_false_le|done].
Qed.

Lemma get_list_add event handler priority h ev :
  get_list (add_global_handler event handler priority h) ev
  = if decide (event = ev) then insort (get_list h ev) (priority, handler)
    else get_list h ev.
Proof.
  unfold add_global_handler, get_list. rewrite lookup_insert.
  destruct (decide (event = ev)) as [->|]; done.
Qed.

Lemma register_from_sorted regs : forall h ev,
  (forall ev', StronglySorted entry_le (get_list h ev')) ->
  StronglySorted entry_le (get_list (register_from h regs) ev).
Proof.
  induction regs as [|[[e c] p] regs IH]; intros h ev Hh; simpl; [done|].
  apply IH. intros ev'. rewrite get_list_add.
  destruct (decide _); [by apply insort_sorted|done].
Qed.

Lemma register_from_perm regs : forall h ev,
  get_list (register_from h regs) ev ≡ₚ entries_for ev regs ++ get_list h ev.
Proof.
  induction regs as [|[[e c] p] regs IH]; intros h ev; simpl; [done|].
  rewrite IH, get_list_add. unfold entries_for. rewrite filter_cons. simpl.
  destruct (decide (e = ev)) as [->|Hne]; simpl.
  - rewrite insort_perm. by rewrite Permutation_middle.
  - done.
Qed.

Lemma get_list_empty ev : get_list (∅ : gmap string (list Entry)) ev = [].
Proof. unfold get_list. by rewrite lookup_empty. Qed.

Lemma entries_for_perm ev regs regs' :
  regs ≡ₚ regs' -> entries_for ev regs ≡ₚ entries_for ev regs'.
Proof. intros H. unfold entries_for. by rewrite H. Qed.

Lemma priorities_ascending l :
  StronglySorted entry_le l -> StronglySorted Z.le (map fst l).
Proof.
  induction 1 as [|x l Hs IH Hall]; simpl; constructor; [done|].
  apply Forall_fmap. eapply Forall_impl; [exact Hall|].
  intros y Hy. apply entry_le_spec in Hy. simpl. lia.
Qed.

(** C8, as the code has it.  After any run of registrations each handler
    list is in ascending priority order; entries of equal priority stand in
    the order of their callbacks (the tuple comparison of [bisect.insort]
    goes on to the second component), not in the order they were added.  The
    list holds exactly the registered entries, and it is the same for every
    order in which the same registrations are made, so dispatch order is
    determined by the registrations. *)
Theorem global_handler_list_order regs event :
  StronglySorted Z.le (map fst (get_list (register_all regs) event))
  /\ StronglySorted entry_le (get_list (register_all regs) event)
  /\ get_list (register_all regs) event ≡ₚ entries_for event regs
  /\ (forall regs', regs ≡ₚ regs' ->
        get_list (register_all regs') event = get_list (register_all regs) event).
Proof.
  assert (Hs : forall r, StronglySorted entry_le (get_list (register_all r) event)).
  { intros r. apply register_from_sorted. intros ev'. rewrite get_list_empty. constructor. }
  assert (Hp : forall r, get_list (register_all r) event ≡ₚ entries_for event r).
  { intros r. unfold register_all.
    rewrite register_from_perm, get_list_empty. by rewrite app_nil_r. }
  split; [by apply priorities_ascending|].
  split; [done|]. split; [done|].
  intros regs' Hperm.
  apply (StronglySorted_unique entry_le); [done..|].
  rewrite !Hp. symmetry. by apply entries_for_perm.
Qed.

(** C8 as stated fails: two callbacks registered for [ping] at priority 0,
    the one at the higher address first.  The specification's order keeps the
    order of insertion; the table has the lower address first. *)
Lemma equal_priority_not_insertion_order :
  get_list (register_all [("ping", 2%nat, 0%Z); ("ping", 1%nat, 0%Z)]) "ping"
  = [(0%Z, 1%nat); (0%Z, 2%nat)]
  /\ SpecWords.stable_handler_list "ping" [("ping", 2%nat, 0%Z); ("ping", 1%nat, 0%Z)]
     = [(0%Z, 2%nat); (0%Z, 1%nat)]
  /\ get_list (register_all [("ping", 2%nat, 0%Z); ("ping", 1%nat, 0%Z)]) "ping"
     <> SpecWords.stable_handler_list "ping" [("ping", 2%nat, 0%Z); ("ping", 1%nat, 0%Z)].
Proof. split; [|split]; vm_compute; [reflexivity..|discriminate]. Qed.

End HandlerTableFacts.

(** ** The two dispatchers *)

Module DispatchFacts.

Import Connection Sample.

Section Dispatch.

Variable eventtype_call : Event -> Result string.
Variable call_global : Callback -> Event -> Result bool.
Variable call_local : Callback -> Event -> Result unit.

#[local] Abbreviation run_global := (run_global call_global).
#[local] Abbreviation IRC_handle_event := (IRC_handle_event eventtype_call call_global).
#[local] Abbreviation run_local := (run_local call_local).
#[local] Abbreviation own_handlers := (own_handlers eventtype_call call_local).
#[local] Abbreviation ServerConnection_handle_event :=
  (ServerConnection_handle_event eventtype_call call_global call_local).

(** Handlers that return something other than ["NO MORE"] all run, in list
    order, and the loop goes on to what follows them. *)
Lemma run_global_continue pre l e r :
  Forall (fun y => call_global (snd y) e = Ok false) pre ->
  run_global (pre ++ l) e r = run_global l e (r ++ map (ran_global e) pre).
Proof.
  revert r. induction pre as [|y pre IH]; intros r Hpre; simpl.
  - by rewrite app_nil_r.
  - apply Forall_cons in Hpre as [Hy Hpre].
    unfold bind, modify, lift. rewrite Hy. simpl.
    rewrite IH by done. by rewrite <- app_assoc.
Qed.

(** A handler that returns ["NO MORE"] is the last one to run. *)
Lemma run_global_stop x post e r :
  call_global (snd x) e = Ok true ->
  run_global (x :: post) e r = (Ok tt, r ++ [ran_global e x]).
Proof. intros Hx. simpl. unfold bind, modify, lift. by rewrite Hx. Qed.

Lemma run_global_all l e r :
  Forall (fun y => call_global (snd y) e = Ok false) l ->
  run_global l e r = (Ok tt, r ++ map (ran_global e) l).
Proof.
  intros Hl. rewrite <- (app_nil_r l) at 1.
  by rewrite run_global_continue.
Qed.

Lemma run_local_all (fns : list Callback) e r :
  Forall (fun fn => call_local fn e = Ok tt) fns ->
  run_local fns e r = (Ok tt, r ++ map (fun fn => RanLocal fn e) fns).
Proof.
  unfold Connection.run_local.
  revert r. induction fns as [|fn fns IH]; intros r Hf; simpl.
  - by rewrite app_nil_r.
  - apply Forall_cons in Hf as [Hfn Hf].
    unfold bind at 1. unfold bind at 1, modify at 1, lift at 1. rewrite Hfn.
    rewrite (IH (r ++ [RanLocal fn e]) Hf).
    by rewrite <- app_assoc.
Qed.

Lemma own_handlers_all (own : gmap string (list Callback)) e t r :
  eventtype_call e = Ok t ->
  Forall (fun fn => call_local fn e = Ok tt) (get_list own t) ->
  own_handlers own e r = (Ok tt, r ++ map (fun fn => RanLocal fn e) (get_list own t)).
Proof.
  intros Ht Hf. unfold Connection.own_handlers, get_list in *.
  unfold bind at 1, lift at 1. rewrite Ht.
  destruct (own !! t) as [l|] eqn:Hl; simpl in Hf |- *.
  - unfold bind at 1, lift at 1. cbv beta iota.
    unfold bind at 1, lift at 1. rewrite Hl. by apply run_local_all.
  - unfold ret. by rewrite app_nil_r.
Qed.


End Dispatch.




End DispatchFacts.

(** ** Hanging up *)

Module DisconnectFacts.

Import Connection Sample.



End DisconnectFacts.

(** ** The send queue *)

Module SendFacts.

Import Connection Session SpecWords Sample.

Lemma budget_prefix_is_prefix queue : forall counter,
  budget_prefix counter queue ++ drop (length (budget_prefix counter queue)) queue = queue.
Proof.
  induction queue as [|m q IH]; intros counter; simpl; [done|].
  destruct (counter <=? 2500)%Z; simpl; [|done].
  by rewrite IH.
Qed.

(** Before each message of the prefix is sent the counter is within the
    budget. *)
Lemma budget_prefix_within queue : forall counter k,
  (k < length (budget_prefix counter queue))%nat ->
  (counter + total_bytes (take k (budget_prefix counter queue)) <= 2500)%Z.
Proof.
  induction queue as [|m q IH]; intros counter k; simpl; [lia|].
  destruct (counter <=? 2500)%Z eqn:Hc; simpl; [|lia].
  apply Z.leb_le in Hc.
  destruct k as [|k]; simpl; [lia|]. intros Hk.
  specialize (IH (counter + Z.of_nat (String.length m))%Z k). lia.
Qed.

(** The pass leaves messages in the queue only once the counter is over the
    budget. *)
Lemma budget_prefix_exceeds queue : forall counter,
  drop (length (budget_prefix counter queue)) queue <> [] ->
  (2500 < counter + total_bytes (budget_prefix counter queue))%Z.
Proof.
  induction queue as [|m q IH]; intros counter; simpl; [done|].
  destruct (counter <=? 2500)%Z eqn:Hc; simpl.
  - intros Hrest. specialize (IH _ Hrest). lia.
  - apply Z.leb_gt in Hc. lia.
Qed.

(** The [while] loop on a connection whose writes succeed. *)
Lemma send_loop_sends queue : forall fuel c e,
  (length queue < fuel)%nat ->
  is_Some (socket c) ->
  message_queue c = queue ->
  Forall (fun m => send_fails e (m +:+ CRLF) = false) queue ->
  send_loop fuel (mkCW c e)
  = (Ok tt,
     mkCW (set_sent_bytes (sent_bytes c + total_bytes (budget_prefix (sent_bytes c) queue))
             (set_message_queue (drop (length (budget_prefix (sent_bytes c) queue)) queue) c))
          (add_log (map write_of (budget_prefix (sent_bytes c) queue)) e)).
Proof.
  induction queue as [|m q IH]; intros fuel c e Hfuel [s Hs] Hq Hok.
  - destruct fuel; [simpl in Hfuel; lia|].
    destruct c, e; simpl in *; subst.
    cbv -[send_loop String.append CRLF app Z.add Z.leb Z.of_nat String.length].
    rewrite Z.add_0_r, app_nil_r. reflexivity.
  - destruct fuel; [simpl in Hfuel; lia|].
    apply Forall_cons in Hok as [Hm Hok].
    destruct c, e; simpl in *; subst.
    unfold send_loop; fold send_loop.
    cbv -[send_loop String.append CRLF app Z.add Z.leb Z.of_nat String.length
          budget_prefix total_bytes drop length].
    simpl budget_prefix.
    destruct (sent_bytes0 <=? 2500)%Z eqn:Hb.
    + rewrite Hm.
      rewrite IH; simpl; [|lia|eauto|done|done].
      cbv -[String.append CRLF app Z.add Z.leb Z.of_nat String.length
            budget_prefix total_bytes drop length].
      rewrite <- app_assoc. simpl. rewrite Z.add_assoc. reflexivity.
    + simpl. rewrite Z.add_0_r, app_nil_r. reflexivity.
Qed.




End SendFacts.

(** ** The liveness watchdog *)

Module WatchdogFacts.

Import Connection Session Sample.

Lemma ks_ret {A} (a : A) : keeps_stamp (ret a).
Proof. done. Qed.

Lemma ks_raise {A} x : keeps_stamp (@raise CW A x).
Proof. done. Qed.

Lemma ks_fuel {A} : keeps_stamp (@out_of_fuel CW A).
Proof. done. Qed.

Lemma ks_lift {A} (r : Result A) : keeps_stamp (lift r).
Proof. done. Qed.

Lemma ks_get : keeps_stamp (@get CW).
Proof. done. Qed.

Lemma ks_emit x : keeps_stamp (emit x).
Proof. done. Qed.

Lemma ks_new_socket : keeps_stamp new_socket.
Proof. done. Qed.

Lemma ks_on_conn f :
  (forall c, _last_ping (f c) = _last_ping c) -> keeps_stamp (on_conn f).
Proof. intros Hf w. apply Hf. Qed.

Lemma ks_bind {A B} (m : M CW A) (k : A -> M CW B) :
  keeps_stamp m -> (forall a, keeps_stamp (k a)) -> keeps_stamp (bind m k).
Proof.
  intros Hm Hk w. unfold bind. specialize (Hm w).
  destruct (m w) as [[a| |] w1]; simpl in *; [|done..].
  by rewrite Hk.
Qed.

Ltac ks :=
  repeat first
    [ apply ks_ret | apply ks_raise | apply ks_fuel | apply ks_lift | apply ks_get
    | apply ks_emit | apply ks_new_socket
    | apply ks_on_conn; intros; reflexivity
    | apply ks_bind; [|intros]
    | match goal with
      | |- keeps_stamp (if ?b then _ else _) => destruct b
      | |- keeps_stamp (match ?x with _ => _ end) => destruct x
      end ].

Lemma ks_dispatch e : keeps_stamp (dispatch e).
Proof. unfold dispatch. ks. Qed.

Lemma ks_disconnect_fuel fuel : forall message, keeps_stamp (disconnect_fuel fuel message).
Proof.
  induction fuel as [|fuel IH]; intros message; simpl; [apply ks_fuel|].
  unfold quit_with, send_raw_instant_with. ks; try apply IH; apply ks_dispatch.
Qed.

Lemma ks_send_raw s : keeps_stamp (send_raw s).
Proof. unfold send_raw. ks. Qed.

Lemma ks_connect a : keeps_stamp (connect a).
Proof.
  unfold connect, pass_, nick, user.
  ks; try apply ks_send_raw; try apply ks_disconnect_fuel.
Qed.

(** Neither half of [reconnect] assigns [_last_ping]. *)
Lemma reconnect_keeps_last_ping message w :
  _last_ping (conn (snd (reconnect message w))) = _last_ping (conn w).
Proof.
  revert w. change (keeps_stamp (reconnect message)).
  unfold reconnect. ks; try apply ks_disconnect_fuel; try apply ks_connect.
Qed.




End WatchdogFacts.

(** ** The line parser *)

Module ParserFacts.

Import Connection SpecWords Sample.

Section Parser.

Variable nm_to_n : option string -> Outcome string.
Variable is_channel : string -> bool.
Variable _ctcp_dequote : string -> list CtcpPart.
Variable decode : string -> string -> string.

#[local] Abbreviation parse_line := (parse_line nm_to_n is_channel _ctcp_dequote).
#[local] Abbreviation process_line := (process_line nm_to_n is_channel _ctcp_dequote decode).
#[local] Abbreviation other_command := (other_command is_channel).

Lemma ext_ret {A} (a : A) : extends (ret a).
Proof. intros w. exists []. by rewrite app_nil_r. Qed.

Lemma ext_raise {A} x : extends (@raise CW A x).
Proof. intros w. exists []. by rewrite app_nil_r. Qed.

Lemma ext_lift {A} (r : Result A) : extends (lift r).
Proof. intros w. exists []. by rewrite app_nil_r. Qed.

Lemma ext_get : extends (@get CW).
Proof. intros w. exists []. by rewrite app_nil_r. Qed.

Lemma ext_on_conn f : extends (on_conn f).
Proof. intros w. exists []. by rewrite app_nil_r. Qed.

Lemma ext_bind {A B} (m : M CW A) (k : A -> M CW B) :
  extends m -> (forall a, extends (k a)) -> extends (bind m k).
Proof.
  intros Hm Hk w. unfold bind. destruct (Hm w) as [l1 H1].
  destruct (m w) as [[a| |] w1]; simpl in *.
  - destruct (Hk a w1) as [l2 H2]. exists (l1 ++ l2). by rewrite H2, H1, app_assoc.
  - by exists l1.
  - by exists l1.
Qed.

(** What the call [self._handle_event(ev)] leaves behind. *)
Lemma dispatch_eq ev w :
  dispatch ev w
  = (match dispatch_raises (env w) ev with Some x => Raise x | None => Ok tt end,
     mkCW (conn w) (add_log [EDispatch ev] (env w))).
Proof.
  destruct w as [c e]. destruct e. cbv -[app].
  by destruct (dispatch_raises0 _).
Qed.

Lemma ext_dispatch e : extends (dispatch e).
Proof. intros w. exists [EDispatch e]. by rewrite dispatch_eq. Qed.

Ltac ext :=
  repeat first
    [ apply ext_ret | apply ext_raise | apply ext_lift | apply ext_get
    | apply ext_on_conn | apply ext_dispatch
    | apply ext_bind; [|intros]
    | match goal with
      | |- extends (if ?b then _ else _) => destruct b
      | |- extends (match ?x with _ => _ end) => destruct x
      | |- extends (let _ := _ in _) => cbv zeta
      | |- extends sqlite => unfold sqlite
      end ].

Lemma ext_ctcp_loop messages : forall prefix target command,
  extends (ctcp_loop prefix target messages command).
Proof.
  induction messages as [|[m|m] rest IH]; intros prefix target command; simpl.
  - ext.
  - ext. apply IH.
  - ext; apply IH.
Qed.

Lemma ext_other_command prefix command arguments :
  extends (other_command prefix command arguments).
Proof. unfold Connection.other_command. ext. Qed.

Lemma ext_parse_line line : extends (parse_line line).
Proof.
  unfold Connection.parse_line.
  ext; try apply ext_ctcp_loop; try apply ext_other_command.
Qed.

(** A non-empty line: the raw event is handed over first, and the parse
    starts in the world that call leaves. *)
Lemma process_line_eq raw w :
  truthy_str (decode (encoding (conn w)) raw) = true ->
  process_line raw w
  = match dispatch_raises (env w) (raw_event (conn w) (decode (encoding (conn w)) raw)) with
    | Some x =>
        (Raise x,
         mkCW (conn w)
           (add_log [EDispatch (raw_event (conn w) (decode (encoding (conn w)) raw))] (env w)))
    | None =>
        parse_line (decode (encoding (conn w)) raw)
          (mkCW (conn w)
             (add_log [EDispatch (raw_event (conn w) (decode (encoding (conn w)) raw))] (env w)))
    end.
Proof.
  intros Hline. unfold Connection.process_line.
  unfold bind at 1, get at 1. cbv zeta. rewrite Hline. cbn [negb].
  unfold bind. rewrite dispatch_eq. by destruct (dispatch_raises _ _).
Qed.


Ltac split_tracker H :=
  unfold uses_tracker, str_in in H; cbn [existsb] in H;
  repeat (apply orb_true_iff in H; destruct H as [H|H]);
  try discriminate H;
  try (apply andb_true_iff in H; destruct H as [H ?]);
  apply String.eqb_eq in H; subst.

Ltac crunch :=
  repeat (cbn -[split_arguments];
          match goal with
          | |- context [match ?x with _ => _ end] => is_var x; destruct x
          | |- context [truthy_str ?x] => is_var x; destruct x
          | |- context [match nm_to_n ?p with _ => _ end] => destruct (nm_to_n p) eqn:?
          | |- context [if String.eqb ?a ?b then _ else _] =>
              destruct (String.eqb a b) eqn:?
          | |- context [split_arguments ?a] =>
              destruct (split_arguments a) as [|? [|? [|? [|? ?]]]]
          | |- context [if is_channel ?a then _ else _] => destruct (is_channel a)
          | |- context [bool_decide ?P] => destruct (bool_decide P) eqn:?
          end).

Ltac settle :=
  first
    [ exfalso; simpl in *; congruence
    | eexists; eexists; split; [reflexivity|]; split; [reflexivity|];
      let Hr := fresh "Hr" in
      intros Hr;
      first [reflexivity | cbn in Hr; repeat (simplify_eq; cbn in Hr); congruence] ].

(** The parse of a line whose branch goes to the tracker: it raises, having
    handed over no event. *)
Lemma parse_line_tracked line w command :
  parsed_command line = Some command ->
  uses_tracker (featurelist (conn w)) command = true ->
  exists x w',
    parse_line line w = (Raise x, w')
    /\ env w' = env w
    /\ (reads_succeed nm_to_n (real_nickname (conn w)) (parsed_prefix line) command
                      (parsed_arguments line) = true -> x = AttributeError).
Proof.
  unfold parsed_command, parsed_prefix, parsed_arguments, Connection.parse_line.
  destruct (_rfc_1459_command_regexp line) as [[[prefix cmd] argument]|]; [|discriminate].
  intros [= Hc] Ht. cbv zeta. rewrite Hc. clear Hc.
  destruct w as [c e]. destruct c, e. cbn [conn featurelist real_nickname] in *.
  unfold reads_succeed.
  split_tracker Ht.
  all: unfold Connection.other_command, sqlite, bind, lift, get, on_conn, modify, raise, ret, run.
  all: crunch.
  all: settle.
Qed.

(** C10, as the code has it.  A line whose command is one of those the
    claim lists has its [all_raw_messages] event handed over, and then
    [process_data] raises; no other event of the line is handed over, and the
    exception ends the loop over the lines of the read.  When the raw event's
    call returned and the reads that come before the tracker succeeded, the
    exception is the [AttributeError] of the missing [self.sqlite]. *)
Theorem tracker_commands_raise (w : CW) (raw command : string) (later : list string) :
  let line := decode (encoding (conn w)) raw in
  truthy_str line = true ->
  parsed_command line = Some command ->
  uses_tracker (featurelist (conn w)) command = true ->
  exists x w',
    process_line raw w = (Raise x, w')
    /\ log (env w') = log (env w) ++ [EDispatch (raw_event (conn w) line)]
    /\ for_each (raw :: later) process_line w = (Raise x, w')
    /\ (dispatch_raises (env w) (raw_event (conn w) line) = None ->
        reads_succeed nm_to_n (real_nickname (conn w)) (parsed_prefix line) command
                      (parsed_arguments line) = true ->
        x = AttributeError).
Proof.
  cbv zeta. intros Hline Hc Ht.
  assert (H : exists x w',
             process_line raw w = (Raise x, w')
             /\ log (env w') = log (env w)
                               ++ [EDispatch (raw_event (conn w) (decode (encoding (conn w)) raw))]
             /\ (dispatch_raises (env w) (raw_event (conn w) (decode (encoding (conn w)) raw))
                 = None ->
                 reads_succeed nm_to_n (real_nickname (conn w))
                   (parsed_prefix (decode (encoding (conn w)) raw)) command
                   (parsed_arguments (decode (encoding (conn w)) raw)) = true ->
                 x = AttributeError)).
  { rewrite (process_line_eq raw w Hline).
    destruct (dispatch_raises (env w) _) as [x0|].
    - exists x0. eexists. split; [reflexivity|]. split; [reflexivity|]. discriminate.
    - destruct (parse_line_tracked (decode (encoding (conn w)) raw)
                  (mkCW (conn w)
                     (add_log [EDispatch (raw_event (conn w) (decode (encoding (conn w)) raw))]
                        (env w))) command Hc Ht) as (x & w' & Hp & He & Hx).
      exists x, w'. split; [exact Hp|]. split; [by rewrite He|].
      intros _. exact Hx. }
  destruct H as (x & w' & Hp & Hl & Hx).
  exists x, w'. repeat split; try done.
  simpl. unfold bind. by rewrite Hp.
Qed.

End Parser.


(** [tracker_commands_raise] on a JOIN line followed by a PING in the same
    read. *)
Lemma tracker_commands_raise_witness :
  exists w',
    for_each [":alice!a@host JOIN #chan"; "PING :irc.example.org"]
      (process_line Collaborators.nm_to_n Collaborators.is_channel
         Collaborators._ctcp_dequote Collaborators.decode) cw0
    = (Raise AttributeError, w')
    /\ log (env w') = [EDispatch (raw_event conn0 ":alice!a@host JOIN #chan")].
Proof.
  destruct (tracker_commands_raise Collaborators.nm_to_n Collaborators.is_channel
              Collaborators._ctcp_dequote Collaborators.decode cw0
              ":alice!a@host JOIN #chan" "join" ["PING :irc.example.org"]
              eq_refl eq_refl eq_refl) as (x & w' & _ & Hl & Hf & Hx).
  exists w'. split.
  - rewrite Hf. f_equal. f_equal. apply Hx; reflexivity.
  - exact Hl.
Defined.

(** C10 as stated fails: QUIT is one of the listed commands, and a QUIT
    line without an argument raises [TypeError], from [arguments[0]] on
    [None], before the tracker is reached. *)
Lemma quit_without_argument_raises_type_error :
  parsed_command ":alice!a@host QUIT" = Some "quit"
  /\ fst (process_line Collaborators.nm_to_n Collaborators.is_channel
            Collaborators._ctcp_dequote Collaborators.decode ":alice!a@host QUIT" cw0)
     = Raise TypeError.
Proof. split; vm_compute; reflexivity. Qed.

End ParserFacts.

(** ** The high-level layer *)

Module SessionFacts.

Import Connection Session SpecWords Sample.

Section HighLevel.

Variable nm_to_n : option string -> Outcome string.
Variable is_channel : option string -> bool.
Variable _parse_modes : string -> list ModeChange.
Variable hasanymodes : string -> string -> string -> bool.
Variable re_match : string -> string -> bool.
Variable callback_raises : string -> HighEvent -> bool.
Variable strftime_now : string.

#[local] Abbreviation handler_step := (handler_step hasanymodes re_match callback_raises).
#[local] Abbreviation dispatch_high := (dispatch_high hasanymodes re_match callback_raises).
#[local] Abbreviation filters_pass := (filters_pass hasanymodes re_match).
#[local] Abbreviation calls_for := (calls_for callback_raises).
#[local] Abbreviation from_low_event := (from_low_event nm_to_n is_channel _parse_modes).
#[local] Abbreviation translate_and_dispatch :=
  (translate_and_dispatch nm_to_n is_channel _parse_modes hasanymodes re_match callback_raises).
#[local] Abbreviation _handle_event :=
  (_handle_event nm_to_n is_channel _parse_modes hasanymodes re_match callback_raises
     strftime_now).
#[local] Abbreviation single_change := (single_change _parse_modes).
#[local] Abbreviation _ctcp_handler := (_ctcp_handler nm_to_n strftime_now).

Ltac atom b :=
  lazymatch b with
  | andb ?x _ => atom x
  | orb ?x _ => atom x
  | negb ?x => atom x
  | _ => destruct b
  end.

Lemma truthy_lower s : truthy_str (lower s) = truthy_str s.
Proof. by destruct s. Qed.

Lemma handler_step_calls ev entry s :
  (forall n, nickname ev = Some n -> is_Some (name n)) ->
  handler_step ev
    (if truthy_opt (channel ev) then option_map lower (channel ev) else channel ev)
    (lowered_nick ev) entry s
  = (Ok tt, add_calls (calls_for (fun h => filters_pass h ev) ev entry) s).
Proof.
  intros Hname.
  assert (Hch : (if truthy_opt (channel ev) then option_map lower (channel ev) else channel ev)
                = lowered_channel ev).
  { unfold lowered_channel. destruct (channel ev) as [[|]|]; reflexivity. }
  rewrite Hch.
  unfold Session.handler_step, Session.calls_for, SpecWords.filters_pass,
    identity_filters_pass, pattern_passes.
  destruct entry as [fn h]. cbn [fst snd].
  destruct s. unfold add_calls, ret, record, modify, bind. cbn.
  destruct (regex h) as [r|]; cbn.
  all: repeat (match goal with
               | |- context [if ?b then _ else _] => atom b; cbn
               end).
  all: rewrite ?app_nil_r, <- ?app_assoc; try reflexivity.
Qed.

Lemma handler_loop_calls ev (l : list (string * Handler)) : forall s,
  (forall n, nickname ev = Some n -> is_Some (name n)) ->
  for_each l (handler_step ev
    (if truthy_opt (channel ev) then option_map lower (channel ev) else channel ev)
    (lowered_nick ev)) s
  = (Ok tt, add_calls (flat_map (calls_for (fun h => filters_pass h ev) ev) l) s).
Proof.
  induction l as [|entry l IH]; intros s Hname; simpl.
  - destruct s. unfold add_calls, ret. cbn. by rewrite app_nil_r.
  - unfold bind. rewrite handler_step_calls by done. rewrite IH by done.
    destruct s. unfold add_calls. cbn. by rewrite app_assoc.
Qed.


Lemma adds_ret {A} P (a : A) : adds P (ret a).
Proof. intros s. exists []. by rewrite app_nil_r. Qed.

Lemma adds_raise {A} P x : adds P (@raise SW A x).
Proof. intros s. exists []. by rewrite app_nil_r. Qed.

Lemma adds_fuel {A} P : adds P (@out_of_fuel SW A).
Proof. intros s. exists []. by rewrite app_nil_r. Qed.

Lemma adds_lift {A} P (r : Result A) : adds P (lift r).
Proof. intros s. exists []. by rewrite app_nil_r. Qed.

Lemma adds_get P : adds P (@get SW).
Proof. intros s. exists []. by rewrite app_nil_r. Qed.

Lemma adds_on_server {A} P (m : M CW A) : adds P (on_server m).
Proof.
  intros s. exists []. unfold on_server. destruct (m (cw s)). simpl. by rewrite app_nil_r.
Qed.

Lemma adds_record (P : Call -> Prop) c : P c -> adds P (record c).
Proof. intros Hc s. exists [c]. split; [done|]. by constructor. Qed.

Lemma adds_bind {A B} P (m : M SW A) (k : A -> M SW B) :
  adds P m -> (forall a, adds P (k a)) -> adds P (bind m k).
Proof.
  intros Hm Hk s. unfold bind. destruct (Hm s) as (l1 & H1 & HP1).
  destruct (m s) as [[a| |] s1]; simpl in *; [|by exists l1..].
  destruct (Hk a s1) as (l2 & H2 & HP2). exists (l1 ++ l2).
  split; [by rewrite H2, H1, app_assoc|]. by apply Forall_app.
Qed.

Lemma adds_try {A} P (m h : M SW A) catches :
  adds P m -> adds P h -> adds P (try_except m catches h).
Proof.
  intros Hm Hh s. unfold try_except. destruct (Hm s) as (l1 & H1 & HP1).
  destruct (m s) as [[a|x|] s1]; simpl in *; [by exists l1| |by exists l1].
  destruct (catches x); [|by exists l1].
  destruct (Hh s1) as (l2 & H2 & HP2). exists (l1 ++ l2).
  split; [by rewrite H2, H1, app_assoc|]. by apply Forall_app.
Qed.

Lemma adds_for_each {A} P (l : list A) (body : A -> M SW unit) :
  (forall x, adds P (body x)) -> adds P (for_each l body).
Proof.
  intros Hb. induction l as [|x l IH]; simpl; [apply adds_ret|].
  apply adds_bind; [apply Hb|]. intros _. apply IH.
Qed.

Ltac adds_tac :=
  repeat first
    [ apply adds_ret | apply adds_raise | apply adds_fuel | apply adds_lift | apply adds_get
    | apply adds_on_server
    | apply adds_bind; [|intros]
    | apply adds_try
    | match goal with
      | |- adds _ (if ?b then _ else _) => destruct b
      | |- adds _ (match ?x with _ => _ end) => destruct x
      end ].

Lemma adds_handler_step P ev ch nk entry :
  P (Called (fst entry) ev) -> P (LoggedException "Exception in IRC handler") ->
  adds P (handler_step ev ch nk entry).
Proof.
  intros H1 H2. unfold Session.handler_step. adds_tac; by apply adds_record.
Qed.

Lemma adds_dispatch_high P ev :
  (forall fn, P (Called fn ev)) -> P (LoggedException "Exception in IRC handler") ->
  adds P (dispatch_high ev).
Proof.
  intros H1 H2. unfold Session.dispatch_high. adds_tac.
  all: apply adds_for_each; intros entry; by apply adds_handler_step.
Qed.

(** Only the mode branch assigns [modes], and it assigns the list only when
    the event decodes to several changes. *)
Lemma from_low_event_modes e ev :
  from_low_event e = Ok ev ->
  (str_in (eventtype e) ["mode"; "umode"] = true ->
   (length (_parse_modes (join " " (argument e))) <= 1)%nat) ->
  forall l, modes ev <> Bound (ManyModes l).
Proof.
  unfold Session.from_low_event. cbv zeta. intros H Hlen l.
  repeat match type of H with
         | (if ?b then _ else _) = _ => destruct b eqn:?
         end.
  all: repeat match type of H with
         | rbind ?r _ = _ => destruct r; cbn [rbind] in H; try discriminate H
         | (if ?b then _ else _) = _ => destruct b eqn:?
         end.
  all: try (injection H as <-; cbn; discriminate).
  apply Nat.ltb_lt in Heqb12. specialize (Hlen eq_refl). lia.
Qed.

Lemma adds_translate_and_dispatch e :
  (str_in (eventtype e) ["mode"; "umode"] = true ->
   (length (_parse_modes (join " " (argument e))) <= 1)%nat) ->
  adds single_change (translate_and_dispatch e).
Proof.
  intros Hlen. unfold Session.translate_and_dispatch.
  apply adds_bind; [by apply adds_record|]. intros _.
  intros s. unfold bind, lift.
  destruct (from_low_event e) as [ev| |] eqn:Hev;
    [|exists []; by rewrite app_nil_r..].
  apply adds_dispatch_high; [|done].
  intros fn. cbn. by apply (from_low_event_modes e ev).
Qed.

Lemma adds_ctcp_handler P e : adds P (_ctcp_handler e).
Proof. unfold Session._ctcp_handler. adds_tac. Qed.

Lemma handle_event_S fuel event :
  _handle_event (S fuel) event
  = bind (if String.eqb (eventtype event) "ping"
          then _ping_ponger event else ret tt) (fun _ =>
    bind get (fun s =>
    bind (if handle_ctcp s && String.eqb (eventtype event) "ctcp"
          then try_except (_ctcp_handler event) (fun _ => true)
                 (record (LoggedException "Error in CTCP handler"))
          else ret tt) (fun _ =>
    if str_in (eventtype event) ["mode"; "umode"]
    then
      if (1 <? length (_parse_modes (join " " (argument event))))%nat
      then for_each (_parse_modes (join " " (argument event)))
             (fun m => _handle_event fuel (single_mode_event event m))
      else translate_and_dispatch event
    else translate_and_dispatch event))).
Proof. reflexivity. Qed.

Lemma adds_handle_event fuel : forall e, adds single_change (_handle_event fuel e).
Proof.
  induction fuel as [|fuel IH]; intros e; [apply adds_fuel|].
  rewrite handle_event_S.
  apply adds_bind.
  { destruct (String.eqb _ _); [apply adds_on_server|apply adds_ret]. }
  intros _. apply adds_bind; [apply adds_get|]. intros s.
  apply adds_bind.
  { destruct (_ && _); [|apply adds_ret].
    apply adds_try; [apply adds_ctcp_handler|by apply adds_record]. }
  intros _.
  destruct (str_in (eventtype e) ["mode"; "umode"]) eqn:Hm.
  - destruct (1 <? length _)%nat eqn:Hl.
    + apply adds_for_each. intros m. apply IH.
    + apply adds_translate_and_dispatch. intros _. apply Nat.ltb_ge in Hl. lia.
  - apply adds_translate_and_dispatch. intros Ht. congruence.
Qed.

Lemma mode_event_prelude fuel e s :
  str_in (eventtype e) ["mode"; "umode"] = true ->
  _handle_event (S fuel) e s
  = (if (1 <? length (_parse_modes (join " " (argument e))))%nat
     then for_each (_parse_modes (join " " (argument e)))
            (fun m => _handle_event fuel (single_mode_event e m))
     else translate_and_dispatch e) s.
Proof.
  intros Hm. rewrite handle_event_S. rewrite Hm.
  assert (Hp : String.eqb (eventtype e) "ping" = false
               /\ String.eqb (eventtype e) "ctcp" = false).
  { unfold str_in in Hm. cbn [existsb] in Hm.
    apply orb_true_iff in Hm as [Hm|Hm];
      [|apply orb_true_iff in Hm as [Hm|Hm]; [|discriminate]].
    all: apply String.eqb_eq in Hm; rewrite Hm; done. }
  destruct Hp as [Hp1 Hp2]. rewrite Hp1, Hp2.
  unfold bind at 1 2 3, ret, get. cbv beta iota. rewrite andb_false_r. done.
Qed.

Lemma single_mode_event_type e m : eventtype (single_mode_event e m) = eventtype e.
Proof. by destruct m as [[sign mode] param]. Qed.

Lemma for_each_ext {A} (l : list A) (f g : A -> M SW unit) s :
  Forall (fun x => forall s, f x s = g x s) l -> for_each l f s = for_each l g s.
Proof.
  revert s. induction l as [|x l IH]; intros s Hl; [done|].
  apply Forall_cons in Hl as [Hx Hl]. simpl. unfold bind. rewrite Hx.
  destruct (g x s) as [[u| |] s1]; try done. by apply IH.
Qed.

(** C1.  A [mode] or [umode] event whose mode string decodes to more than
    one change is not translated: each change is sent through
    [_handle_event] again as an event of its own, in order, of the same type,
    source and target, with the arguments [[sign+mode, parameter]] (an empty
    string for a missing parameter).  When each of these decodes to one
    change at most, each is translated and dispatched, and two levels of
    recursion are all it takes.  On every run, whatever the event, the
    translator is entered with no mode event that decodes to several changes,
    and no callback is handed an event whose [modes] is a list. *)
Theorem mode_changes_re_emitted (fuel : nat) (event : Event) (s : SW) :
  str_in (eventtype event) ["mode"; "umode"] = true ->
  (1 < length (_parse_modes (join " " (argument event))))%nat ->
  let modes := _parse_modes (join " " (argument event)) in
  _handle_event (S fuel) event s
  = for_each modes (fun m => _handle_event fuel (single_mode_event event m)) s
  /\ (forall sign mode param,
        single_mode_event event (sign, mode, param)
        = mkEvent (eventtype event) (source event) (target event)
                  [sign +:+ mode; default EmptyString param])
  /\ (Forall (fun m => (length (_parse_modes
                                  (join " " (argument (single_mode_event event m)))) <= 1)%nat)
             modes ->
      _handle_event (S (S fuel)) event s
      = for_each modes (fun m => translate_and_dispatch (single_mode_event event m)) s)
  /\ (forall fuel' e' s',
        exists new,
          calls (snd (_handle_event fuel' e' s')) = calls s' ++ new
          /\ Forall single_change new).
Proof.
  intros Hm Hlen. cbv zeta.
  assert (Hfan : forall f,
            _handle_event (S f) event s
            = for_each (_parse_modes (join " " (argument event)))
                (fun m => _handle_event f (single_mode_event event m)) s).
  { intros f. rewrite mode_event_prelude by done.
    apply Nat.ltb_lt in Hlen. by rewrite Hlen. }
  split; [apply Hfan|]. split.
  { intros sign mode [[|]|]; reflexivity. }
  split.
  - intros Hsingle. rewrite Hfan. apply for_each_ext.
    eapply Forall_impl; [exact Hsingle|]. intros m Hle s1. cbv beta in Hle.
    rewrite mode_event_prelude by (by rewrite single_mode_event_type).
    apply Nat.ltb_ge in Hle. by rewrite Hle.
  - intros fuel' e' s'. apply adds_handle_event.
Qed.

End HighLevel.



(** [mode_changes_re_emitted] on [MODE #chan +o-v alice bob]. *)
Lemma mode_changes_re_emitted_witness :
  calls (snd (_handle_event Collaborators.nm_to_n Collaborators.is_channel_opt
                (Collaborators._parse_modes "bklov") (Collaborators.hasanymodes [])
                Collaborators.re_match_literal (fun _ _ => false) sample_time
                2 mode_event (sw0 ∅)))
  = [Translate (mkEvent "mode" (Some "op!o@host") (Some "#chan") ["+o"; "alice"]);
     Translate (mkEvent "mode" (Some "op!o@host") (Some "#chan") ["-v"; "bob"])].
Proof.
  destruct (mode_changes_re_emitted Collaborators.nm_to_n Collaborators.is_channel_opt
              (Collaborators._parse_modes "bklov") (Collaborators.hasanymodes [])
              Collaborators.re_match_literal (fun _ _ => false) sample_time
              0 mode_event (sw0 ∅)) as (_ & _ & H & _).
  - reflexivity.
  - vm_compute. lia.
  - rewrite H.
    + vm_compute. reflexivity.
    + vm_compute. repeat constructor.
Defined.

End SessionFacts.

(** ** Lines *)

Module LineFacts.

Import Connection Lines Commands.

Lemma span_nonspace_app a b :
  no_char " " a = true ->
  span_nonspace (a +:+ String " " b) = (a, String " " b).
Proof.
  induction a as [|c a IH]; cbn [str_all String.append]; intros H.
  - reflexivity.
  - apply andb_prop in H as [Hc Ha].
    simpl. destruct (Ascii.eqb c " "); [discriminate|].
    rewrite (IH Ha). reflexivity.
Qed.

Lemma span_nonspace_all a :
  no_char " " a = true ->
  span_nonspace a = (a, EmptyString).
Proof.
  induction a as [|c a IH]; cbn [str_all]; intros H; [reflexivity|].
  apply andb_prop in H as [Hc Ha].
  simpl. destruct (Ascii.eqb c " "); [discriminate|].
  rewrite (IH Ha). reflexivity.
Qed.

Lemma span_nonspace_first c s :
  Ascii.eqb c " " = false -> truthy_str (fst (span_nonspace (String c s))) = true.
Proof.
  intros H. cbn [span_nonspace]. rewrite H. destruct (span_nonspace s). reflexivity.
Qed.

Lemma match_no_prefix_some c s :
  Ascii.eqb c " " = false -> match_no_prefix (String c s) <> None.
Proof.
  intros H. unfold match_no_prefix.
  pose proof (span_nonspace_first c s H) as Hf.
  destruct (span_nonspace (String c s)) as [a b]. cbn in Hf. rewrite Hf. discriminate.
Qed.

Lemma until_newline_app a b :
  no_char "010" a = true -> until_newline (a +:+ b) = a +:+ until_newline b.
Proof.
  induction a as [|c a IH]; simpl; intros H; [reflexivity|].
  apply andb_prop in H as [Hc Ha]. destruct (Ascii.eqb c "010"); [discriminate|].
  rewrite (IH Ha). reflexivity.
Qed.

Lemma until_newline_id a : no_char "010" a = true -> until_newline a = a.
Proof.
  induction a as [|c a IH]; simpl; intros H; [reflexivity|].
  apply andb_prop in H as [Hc Ha]. destruct (Ascii.eqb c "010"); [discriminate|].
  rewrite (IH Ha). reflexivity.
Qed.

Lemma not_space_not_blank c : is_space c = false -> Ascii.eqb c " " = false.
Proof.
  intros H. destruct (Ascii.eqb c " ") eqn:E; [|reflexivity].
  apply Ascii.eqb_eq in E. subst. discriminate.
Qed.

Lemma not_space_not_newline c : is_space c = false -> Ascii.eqb c "010" = false.
Proof.
  intros H. destruct (Ascii.eqb c "010") eqn:E; [|reflexivity].
  apply Ascii.eqb_eq in E. subst. discriminate.
Qed.

Lemma str_all_impl (p q : ascii -> bool) s :
  (forall c, p c = true -> q c = true) -> str_all p s = true -> str_all q s = true.
Proof.
  intros Hpq. induction s as [|c s IH]; simpl; [done|].
  intros H. apply andb_prop in H as [Hc Hs]. rewrite (Hpq _ Hc), (IH Hs). reflexivity.
Qed.

Lemma word_no_blank s :
  str_all (fun c => negb (is_space c)) s = true -> no_char " " s = true.
Proof.
  apply str_all_impl. intros c H. apply negb_true_iff in H.
  rewrite (not_space_not_blank c H). reflexivity.
Qed.

Lemma word_no_newline s :
  str_all (fun c => negb (is_space c)) s = true -> no_char "010" s = true.
Proof.
  apply str_all_impl. intros c H. apply negb_true_iff in H.
  rewrite (not_space_not_newline c H). reflexivity.
Qed.

Lemma prefix_nil s : String.prefix EmptyString s = true.
Proof. destruct s; reflexivity. Qed.

Lemma split_first_here b : split_first " :" (" :" +:+ b) = Some (EmptyString, b).
Proof.
  change (" :" +:+ b) with (String " " (String ":" b)).
  destruct b; reflexivity.
Qed.

(** [split(" :", 1)] cuts at the colon that follows a word. *)
Lemma split_first_after_word a b :
  no_char " " a = true ->
  split_first " :" (a +:+ " :" +:+ b) = Some (a, b).
Proof.
  induction a as [|c a IH]; intros H.
  - apply split_first_here.
  - simpl in H. apply andb_prop in H as [Hc Ha]. apply negb_true_iff in Hc.
    change (String c a +:+ " :" +:+ b) with (String c (a +:+ " :" +:+ b)).
    cbn [split_first String.prefix].
    destruct (ascii_dec " "%char c) as [E|_]; [subst c; discriminate|].
    rewrite (IH Ha). reflexivity.
Qed.

(** A word is the one word [split()] finds in it. *)
Lemma words_word c s :
  is_space c = false -> str_all (fun c => negb (is_space c)) s = true ->
  words (String c s) = (true, [String c s]).
Proof.
  revert c. induction s as [|d s IH]; intros c Hc H.
  - simpl. rewrite Hc. reflexivity.
  - simpl in H. apply andb_prop in H as [Hd Hs]. apply negb_true_iff in Hd.
    change (words (String c (String d s)))
      with (let '(inw, ws) := words (String d s) in
            if is_space c then (false, ws)
            else if inw then
              (true, match ws with w :: r => String c w :: r | [] => [String c EmptyString] end)
            else (true, String c EmptyString :: ws)).
    rewrite (IH d Hd Hs), Hc. reflexivity.
Qed.

(** What [privmsg] queues reads back as it was meant.  For a target that is
    one ASCII word and does not begin with a colon, and a text without a line
    feed:
    the queued line, when a server relays it with the sender in front, parses
    into that sender as the prefix, the command [privmsg], and the two
    arguments target and text, the text kept as it is, spaces and colons
    included. *)
Theorem privmsg_round_trip (w : CW) (src target text : string) :
  is_Some (socket (conn w)) ->
  truthy_str src = true -> no_char " " src = true ->
  is_word target = true -> String.prefix ":" target = false ->
  no_char "010" text = true ->
  let line := "PRIVMSG " +:+ target +:+ " :" +:+ text in
  privmsg target text w
  = (Ok tt, mkCW (set_message_queue (message_queue (conn w) ++ [line]) (conn w)) (env w))
  /\ parsed_prefix (":" +:+ src +:+ " " +:+ line) = Some src
  /\ parsed_command (":" +:+ src +:+ " " +:+ line) = Some "privmsg"
  /\ parsed_arguments (":" +:+ src +:+ " " +:+ line) = Some [target; text].
Proof.
  intros [sk Hs] Hsrc Hsp Hw Hcolon Htext. cbv zeta.
  split.
  { unfold privmsg, send_raw, bind, get, on_conn, modify. rewrite Hs. reflexivity. }
  apply andb_prop in Hw as [Hne Hword].
  apply (str_all_impl _ (fun c => negb (is_space c))) in Hword;
    [|intros c Hc; apply andb_prop in Hc as [Hc _]; exact Hc].
  destruct target as [|t0 target]; [discriminate|].
  simpl in Hword. apply andb_prop in Hword as [Ht0 Hrest]. apply negb_true_iff in Ht0.
  set (arg := String t0 target +:+ " :" +:+ text).
  assert (Harg : argument_group (String " " arg) = Some (String " " arg)).
  { unfold argument_group, arg.
    change (String t0 target +:+ " :" +:+ text) with (String t0 (target +:+ " :" +:+ text)).
    cbn [span_spaces]. change (Ascii.eqb " " " ") with true. cbv iota.
    rewrite (not_space_not_blank _ Ht0).
    cbn [until_newline]. rewrite (not_space_not_newline _ Ht0).
    rewrite until_newline_app by (apply word_no_newline; exact Hrest).
    change (" :" +:+ text) with (String " " (String ":" text)).
    cbn [until_newline]. change (Ascii.eqb " " "010") with false.
    change (Ascii.eqb ":" "010") with false. cbv iota.
    rewrite (until_newline_id _ Htext). reflexivity. }
  assert (Hm : _rfc_1459_command_regexp
                 (":" +:+ src +:+ " " +:+ "PRIVMSG " +:+ arg)
               = Some (Some src, "PRIVMSG", Some (String " " arg))).
  { change (":" +:+ src +:+ " " +:+ "PRIVMSG " +:+ arg)
      with (String ":" (src +:+ String " " ("PRIVMSG" +:+ String " " arg))).
    unfold _rfc_1459_command_regexp.
    rewrite (span_nonspace_app _ _ Hsp).
    change (span_spaces (String " " ("PRIVMSG" +:+ String " " arg)))
      with (1%nat, "PRIVMSG" +:+ String " " arg).
    cbv iota beta.
    rewrite (span_nonspace_app "PRIVMSG" arg eq_refl).
    rewrite Hsrc, Harg. reflexivity. }
  assert (Hsplit : split_arguments (String " " arg) = [String t0 target; text]).
  { assert (Hcut : split_first " :" (String " " arg)
                   = Some (String " " (String t0 target), text)).
    { unfold arg.
      change (String t0 target +:+ " :" +:+ text) with (String t0 (target +:+ " :" +:+ text)).
      cbn [split_first String.prefix].
      cbn [String.prefix] in Hcolon. rewrite prefix_nil in Hcolon.
      destruct (ascii_dec " " " ") as [_|N]; [|destruct N; reflexivity].
      destruct (ascii_dec ":" t0) as [|_]; [discriminate|].
      destruct (ascii_dec " " t0) as [E|_];
        [subst t0; discriminate|].
      rewrite split_first_after_word by (apply word_no_blank; exact Hrest).
      reflexivity. }
    unfold split_arguments. rewrite Hcut.
    unfold split_ws.
    change (words (String " " (String t0 target)))
      with (let '(inw, ws) := words (String t0 target) in (false, ws)).
    rewrite (words_word t0 target Ht0 Hrest). reflexivity. }
  unfold parsed_prefix, parsed_command, parsed_arguments.
  change (":" +:+ src +:+ " " +:+ "PRIVMSG " +:+ String t0 target +:+ " :" +:+ text)
    with (":" +:+ src +:+ " " +:+ "PRIVMSG " +:+ arg).
  rewrite Hm, Hsplit. repeat split; reflexivity.
Qed.

Lemma line_pattern_fails (line : string) :
  _rfc_1459_command_regexp line = None
  <-> line = EmptyString \/ exists s, line = String " " s.
Proof.
  split.
  - destruct line as [|c s]; [auto|]. intros H. right.
    destruct (Ascii.eqb c " ") eqn:E.
    + apply Ascii.eqb_eq in E. subst. eauto.
    + exfalso. assert (Hm := match_no_prefix_some c s E).
      unfold _rfc_1459_command_regexp in H.
      destruct c as [[] [] [] [] [] [] [] []]; try (apply Hm; exact H).
      destruct (span_nonspace s) as [p r1]. destruct (span_spaces r1) as [k r2].
      destruct (span_nonspace r2) as [c' r3].
      destruct (truthy_str p && (1 <=? k)%nat && truthy_str c'); [discriminate|].
      apply Hm; exact H.
  - intros [-> | [s ->]]; reflexivity.
Qed.

Section Lines.

Variable nm_to_n : option string -> Outcome string.
Variable is_channel : string -> bool.
Variable _ctcp_dequote : string -> list CtcpPart.

#[local] Abbreviation parse_line := (parse_line nm_to_n is_channel _ctcp_dequote).

(** A line that is a command and nothing else (a bare [PING], an [AWAY]
    relayed without a message) makes [process_data] raise [TypeError], from
    subscripting the argument list that is [None]; only the server's name has
    been noted by then, and no event of the line is handed over.  NICK is
    apart: its branch turns to the prefix and the tracker first. *)
Theorem bare_command_raises (w : CW) (line : string) (prefix : option string)
        (command : string) :
  _rfc_1459_command_regexp line = Some (prefix, command, None) ->
  translate_numeric (lower command) <> "nick" ->
  parse_line line w = (Raise TypeError, mkCW (note_prefix prefix (conn w)) (env w)).
Proof.
  intros Hm Hc. unfold Connection.parse_line. rewrite Hm.
  cbv zeta. cbn [option_map].
  destruct (String.eqb_spec (translate_numeric (lower command)) "nick") as [E|_];
    [contradiction|].
  destruct w as [c e].
  assert (Hp : (match prefix with
        | Some p =>
            on_conn
              (fun c0 : ServerConnection =>
               if truthy_str (real_server_name c0) then c0 else set_real_server_name p c0)
        | None => ret tt
        end) (mkCW c e) = (Ok tt, mkCW (note_prefix prefix c) e)).
  { destruct prefix; reflexivity. }
  unfold bind at 1. rewrite Hp.
  unfold other_command.
  destruct (String.eqb (translate_numeric (lower command)) "welcome");
  destruct (str_in (translate_numeric (lower command)) ["privmsg"; "notice"]);
  destruct (String.eqb (translate_numeric (lower command)) "quit");
  destruct (String.eqb (translate_numeric (lower command)) "ping");
  reflexivity.
Qed.



(** A 005 line.  The first argument is the target of the event and not a
    feature; every other argument, the closing sentence included, goes
    through the feature loop before the [featurelist] event is handed over,
    and the event carries them all. *)
Theorem featurelist_line (w : CW) (line : string) (prefix : option string)
        (command argument a0 : string) (rest : list string) :
  _rfc_1459_command_regexp line = Some (prefix, command, Some argument) ->
  translate_numeric (lower command) = "featurelist" ->
  split_arguments argument = a0 :: rest ->
  let c := note_prefix prefix (conn w) in
  parse_line line w
  = dispatch (mkEvent "featurelist" prefix (Some a0) rest)
      (mkCW (set_featurelist (foldl add_feature (featurelist c) rest) c) (env w)).
Proof.
  intros Hm Hc Ha c. unfold Connection.parse_line. rewrite Hm.
  cbv zeta. cbn [option_map]. rewrite Hc, Ha.
  destruct w as [c0 e].
  assert (Hp : (match prefix with
        | Some p =>
            on_conn
              (fun c0 : ServerConnection =>
               if truthy_str (real_server_name c0) then c0 else set_real_server_name p c0)
        | None => ret tt
        end) (mkCW c0 e) = (Ok tt, mkCW (note_prefix prefix c0) e)).
  { destruct prefix; reflexivity. }
  unfold bind at 1. rewrite Hp. reflexivity.
Qed.


(** The event of a line with arguments.  For a command without a branch of
    its own the first argument becomes the target and the others the
    arguments of the event, so a line with one argument gives an event with
    none.  A PING keeps its first argument among the arguments as well; a
    welcome records the first argument as the connection's nickname. *)
Theorem line_events (w : CW) (line : string) (prefix : option string)
        (command argument a0 : string) (rest : list string) :
  _rfc_1459_command_regexp line = Some (prefix, command, Some argument) ->
  split_arguments argument = a0 :: rest ->
  let name := translate_numeric (lower command) in
  let c := note_prefix prefix (conn w) in
  (str_in name special_commands = false ->
   parse_line line w = dispatch (mkEvent name prefix (Some a0) rest) (mkCW c (env w)))
  /\ (name = "ping" ->
      parse_line line w
      = dispatch (mkEvent "ping" prefix (Some a0) (a0 :: rest)) (mkCW c (env w)))
  /\ (name = "welcome" ->
      parse_line line w
      = dispatch (mkEvent "welcome" prefix (Some a0) rest)
          (mkCW (set_real_nickname a0 c) (env w))).
Proof.
  intros Hm Ha name c.
  assert (Hp : forall w0 : CW, (match prefix with
        | Some p =>
            on_conn
              (fun c0 : ServerConnection =>
               if truthy_str (real_server_name c0) then c0 else set_real_server_name p c0)
        | None => ret tt
        end) w0 = (Ok tt, mkCW (note_prefix prefix (conn w0)) (env w0))).
  { intros [c0 e0]. destruct prefix; reflexivity. }
  repeat split.
  - intros Hn. unfold Connection.parse_line. rewrite Hm.
    cbv zeta. cbn [option_map]. rewrite Ha. fold name.
    unfold special_commands, str_in in Hn. cbn [existsb] in Hn.
    repeat (apply orb_false_elim in Hn as [? Hn]).
    unfold bind at 1. rewrite Hp.
    unfold other_command, str_in. cbn [existsb].
    repeat match goal with Hf : String.eqb name _ = false |- _ => rewrite Hf; clear Hf end.
    reflexivity.
  - intros Hn. unfold Connection.parse_line. rewrite Hm.
    cbv zeta. cbn [option_map]. rewrite Ha. fold name. rewrite Hn.
    unfold bind at 1. rewrite Hp. reflexivity.
  - intros Hn. unfold Connection.parse_line. rewrite Hm.
    cbv zeta. cbn [option_map]. rewrite Ha. fold name. rewrite Hn.
    unfold bind at 1. rewrite Hp. reflexivity.
Qed.

End Lines.

Lemma split_on_none c a : no_char c a = true -> split_on c a = [a].
Proof.
  induction a as [|x a IH]; simpl; intros H; [reflexivity|].
  apply andb_prop in H as [Hx Ha]. apply negb_true_iff in Hx. rewrite Hx.
  rewrite (IH Ha). reflexivity.
Qed.

Lemma split_on_app c a b :
  no_char c a = true -> split_on c (a +:+ String c b) = a :: split_on c b.
Proof.
  induction a as [|x a IH]; simpl; intros H.
  - rewrite Ascii.eqb_refl. reflexivity.
  - apply andb_prop in H as [Hx Ha]. apply negb_true_iff in Hx. rewrite Hx.
    rewrite (IH Ha). reflexivity.
Qed.

Lemma add_feature_keeps fl f k : is_Some (fl !! k) -> is_Some (add_feature fl f !! k).
Proof.
  intros H. unfold add_feature.
  destruct (split_on "=" f) as [|x [|y [|z l]]]; try exact H.
  - destruct (decide (x = k)) as [->|N].
    + rewrite lookup_insert_eq. eauto.
    + rewrite lookup_insert_ne by exact N. exact H.
  - destruct (decide (x = k)) as [->|N].
    + rewrite lookup_insert_eq. eauto.
    + rewrite lookup_insert_ne by exact N. exact H.
Qed.

(** The feature loop on one token: [KEY=VALUE] binds the key to the value,
    a bare [KEY] binds it to the empty string, a token with two [=] is
    dropped, and a key once bound stays bound whatever tokens follow. *)
Theorem feature_tokens (fl : gmap string string) (k v v' : string) :
  no_char "=" k = true -> no_char "=" v = true -> no_char "=" v' = true ->
  add_feature fl (k +:+ "=" +:+ v) = <[k := v]> fl
  /\ add_feature fl k = <[k := EmptyString]> fl
  /\ add_feature fl (k +:+ "=" +:+ v +:+ "=" +:+ v') = fl
  /\ (forall l key, is_Some (fl !! key) -> is_Some (foldl add_feature fl l !! key)).
Proof.
  intros Hk Hv Hv'. unfold add_feature. repeat split.
  - change (k +:+ "=" +:+ v) with (k +:+ String "=" v).
    rewrite (split_on_app _ _ _ Hk), (split_on_none _ _ Hv). reflexivity.
  - rewrite (split_on_none _ _ Hk). reflexivity.
  - change (k +:+ "=" +:+ v +:+ "=" +:+ v') with (k +:+ String "=" (v +:+ String "=" v')).
    rewrite (split_on_app _ _ _ Hk), (split_on_app _ _ _ Hv), (split_on_none _ _ Hv').
    reflexivity.
  - intros l. revert fl. induction l as [|f l IH]; intros fl key H; simpl; [exact H|].
    apply IH. apply add_feature_keeps. exact H.
Qed.

Lemma assoc_In k v l : assoc k l = Some v -> In (k, v) l.
Proof.
  induction l as [|[k' v'] l IH]; simpl; [discriminate|].
  destruct (String.eqb_spec k k') as [->|N].
  - intros [= ->]. left. reflexivity.
  - intros H. right. apply IH, H.
Qed.

(** The table of numerics.  Translating twice is translating once (no name
    is itself a numeric of the table), two numerics never share a name, and
    no numeric is given the name of a command [process_data] treats by name
    ([nick], [quit], [join], [part], [kick], [topic], [mode], [privmsg],
    [notice], [ping]). *)
Theorem numeric_names :
  (forall c, translate_numeric (translate_numeric c) = translate_numeric c)
  /\ (forall c c' name,
        assoc c numeric_events = Some name -> assoc c' numeric_events = Some name -> c = c')
  /\ (forall c, str_in (translate_numeric c) word_commands = true ->
                translate_numeric c = c).
Proof.
  assert (Hall : forallb (fun kv : string * string =>
                   match assoc kv.2 numeric_events with None => true | Some _ => false end
                   && negb (str_in kv.2 word_commands)
                   && forallb (fun kv' : string * string =>
                        negb (String.eqb kv.2 kv'.2) || String.eqb kv.1 kv'.1) numeric_events)
                   numeric_events = true) by (vm_compute; reflexivity).
  rewrite forallb_forall in Hall.
  assert (Hkv : forall c v, assoc c numeric_events = Some v ->
            assoc v numeric_events = None
            /\ str_in v word_commands = false
            /\ forall c', assoc c' numeric_events = Some v -> c = c').
  { intros c v E. apply assoc_In in E. apply Hall in E. cbn [fst snd] in E.
    apply andb_prop in E as [E E3]. apply andb_prop in E as [E1 E2].
    repeat split.
    - destruct (assoc v numeric_events); [discriminate|reflexivity].
    - apply negb_true_iff in E2. exact E2.
    - intros c' E'. apply assoc_In in E'. rewrite forallb_forall in E3.
      specialize (E3 _ E'). cbn [fst snd] in E3. rewrite String.eqb_refl in E3.
      apply String.eqb_eq in E3. exact E3. }
  clear Hall. repeat split.
  - intros c. unfold translate_numeric at 2 3.
    destruct (assoc c numeric_events) as [v|] eqn:E.
    + change (default c (Some v)) with v.
      destruct (Hkv _ _ E) as (E1 & _). unfold translate_numeric. rewrite E1. reflexivity.
    + change (default c None) with c. unfold translate_numeric. rewrite E. reflexivity.
  - intros c c' name H H'. destruct (Hkv _ _ H) as (_ & _ & H3). apply H3, H'.
  - intros c. unfold translate_numeric.
    destruct (assoc c numeric_events) as [v|] eqn:E; [|reflexivity].
    change (default c (Some v)) with v. intros H. destruct (Hkv _ _ E) as (_ & E2 & _).
    rewrite H in E2. discriminate.
Qed.

Import Sample.

(** [privmsg_round_trip] on a message from Alice to [#chan]. *)
Lemma privmsg_round_trip_witness :
  parsed_arguments ":alice!a@host PRIVMSG #chan :hello there: all" = Some ["#chan"; "hello there: all"].
Proof.
  destruct (privmsg_round_trip cw0 "alice!a@host" "#chan" "hello there: all"
              (ex_intro _ 0%nat eq_refl) eq_refl eq_refl eq_refl eq_refl eq_refl)
    as (_ & _ & _ & H).
  exact H.
Defined.

(** [bare_command_raises] on a bare [PING]. *)
Lemma bare_command_raises_witness :
  parse_line Collaborators.nm_to_n Collaborators.is_channel Collaborators._ctcp_dequote
    "PING" cw0
  = (Raise TypeError, cw0).
Proof.
  apply (bare_command_raises Collaborators.nm_to_n Collaborators.is_channel
           Collaborators._ctcp_dequote cw0 "PING" None "PING" eq_refl).
  vm_compute. discriminate.
Defined.

(** [featurelist_line] on a 005 line. *)
Lemma featurelist_line_witness :
  let w := snd (parse_line Collaborators.nm_to_n Collaborators.is_channel
                  Collaborators._ctcp_dequote
                  ":irc.example.org 005 bot CHANMODES=b,k,l,imnpst PREFIX=(ov)@+ :are supported"
                  cw0) in
  featurelist (conn w) !! "PREFIX" = Some "(ov)@+"
  /\ featurelist (conn w) !! "are supported" = Some EmptyString
  /\ featurelist (conn w) !! "bot" = None.
Proof.
  cbv zeta.
  pose proof (featurelist_line Collaborators.nm_to_n Collaborators.is_channel
                Collaborators._ctcp_dequote cw0
                ":irc.example.org 005 bot CHANMODES=b,k,l,imnpst PREFIX=(ov)@+ :are supported"
                (Some "irc.example.org") "005"
                " bot CHANMODES=b,k,l,imnpst PREFIX=(ov)@+ :are supported" "bot"
                ["CHANMODES=b,k,l,imnpst"; "PREFIX=(ov)@+"; "are supported"]
                eq_refl eq_refl eq_refl) as H.
  cbv zeta in H. rewrite H. vm_compute. repeat split.
Defined.

(** [feature_tokens] on the PREFIX token. *)
Lemma feature_tokens_witness :
  add_feature ∅ "PREFIX=(ov)@+" !! "PREFIX" = Some "(ov)@+".
Proof.
  destruct (feature_tokens ∅ "PREFIX" "(ov)@+" "x" eq_refl eq_refl eq_refl) as (H & _).
  change "PREFIX=(ov)@+" with ("PREFIX" +:+ "=" +:+ "(ov)@+").
  rewrite H. apply lookup_insert_eq.
Defined.

(** [line_events] on [ERROR :Closing Link]: the event has no argument. *)
Lemma line_events_witness :
  parse_line Collaborators.nm_to_n Collaborators.is_channel Collaborators._ctcp_dequote
    "ERROR :Closing Link" cw0
  = dispatch (mkEvent "error" None (Some "Closing Link") []) cw0.
Proof.
  pose proof (line_events Collaborators.nm_to_n Collaborators.is_channel
                Collaborators._ctcp_dequote cw0 "ERROR :Closing Link" None "ERROR"
                " :Closing Link" "Closing Link" [] eq_refl eq_refl) as H.
  cbv zeta in H. destruct H as (H & _). apply H. reflexivity.
Defined.

End LineFacts.

(** ** Removing a global handler *)

Module RemovalFacts.

Import Connection IrcObject.

Lemma is_of_spec handler (h : Entry) : is_of handler h = true <-> snd h = handler.
Proof. unfold is_of. rewrite Nat.eqb_eq. split; congruence. Qed.

Lemma is_of_own (x : Entry) : is_of (snd x) x = true.
Proof. apply is_of_spec. reflexivity. Qed.

Lemma length_list_remove (x : Entry) (l : list Entry) : (length (list_remove x l) <= length l)%nat.
Proof.
  induction l as [|y l IH]; simpl; [lia|].
  destruct (entry_eqb x y); simpl; lia.
Qed.

Lemma remove_loop_fuel handler k : forall fuel i (l : list Entry),
  (length l <= i + fuel)%nat ->
  remove_loop (fuel + k) handler i l = remove_loop fuel handler i l.
Proof.
  induction fuel as [|fuel IH]; intros i l Hl.
  - cbn [Nat.add remove_loop]. destruct k; [reflexivity|]. cbn [remove_loop].
    rewrite (proj2 (nth_error_None l i)) by lia. reflexivity.
  - cbn [Nat.add remove_loop]. destruct (nth_error l i) as [h|]; [|reflexivity].
    apply IH. destruct (is_of handler h); [pose proof (length_list_remove h l)|]; lia.
Qed.

Lemma others_cons handler (y : Entry) (l : list Entry) :
  others handler (y :: l)
  = if is_of handler y then others handler l else y :: others handler l.
Proof. unfold others. cbn [List.filter]. destruct (is_of handler y); reflexivity. Qed.

Lemma others_app handler (a b : list Entry) : others handler (a ++ b) = others handler a ++ others handler b.
Proof. unfold others. apply List.filter_app. Qed.

Lemma others_length handler (l : list Entry) : (length (others handler l) <= length l)%nat.
Proof.
  induction l as [|y l IH]; [reflexivity|]. rewrite others_cons.
  destruct (is_of handler y); simpl; lia.
Qed.

(** A list that is its own [others] holds no entry of the handler. *)
Lemma others_fixed_cons handler (y : Entry) (l : list Entry) :
  others handler (y :: l) = y :: l -> is_of handler y = false /\ others handler l = l.
Proof.
  rewrite others_cons. destruct (is_of handler y) eqn:E.
  - intros H. exfalso. pose proof (others_length handler l) as Hl.
    rewrite H in Hl. simpl in Hl. lia.
  - intros [= H]. split; [reflexivity|exact H].
Qed.

Lemma others_list_remove handler (x : Entry) (l : list Entry) :
  snd x = handler -> others handler (list_remove x l) = others handler l.
Proof.
  intros Hx. induction l as [|y l IH]; [reflexivity|]. cbn [list_remove].
  destruct (entry_eqb x y) eqn:E.
  - apply andb_prop in E as [_ E]. apply Nat.eqb_eq in E.
    rewrite others_cons. rewrite (proj2 (is_of_spec handler y)) by congruence. reflexivity.
  - rewrite !others_cons, IH. reflexivity.
Qed.

Lemma others_remove_loop handler : forall fuel i (l : list Entry),
  others handler (remove_loop fuel handler i l) = others handler l.
Proof.
  induction fuel as [|fuel IH]; intros i l; [reflexivity|]. cbn [remove_loop].
  destruct (nth_error l i) as [h|]; [|reflexivity]. rewrite IH.
  destruct (is_of handler h) eqn:E; [|reflexivity].
  apply is_of_spec in E. apply others_list_remove. exact E.
Qed.

Lemma list_remove_fresh (x : Entry) (pre suf : list Entry) :
  others (snd x) pre = pre -> list_remove x (pre ++ x :: suf) = pre ++ suf.
Proof.
  induction pre as [|y pre IH]; cbn [app list_remove].
  - intros _. unfold entry_eqb. rewrite Z.eqb_refl, Nat.eqb_refl. reflexivity.
  - intros H. apply others_fixed_cons in H as [E H].
    unfold entry_eqb. unfold is_of in E. rewrite E, andb_false_r.
    rewrite (IH H). reflexivity.
Qed.

Lemma isolated_tail handler (x : Entry) (l : list Entry) : isolated handler (x :: l) = true -> isolated handler l = true.
Proof. cbn [isolated]. intros H. apply andb_prop in H as [_ H]. exact H. Qed.

Lemma remove_loop_isolated handler : forall fuel (suf pre : list Entry),
  (length suf <= fuel)%nat ->
  others handler pre = pre -> isolated handler suf = true ->
  remove_loop fuel handler (length pre) (pre ++ suf) = pre ++ others handler suf.
Proof.
  induction fuel as [|fuel IH]; intros suf pre Hf Hpre Hiso.
  - destruct suf; [|simpl in Hf; lia]. reflexivity.
  - cbn [remove_loop]. destruct suf as [|h suf].
    + rewrite (proj2 (nth_error_None (pre ++ []) (length pre)))
        by (rewrite length_app; simpl; lia).
      reflexivity.
    + rewrite nth_error_app2, Nat.sub_diag by lia. cbn [nth_error].
      destruct (is_of handler h) eqn:E.
      * assert (Hh : snd h = handler) by (apply is_of_spec; exact E).
        rewrite <- Hh in Hpre.
        rewrite (list_remove_fresh h pre suf Hpre). rewrite Hh in Hpre.
        rewrite others_cons, E.
        destruct suf as [|h2 suf].
        { destruct fuel; [reflexivity|]. cbn [remove_loop].
          rewrite (proj2 (nth_error_None (pre ++ []) (S (length pre))))
            by (rewrite length_app; simpl; lia).
          reflexivity. }
        cbn [isolated] in Hiso. rewrite E in Hiso. cbn [andb] in Hiso.
        apply andb_prop in Hiso as [Hh2 Hiso]. apply negb_true_iff in Hh2.
        rewrite others_cons, Hh2.
        replace (S (length pre)) with (length (pre ++ [h2])) by (rewrite length_app; simpl; lia).
        replace (pre ++ h2 :: suf) with ((pre ++ [h2]) ++ suf) by (rewrite <- app_assoc; reflexivity).
        rewrite IH.
        -- rewrite <- app_assoc. reflexivity.
        -- simpl in Hf. lia.
        -- rewrite others_app, Hpre, others_cons, Hh2. reflexivity.
        -- apply andb_prop in Hiso as [_ Hiso]. exact Hiso.
      * rewrite others_cons, E.
        replace (S (length pre)) with (length (pre ++ [h])) by (rewrite length_app; simpl; lia).
        replace (pre ++ h :: suf) with ((pre ++ [h]) ++ suf) by (rewrite <- app_assoc; reflexivity).
        rewrite IH.
        -- rewrite <- app_assoc. reflexivity.
        -- simpl in Hf. lia.
        -- rewrite others_app, Hpre, others_cons, E. reflexivity.
        -- apply (isolated_tail _ _ _ Hiso).
Qed.

Lemma others_id handler (l : list Entry) :
  ~ In handler (map snd l) -> others handler l = l.
Proof.
  induction l as [|y l IH]; [reflexivity|]. cbn [map In]. intros H.
  rewrite others_cons. destruct (is_of handler y) eqn:E.
  - exfalso. apply H. left. apply is_of_spec. exact E.
  - rewrite IH; [reflexivity|]. intros H'. apply H. right. exact H'.
Qed.

Lemma insort_split (l : list Entry) (x : Entry) : exists a b, l = a ++ b /\ insort l x = a ++ x :: b.
Proof.
  induction l as [|y l (a & b & -> & IH)]; cbn [insort].
  - exists [], []. split; reflexivity.
  - destruct (entry_lt x y).
    + exists [], (y :: a ++ b). split; reflexivity.
    + exists (y :: a), b. rewrite IH. split; reflexivity.
Qed.

Lemma isolated_clean handler (l : list Entry) : others handler l = l -> isolated handler l = true.
Proof.
  induction l as [|y l IH]; [reflexivity|]. intros H.
  apply others_fixed_cons in H as [E H]. cbn [isolated]. rewrite E, (IH H).
  destruct l; reflexivity.
Qed.

Lemma isolated_single handler (a : list Entry) (x : Entry) (b : list Entry) :
  others handler (a ++ b) = a ++ b -> isolated handler (a ++ x :: b) = true.
Proof.
  induction a as [|y a IH]; intros H.
  - cbn [app] in *. cbn [isolated]. rewrite (isolated_clean _ _ H).
    destruct b as [|z b]; [reflexivity|].
    apply others_fixed_cons in H as [E _]. rewrite E, andb_false_r. reflexivity.
  - cbn [app] in *. apply others_fixed_cons in H as [E H].
    cbn [isolated]. rewrite (IH H), E.
    destruct (a ++ x :: b); reflexivity.
Qed.

(** [remove_global_handler].  It returns 0 only when the event has no
    list at all, and 1 otherwise, whether the handler was in the list or not.
    The entries of other handlers keep their places.  The handler's own
    entries all go when no two of them are neighbours, and the loop needs no
    more turns than the list is long.  A handler registered once (and not
    registered for the event before) is removed again by one call: the list
    is the one before the registration, the lists of other events are
    untouched. *)
Theorem remove_global_handler_spec (event : string) (handler : Callback)
        (h : gmap string (list Entry)) :
  (h !! event = None -> remove_global_handler event handler h = (0%Z, h))
  /\ (forall l, h !! event = Some l ->
        exists l',
          remove_global_handler event handler h = (1%Z, <[event := l']> h)
          /\ others handler l' = others handler l
          /\ (isolated handler l = true -> l' = others handler l)
          /\ (forall k, remove_loop (length l + k) handler 0 l = l'))
  /\ (forall priority,
        ~ In handler (map snd (get_list h event)) ->
        let h1 := add_global_handler event handler priority h in
        fst (remove_global_handler event handler h1) = 1%Z
        /\ get_list (snd (remove_global_handler event handler h1)) event = get_list h event
        /\ forall event', event' <> event ->
             snd (remove_global_handler event handler h1) !! event' = h !! event').
Proof.
  repeat split.
  - intros H. unfold remove_global_handler. rewrite H. reflexivity.
  - intros l H. exists (remove_loop (length l) handler 0 l). repeat split.
    + unfold remove_global_handler. rewrite H. reflexivity.
    + apply others_remove_loop.
    + intros Hiso. apply (remove_loop_isolated handler (length l) l [] (le_n _) eq_refl Hiso).
    + intros k. apply remove_loop_fuel. lia.
  - unfold remove_global_handler, add_global_handler. rewrite lookup_insert_eq. reflexivity.
  - unfold remove_global_handler, add_global_handler. rewrite lookup_insert_eq.
    cbn [snd]. unfold get_list at 1. rewrite lookup_insert_eq. cbn [default].
    assert (Hx : snd ((priority, handler) : Entry) = handler) by reflexivity.
    revert Hx. generalize ((priority, handler) : Entry). intros x Hx.
    destruct (insort_split (get_list h event) x) as (a & b & Hab & ->).
    assert (Hclean : others handler (a ++ b) = a ++ b) by (rewrite <- Hab; apply others_id, H).
    pose proof (remove_loop_isolated handler _ (a ++ x :: b) [] (le_n _)
                  eq_refl (isolated_single _ _ _ _ Hclean)) as Hloop.
    cbn [app length] in Hloop. unfold id. rewrite Hloop.
    rewrite others_app, others_cons. rewrite <- Hx at 2. rewrite is_of_own.
    rewrite <- others_app, Hclean. symmetry. exact Hab.
  - intros event' Hne. unfold remove_global_handler, add_global_handler.
    rewrite lookup_insert_eq. cbn [snd]. rewrite !lookup_insert_ne by congruence. reflexivity.
Qed.

(** Two registrations of one handler at one priority: the removal takes
    the first and steps over the second. *)
(** The loop removes from the list it walks, so the entry after a removed
    one is stepped over: of two registrations of one handler at one priority
    for an event, one survives the removal. *)
Theorem remove_steps_over_neighbour (event : string) (handler : Callback) (priority : Z)
        (h : gmap string (list Entry)) :
  h !! event = None ->
  let h2 := add_global_handler event handler priority
              (add_global_handler event handler priority h) in
  get_list h2 event = [(priority, handler); (priority, handler)]
  /\ get_list (snd (remove_global_handler event handler h2)) event = [(priority, handler)].
Proof.
  intros H.
  unfold add_global_handler, get_list, remove_global_handler.
  rewrite H. rewrite !lookup_insert_eq. unfold id. cbn [default insort].
  unfold entry_lt. cbn [fst snd]. rewrite Z.eqb_refl, Nat.ltb_irrefl.
  rewrite lookup_insert_eq. split; [reflexivity|].
  cbn [default length remove_loop nth_error]. unfold is_of. cbn [snd].
  rewrite Nat.eqb_refl.
  cbn [list_remove]. unfold entry_eqb. cbn [fst snd]. rewrite Z.eqb_refl, Nat.eqb_refl.
  reflexivity.
Qed.

(** [remove_steps_over_neighbour] on a handler registered twice for
    [ping]. *)
Lemma remove_steps_over_neighbour_witness :
  get_list (snd (remove_global_handler "ping" 7%nat
                   (add_global_handler "ping" 7%nat 0
                      (add_global_handler "ping" 7%nat 0 ∅)))) "ping"
  = [(0%Z, 7%nat)].
Proof.
  pose proof (remove_steps_over_neighbour "ping" 7%nat 0 ∅ eq_refl) as H.
  cbv zeta in H. destruct H as (_ & H). exact H.
Defined.

End RemovalFacts.

(** ** Delayed commands *)

Module TimerFacts.

Import Connection Timers.

Section Facts.

Variable Args : Type.
Variable args_lt : Args -> Args -> bool.
Variable call : Callback -> Args -> M (TW Args) unit.

#[local] Abbreviation Command := (Command Args).
#[local] Abbreviation insort_command := (insort_command Args args_lt).
#[local] Abbreviation by_time := (by_time Args).

Lemma command_lt_false (x y : Command) :
  command_lt Args args_lt x y = false -> (due_at Args y <= due_at Args x)%Q.
Proof.
  unfold command_lt. destruct (Qeq_bool (due_at Args x) (due_at Args y)) eqn:E.
  - intros _. apply Qeq_bool_iff in E. rewrite E. apply Qle_refl.
  - intros H. apply negb_false_iff in H. apply Qle_bool_iff in H. exact H.
Qed.

Lemma command_lt_true (x y : Command) :
  command_lt Args args_lt x y = true -> (due_at Args x <= due_at Args y)%Q.
Proof.
  unfold command_lt. destruct (Qeq_bool (due_at Args x) (due_at Args y)) eqn:E.
  - intros _. apply Qeq_bool_iff in E. rewrite E. apply Qle_refl.
  - intros H. apply negb_true_iff in H.
    destruct (Qlt_le_dec (due_at Args x) (due_at Args y)) as [Hlt|Hle].
    + apply Qlt_le_weak, Hlt.
    + apply Qle_bool_iff in Hle. congruence.
Qed.

Lemma insort_command_perm (l : list Command) (x : Command) :
  insort_command l x ≡ₚ x :: l.
Proof.
  induction l as [|y l IH]; cbn [Timers.insort_command]; [reflexivity|].
  destruct (command_lt Args args_lt x y); [reflexivity|].
  rewrite IH. apply Permutation_swap.
Qed.

Lemma insort_command_by_time (l : list Command) (x : Command) :
  by_time l -> by_time (insort_command l x).
Proof.
  unfold Timers.by_time.
  induction l as [|y l IH]; cbn [Timers.insort_command]; intros Hs.
  - repeat constructor.
  - destruct (command_lt Args args_lt x y) eqn:E.
    + apply command_lt_true in E. constructor; [exact Hs|].
      apply StronglySorted_inv in Hs as [_ Hy].
      constructor; [exact E|].
      eapply Forall_impl; [exact Hy|]. cbv beta. intros z Hz.
      eapply Qle_trans; [exact E|exact Hz].
    + apply command_lt_false in E.
      apply StronglySorted_inv in Hs as [Hl Hy].
      constructor; [apply IH, Hl|].
      rewrite insort_command_perm. constructor; [exact E|exact Hy].
Qed.


(** [execute_delayed] reads the clock once, files the command under
    [delay + now] and keeps the list in the order of the times; nothing is
    lost from the list.  The [IRC] version also hands the delay to
    [fn_to_add_timeout] when there is one; the [Session] version never
    does. *)
Theorem execute_delayed_schedules (s : TW Args) (delay : Q) (function : Callback)
        (arguments : Args) :
  by_time (delayed_commands Args s) ->
  let x : Command := ((delay + tclock Args s (ttick Args s))%Q, function, arguments) in
  let l' := insort_command (delayed_commands Args s) x in
  Session_execute_delayed Args args_lt delay function arguments s
  = (Ok tt, mkTW Args l' (fn_to_add_timeout Args s) (timeouts Args s) (tclock Args s)
              (S (ttick Args s)) (ran Args s))
  /\ IRC_execute_delayed Args args_lt delay function arguments s
     = (Ok tt, mkTW Args l' (fn_to_add_timeout Args s)
                 (if fn_to_add_timeout Args s then timeouts Args s ++ [delay]
                  else timeouts Args s)
                 (tclock Args s) (S (ttick Args s)) (ran Args s))
  /\ l' ≡ₚ x :: delayed_commands Args s
  /\ by_time l'.
Proof.
  intros Hs x l'. repeat split.
  - unfold IRC_execute_delayed, Session_execute_delayed, bind, timer_time, modify, get, ret.
    cbn. destruct (fn_to_add_timeout Args s); reflexivity.
  - apply insort_command_perm.
  - apply insort_command_by_time, Hs.
Qed.


(** The loop on a list in the order of the times, whose due commands
    return quietly. *)
Lemma timeout_loop_due (t : Q) : forall (l : list Command) (fuel : nat) (s : TW Args),
  delayed_commands Args s = l -> by_time l ->
  (forall s' c, In c (due Args t l) -> returns_quietly Args call s' c) ->
  (length l < fuel)%nat ->
  exists s', timeout_loop Args call fuel t s = (Ok tt, s')
    /\ delayed_commands Args s' = pending Args t l
    /\ ran Args s'
       = ran Args s ++ map (fun c => (function_of Args c, arguments_of Args c)) (due Args t l).
Proof.
  induction l as [|c l IH]; intros fuel s Hl Hs Hq Hf.
  - destruct fuel; [simpl in Hf; lia|]. exists s.
    cbn [Timers.timeout_loop]. unfold bind, get. rewrite Hl. cbn.
    rewrite app_nil_r. split; [reflexivity|]. split; reflexivity.
  - destruct fuel as [|fuel]; [simpl in Hf; lia|].
    cbn [Timers.timeout_loop]. unfold bind at 1, get at 1. rewrite Hl.
    unfold due, pending. cbn [List.filter].
    destruct (Qle_bool (due_at Args c) t) eqn:E.
    + cbn [negb map].
      set (s1 := mkTW Args (delayed_commands Args s) (fn_to_add_timeout Args s)
                   (timeouts Args s) (tclock Args s) (ttick Args s)
                   (ran Args s ++ [(function_of Args c, arguments_of Args c)])).
      destruct (Hq s1 c) as (s2 & Hcall & Hd & Hr).
      { unfold due. cbn [List.filter]. rewrite E. left. reflexivity. }
      unfold bind at 1, modify at 1. fold s1.
      unfold bind at 1. rewrite Hcall.
      unfold bind at 1, get at 1.
      assert (Hd2 : delayed_commands Args s2 = c :: l) by (rewrite Hd; exact Hl).
      rewrite Hd2. unfold bind at 1, put at 1.
      destruct (IH fuel (set_delayed Args l s2)) as (s3 & Hrun & Hd3 & Hr3).
      * reflexivity.
      * apply StronglySorted_inv in Hs as [Hs _]. exact Hs.
      * intros s' c' Hin. apply Hq. unfold due. cbn [List.filter]. rewrite E.
        right. exact Hin.
      * simpl in Hf. lia.
      * exists s3. split; [exact Hrun|]. split; [exact Hd3|].
        rewrite Hr3. cbn [ran set_delayed]. rewrite Hr. unfold s1. cbn [ran].
        rewrite <- app_assoc. reflexivity.
    + cbn [negb]. exists s. split; [reflexivity|].
      assert (Hnone : forall c', In c' l -> Qle_bool (due_at Args c') t = false).
      { intros c' Hin. apply StronglySorted_inv in Hs as [_ Hall].
        rewrite Forall_forall in Hall. specialize (Hall c' (proj2 (list_elem_of_In _ _) Hin)).
        destruct (Qle_bool (due_at Args c') t) eqn:E'; [|reflexivity].
        apply Qle_bool_iff in E'.
        assert (Hc : Qle_bool (due_at Args c) t = true)
          by (apply Qle_bool_iff; eapply Qle_trans; [exact Hall|exact E']).
        congruence. }
      assert (Hp : List.filter (fun c0 : Command => negb (Qle_bool (due_at Args c0) t)) l = l
               /\ List.filter (fun c0 : Command => Qle_bool (due_at Args c0) t) l = []).
      { clear -Hnone. induction l as [|c' l IHl]; [split; reflexivity|].
        cbn [List.filter]. rewrite (Hnone c' (or_introl eq_refl)). cbn [negb].
        destruct IHl as [-> ->]; [|split; reflexivity].
        intros c'' Hin. apply Hnone. right. exact Hin. }
      destruct Hp as [-> ->]. cbn [map]. rewrite app_nil_r. split; [exact Hl|reflexivity].
Qed.

(** [process_timeout] on a list in the order of the times, when the
    commands that are due return and leave the list alone: it reads the
    clock once, calls exactly the commands due at that reading, in the order
    of the list, and leaves exactly the others, each of them due later. *)
Theorem process_timeout_runs_due (s : TW Args) (fuel : nat) :
  by_time (delayed_commands Args s) ->
  let t := tclock Args s (ttick Args s) in
  let l := delayed_commands Args s in
  (forall s' c, In c (due Args t l) -> returns_quietly Args call s' c) ->
  (length l < fuel)%nat ->
  exists s', process_timeout Args call fuel s = (Ok tt, s')
    /\ delayed_commands Args s' = pending Args t l
    /\ ran Args s'
       = ran Args s ++ map (fun c => (function_of Args c, arguments_of Args c)) (due Args t l)
    /\ Forall (fun c => (due_at Args c <= t)%Q) (due Args t l)
    /\ Forall (fun c => (t < due_at Args c)%Q) (pending Args t l).
Proof.
  intros Hs t l Hq Hf. unfold process_timeout, bind at 1, timer_time at 1.
  destruct (timeout_loop_due t l fuel
              (mkTW Args (delayed_commands Args s) (fn_to_add_timeout Args s)
                 (timeouts Args s) (tclock Args s) (S (ttick Args s)) (ran Args s)))
    as (s' & Hrun & Hd & Hr); [reflexivity|exact Hs|exact Hq|exact Hf|].
  exists s'. split; [exact Hrun|]. split; [exact Hd|]. split; [exact Hr|].
  split.
  - unfold due. apply List.Forall_forall. intros c Hin. apply List.filter_In in Hin as [_ H].
    apply Qle_bool_iff, H.
  - unfold pending. apply List.Forall_forall. intros c Hin. apply List.filter_In in Hin as [_ H].
    apply negb_true_iff in H. apply Qnot_le_lt. intros Hle.
    apply Qle_bool_iff in Hle. congruence.
Qed.

(** A command is deleted only after its call has returned.  When the call
    of the first command raises, [process_timeout] raises with it and the
    command is still first in the list: the next [process_timeout] calls it
    again and raises again, and the commands behind it are never reached. *)
Theorem raising_command_stays (s : TW Args) (fuel : nat) (c : Command)
        (rest : list Command) (x : exn) :
  delayed_commands Args s = c :: rest ->
  (due_at Args c <= tclock Args s (ttick Args s))%Q ->
  (forall s1, delayed_commands Args s1 = c :: rest ->
     exists s2, call (function_of Args c) (arguments_of Args c) s1 = (Raise x, s2)
                /\ delayed_commands Args s2 = c :: rest
                /\ tclock Args s2 = tclock Args s1 /\ ttick Args s2 = ttick Args s1
                /\ exists more, ran Args s2 = ran Args s1 ++ more) ->
  exists s', process_timeout Args call (S fuel) s = (Raise x, s')
    /\ delayed_commands Args s' = c :: rest
    /\ (exists more, ran Args s'
          = ran Args s ++ (function_of Args c, arguments_of Args c) :: more)
    /\ ((tclock Args s (ttick Args s) <= tclock Args s' (ttick Args s'))%Q ->
        exists s'', process_timeout Args call (S fuel) s' = (Raise x, s'')
          /\ delayed_commands Args s'' = c :: rest).
Proof.
  intros Hl Hdue Hcall.
  assert (Hstep : forall s0, delayed_commands Args s0 = c :: rest ->
            (due_at Args c <= tclock Args s0 (ttick Args s0))%Q ->
            exists s', process_timeout Args call (S fuel) s0 = (Raise x, s')
              /\ delayed_commands Args s' = c :: rest
              /\ tclock Args s' = tclock Args s0 /\ ttick Args s' = S (ttick Args s0)
              /\ exists more, ran Args s'
                   = ran Args s0 ++ (function_of Args c, arguments_of Args c) :: more).
  { intros s0 Hl0 Hdue0.
    unfold process_timeout, bind at 1, timer_time at 1.
    cbn [Timers.timeout_loop]. unfold bind at 1, get at 1.
    cbn [delayed_commands]. rewrite Hl0.
    apply Qle_bool_iff in Hdue0. rewrite Hdue0.
    set (s1 := mkTW Args (c :: rest) (fn_to_add_timeout Args s0)
                 (timeouts Args s0) (tclock Args s0) (S (ttick Args s0))
                 (ran Args s0 ++ [(function_of Args c, arguments_of Args c)])).
    destruct (Hcall s1) as (s2 & Hc & Hd & Hk & Ht & more & Hr); [reflexivity|].
    unfold bind at 1, modify at 1. cbn [delayed_commands fn_to_add_timeout timeouts tclock ttick ran].
    fold s1.
    unfold bind at 1. rewrite Hc. exists s2. split; [reflexivity|].
    split; [exact Hd|]. split; [rewrite Hk; reflexivity|]. split; [rewrite Ht; reflexivity|].
    exists more. rewrite Hr. unfold s1. cbn [ran]. rewrite <- app_assoc. reflexivity. }
  destruct (Hstep s Hl Hdue) as (s' & Hrun & Hd & Hk & Ht & Hr).
  exists s'. split; [exact Hrun|]. split; [exact Hd|]. split; [exact Hr|].
  intros Hlater. destruct (Hstep s' Hd) as (s'' & Hrun' & Hd' & _).
  { eapply Qle_trans; [exact Hdue|exact Hlater]. }
  exists s''. split; [exact Hrun'|exact Hd'].
Qed.

End Facts.

Import MoreSamples.

(** [execute_delayed_schedules]: a command five seconds from now. *)
Lemma execute_delayed_schedules_witness :
  delayed_commands _ (snd (Session_execute_delayed _ no_args_lt 5 1%nat [] (timers0 [])))
  = [(5%Q, 1%nat, [])].
Proof.
  pose proof (execute_delayed_schedules (list string) no_args_lt (timers0 []) 5 1%nat []
                (SSorted_nil _)) as H.
  cbv zeta in H. destruct H as (H & _). rewrite H. vm_compute. reflexivity.
Defined.


(** [process_timeout_runs_due]: of a command due now and one due in five
    seconds, the first is called and the second stays. *)
Lemma process_timeout_runs_due_witness :
  let s := timers0 [(0%Q, 1%nat, ["a"]); (5%Q, 2%nat, ["b"])] in
  ran _ (snd (process_timeout _ returning 3 s)) = [(1%nat, ["a"])]
  /\ delayed_commands _ (snd (process_timeout _ returning 3 s)) = [(5%Q, 2%nat, ["b"])].
Proof.
  cbv zeta.
  assert (Hsorted : by_time _ (delayed_commands _
                       (timers0 [(0%Q, 1%nat, ["a"]); (5%Q, 2%nat, ["b"])]))).
  { repeat constructor. vm_compute. discriminate. }
  assert (Hquiet : forall s1 c,
             In c (due _ (tclock _ (timers0 [(0%Q, 1%nat, ["a"]); (5%Q, 2%nat, ["b"])])
                            (ttick _ (timers0 [(0%Q, 1%nat, ["a"]); (5%Q, 2%nat, ["b"])])))
                     (delayed_commands _
                        (timers0 [(0%Q, 1%nat, ["a"]); (5%Q, 2%nat, ["b"])]))) ->
             returns_quietly _ returning s1 c).
  { intros s1 c _. exists s1. repeat split. }
  assert (Hfuel : (length (delayed_commands _
                     (timers0 [(0%Q, 1%nat, ["a"]); (5%Q, 2%nat, ["b"])])) < 3)%nat)
    by (simpl; lia).
  pose proof (process_timeout_runs_due (list string) returning
                (timers0 [(0%Q, 1%nat, ["a"]); (5%Q, 2%nat, ["b"])]) 3
                Hsorted Hquiet Hfuel) as H.
  cbv zeta in H. destruct H as (s' & H & Hd & Hr & _).
  rewrite H. cbn [snd]. rewrite Hd, Hr. split; reflexivity.
Defined.

(** [raising_command_stays]: a command that raises is still first in the
    list. *)
Lemma raising_command_stays_witness :
  let s := timers0 [(0%Q, 1%nat, ["a"]); (0%Q, 2%nat, ["b"])] in
  fst (process_timeout _ failing 1 s) = Raise (AppError 1)
  /\ delayed_commands _ (snd (process_timeout _ failing 1 s))
     = [(0%Q, 1%nat, ["a"]); (0%Q, 2%nat, ["b"])].
Proof.
  cbv zeta.
  assert (Hdue : (due_at _ (0%Q, 1%nat, ["a"])
                  <= tclock _ (timers0 [(0%Q, 1%nat, ["a"]); (0%Q, 2%nat, ["b"])])
                       (ttick _ (timers0 [(0%Q, 1%nat, ["a"]); (0%Q, 2%nat, ["b"])])))%Q)
    by (vm_compute; discriminate).
  assert (Hraise : forall s1 : TW (list string),
            delayed_commands _ s1 = [(0%Q, 1%nat, ["a"]); (0%Q, 2%nat, ["b"])] ->
            exists s2,
              failing (function_of _ (0%Q, 1%nat, ["a"])) (arguments_of _ (0%Q, 1%nat, ["a"])) s1
              = (Raise (AppError 1), s2)
              /\ delayed_commands _ s2 = [(0%Q, 1%nat, ["a"]); (0%Q, 2%nat, ["b"])]
              /\ tclock _ s2 = tclock _ s1 /\ ttick _ s2 = ttick _ s1
              /\ exists more, ran _ s2 = ran _ s1 ++ more).
  { intros s1 H1. exists s1. repeat split; try assumption.
    exists []. symmetry. apply app_nil_r. }
  destruct (raising_command_stays (list string) failing
              (timers0 [(0%Q, 1%nat, ["a"]); (0%Q, 2%nat, ["b"])]) 0
              (0%Q, 1%nat, ["a"]) [(0%Q, 2%nat, ["b"])] (AppError 1) eq_refl Hdue Hraise)
    as (s' & H & Hd & _).
  rewrite H. split; [reflexivity|exact Hd].
Defined.

End TimerFacts.

(** ** Connecting, reconnecting, writing *)

Module LifecycleFacts.

Import Connection Session Lifecycle Commands.

(** [connect] on a connection that is down, when the socket connects:
    the parameters are stored, the per-server state (features, buffer,
    handlers, server name) is reset, the socket is opened and registered
    with the main loop when there is a [fn_to_add_socket], and the login
    lines (PASS if there is a password, NICK, USER) are put on the queue,
    behind whatever the queue still held.  Nothing is written yet. *)
Theorem connect_logs_in (w : CW) (a : ConnectInfo) (notify : bool) :
  connected (conn w) = false ->
  fn_to_add_socket (irclibobj (conn w)) = Bound notify ->
  connect_fails (env w) (ci_server a) (ci_port a) = false ->
  let c := fresh_connection a (conn w) in
  connect a w
  = (Ok tt,
     mkCW (set_message_queue (message_queue (conn w) ++ login_lines a)
             (set_connected true
                ((if ci_ssl a then set_ssl true else id)
                   (set_socket (Some (next_socket (env w))) c))))
          (add_log (EOpen (ci_server a) (ci_port a) :: if notify then [EAddSocket] else [])
             (socket_taken (env w)))).
Proof.
  destruct w as [c e]. destruct c, e, a. destruct irclibobj0 as [fa le].
  cbn [conn env connected irclibobj fn_to_add_socket connect_fails ci_server ci_port].
  intros -> -> Hf. cbv zeta.
  unfold connect, fresh_connection, login_lines, socket_taken, add_log.
  cbv -[String.append app opt_or truthy_opt default].
  rewrite Hf.
  destruct ci_ssl0, notify, (truthy_opt ci_password0);
    cbv -[String.append app opt_or default];
    rewrite <- ?app_assoc; reflexivity.
Qed.

(** A [Session] has no [fn_to_add_socket].  On a connection created by a
    [Session], [connect] opens the socket, marks the connection connected and
    then raises [AttributeError]: no login line is queued. *)
Theorem connect_under_session (w : CW) (a : ConnectInfo) :
  connected (conn w) = false ->
  fn_to_add_socket (irclibobj (conn w)) = Unset ->
  connect_fails (env w) (ci_server a) (ci_port a) = false ->
  connect a w
  = (Raise AttributeError,
     mkCW (set_connected true
             ((if ci_ssl a then set_ssl true else id)
                (set_socket (Some (next_socket (env w))) (fresh_connection a (conn w)))))
          (add_log [EOpen (ci_server a) (ci_port a)] (socket_taken (env w)))).
Proof.
  destruct w as [c e]. destruct c, e, a. destruct irclibobj0 as [fa le].
  cbn [conn env connected irclibobj fn_to_add_socket connect_fails ci_server ci_port].
  intros -> -> Hf.
  unfold connect, fresh_connection, socket_taken, add_log.
  cbv -[String.append app opt_or truthy_opt default].
  rewrite Hf.
  destruct ci_ssl0; reflexivity.
Qed.

(** When the socket does not connect, [connect] closes it, leaves the
    connection without a socket and raises [ServerConnectionError]; the
    parameters are stored all the same, so that [reconnect] tries the same
    server again. *)
Theorem connect_failure (w : CW) (a : ConnectInfo) :
  connected (conn w) = false ->
  connect_fails (env w) (ci_server a) (ci_port a) = true ->
  connect a w
  = (Raise ServerConnectionError,
     mkCW (set_socket None (fresh_connection a (conn w)))
          (add_log [EOpen (ci_server a) (ci_port a); EClose] (socket_taken (env w)))).
Proof.
  destruct w as [c e]. destruct c, e, a.
  cbn [conn env connected connect_fails ci_server ci_port].
  intros -> Hf.
  unfold connect, fresh_connection, socket_taken, add_log.
  cbv -[String.append app opt_or truthy_opt default].
  rewrite Hf. cbv -[String.append app opt_or truthy_opt default].
  rewrite <- app_assoc. reflexivity.
Qed.

(** What [disconnect] does to a connection that is up. *)
Lemma disconnect_result (w : CW) (message : string) (sk : nat) :
  connected (conn w) = true ->
  socket (conn w) = Some sk ->
  disconnect message w
  = (match dispatch_raises (env w)
             (mkEvent "disconnect" (Some (server (conn w))) (Some EmptyString) [message])
     with Some x => Raise x | None => Ok tt end,
     mkCW (set_socket None (set_connected false (conn w)))
          (add_log [EWrite ("QUIT" +:+ and_prefix " :" message +:+ CRLF); EClose;
                    EDispatch (mkEvent "disconnect" (Some (server (conn w)))
                                 (Some EmptyString) [message])] (env w))).
Proof.
  destruct w as [c e]. destruct c, e. simpl. intros -> ->.
  cbv -[String.append and_prefix CRLF app].
  destruct (send_fails0 _); destruct (dispatch_raises0 _);
    rewrite <- ?app_assoc; reflexivity.
Qed.



(** A connection that has lost its socket with lines still queued.  A send
    pass takes the first line off the queue, [send_raw_instant] raises
    [ServerNotConnectedError], which [send_once] does not catch (it catches
    [AttributeError]): the pass raises, the line is gone, the byte counter is
    not advanced, and nothing is written. *)
Theorem send_without_socket (w : CW) (lt : Q) (m : string) (rest : list string)
        (fuel : nat) :
  last_time (conn w) = Some lt ->
  socket (conn w) = None ->
  message_queue (conn w) = m :: rest ->
  let now := clock (env w) (tick (env w)) in
  let now' := clock (env w) (S (tick (env w))) in
  let window := (send_time (conn w) + (now - lt))%Q in
  let reset := Qle_bool 1.3 window in
  let counter := if reset then 0%Z else sent_bytes (conn w) in
  (counter <= 2500)%Z ->
  send_once_conn (S fuel) w
  = (Raise ServerNotConnectedError,
     mkCW (set_message_queue rest
             (set_sent_bytes counter
                (set_send_time (if reset then 0%Q else window)
                   (set_last_time (Some now') (conn w)))))
          (add_ticks 2 (env w))).
Proof.
  destruct w as [c e]. destruct c, e; simpl. intros -> -> -> Hc.
  unfold send_once_conn.
  cbv -[send_loop String.append CRLF app Z.add Z.leb Z.of_nat String.length
        Qle_bool Qplus Qminus].
  destruct (Qle_bool 1.3 _) eqn:Hreset.
  - cbv -[String.append CRLF app Z.add Z.leb Z.of_nat String.length Qle_bool Qplus Qminus].
    reflexivity.
  - apply Z.leb_le in Hc.
    cbv -[String.append CRLF app Z.add Z.leb Z.of_nat String.length Qle_bool Qplus Qminus].
    rewrite Hc. reflexivity.
Qed.


Lemma instant_write_succeeds (w : CW) (line : string) :
  is_Some (socket (conn w)) ->
  send_fails (env w) (line +:+ CRLF) = false ->
  send_raw_instant line w
  = (Ok tt, mkCW (conn w) (add_log [EWrite (line +:+ CRLF)] (env w))).
Proof.
  destruct w as [c e]. destruct c, e. cbn [conn env socket send_fails].
  intros [sk ->] Hf.
  unfold send_raw_instant, send_raw_instant_with, bind, get, emit, modify, add_log.
  cbn. rewrite Hf. reflexivity.
Qed.

Lemma instant_write_fails (w : CW) (line : string) (sk : nat) :
  connected (conn w) = true ->
  socket (conn w) = Some sk ->
  send_fails (env w) (line +:+ CRLF) = true ->
  let ev := mkEvent "disconnect" (Some (server (conn w))) (Some EmptyString)
              ["Connection reset by peer."] in
  send_raw_instant line w
  = (match dispatch_raises (env w) ev with Some x => Raise x | None => Ok tt end,
     mkCW (set_socket None (set_connected false (conn w)))
          (add_log [EWrite (line +:+ CRLF);
                    EWrite ("QUIT" +:+ and_prefix " :" "Connection reset by peer." +:+ CRLF);
                    EClose; EDispatch ev] (env w))).
Proof.
  intros Hc Hs Hf ev.
  unfold send_raw_instant, send_raw_instant_with. unfold bind at 1, get at 1.
  rewrite Hs. unfold bind at 1.
  assert (He : emit (EWrite (line +:+ CRLF)) w
               = (Ok tt, mkCW (conn w) (add_log [EWrite (line +:+ CRLF)] (env w)))).
  { destruct w as [c e]. destruct e. reflexivity. }
  rewrite He, Hf.
  match goal with |- context [disconnect ?m ?W] =>
    rewrite (disconnect_result W m sk Hc Hs) end.
  destruct w as [c e]. destruct c, e. unfold add_log. cbn. rewrite <- app_assoc. reflexivity.
Qed.

(** [send_raw_instant], which [ping], [pong] and [quit] send through.  A
    write that succeeds goes out at once and leaves the queue, the byte
    counter and the window as they were.  A write that fails hangs the
    connection up: QUIT is attempted, the socket closed and set to [None],
    and one [disconnect] event with the message [Connection reset by peer.]
    handed over. *)
Theorem instant_write (w : CW) (line a b : string) (sk : nat) :
  socket (conn w) = Some sk ->
  let ev := mkEvent "disconnect" (Some (server (conn w))) (Some EmptyString)
              ["Connection reset by peer."] in
  (send_fails (env w) (line +:+ CRLF) = false ->
   send_raw_instant line w
   = (Ok tt, mkCW (conn w) (add_log [EWrite (line +:+ CRLF)] (env w))))
  /\ (connected (conn w) = true -> send_fails (env w) (line +:+ CRLF) = true ->
      send_raw_instant line w
      = (match dispatch_raises (env w) ev with Some x => Raise x | None => Ok tt end,
         mkCW (set_socket None (set_connected false (conn w)))
              (add_log [EWrite (line +:+ CRLF);
                        EWrite ("QUIT" +:+ and_prefix " :" "Connection reset by peer."
                                  +:+ CRLF);
                        EClose; EDispatch ev] (env w))))
  /\ ping a b = send_raw_instant ("PING " +:+ a +:+ and_prefix " " b)
  /\ pong a = send_raw_instant ("PONG " +:+ a)
  /\ quit a = send_raw_instant ("QUIT" +:+ and_prefix " :" a).
Proof.
  intros Hs ev. split; [|split; [|repeat split]].
  - intros Hf. apply instant_write_succeeds; eauto.
  - intros Hc Hf. apply (instant_write_fails w line sk Hc Hs Hf).
Qed.

Import Sample MoreSamples.

(** [connect_logs_in] on a connection fresh from [IRC.server()]. *)
Lemma connect_logs_in_witness :
  message_queue (conn (snd (connect info0 down0))) = ["NICK bot"; "USER bot 0 * :bot"]
  /\ log (env (snd (connect info0 down0))) = [EOpen "irc.example.org" 6667].
Proof.
  pose proof (connect_logs_in down0 info0 false eq_refl eq_refl eq_refl) as H.
  cbv zeta in H. rewrite H. split; reflexivity.
Defined.

(** [connect_under_session] on a connection fresh from
    [Session.server()]. *)
Lemma connect_under_session_witness :
  fst (connect info0 session_down0) = Raise AttributeError
  /\ connected (conn (snd (connect info0 session_down0))) = true
  /\ message_queue (conn (snd (connect info0 session_down0))) = [].
Proof.
  rewrite (connect_under_session session_down0 info0 eq_refl eq_refl eq_refl).
  repeat split.
Defined.

(** [connect_failure] where no server can be reached. *)
Lemma connect_failure_witness :
  let w := mkCW (conn down0) unreachable_env in
  fst (connect info0 w) = Raise ServerConnectionError
  /\ socket (conn (snd (connect info0 w))) = None
  /\ server (conn (snd (connect info0 w))) = "irc.example.org".
Proof.
  cbv zeta.
  rewrite (connect_failure (mkCW (conn down0) unreachable_env) info0 eq_refl eq_refl).
  repeat split.
Defined.


(** [send_without_socket] on the connection that was hung up. *)
Lemma send_without_socket_witness :
  fst (send_once_conn 1 hung_up) = Raise ServerNotConnectedError
  /\ message_queue (conn (snd (send_once_conn 1 hung_up))) = []
  /\ log (env (snd (send_once_conn 1 hung_up))) = [].
Proof.
  pose proof (send_without_socket hung_up 0%Q "PRIVMSG #chan :hello" [] 0
                eq_refl eq_refl eq_refl) as H.
  cbv zeta in H. rewrite H; [repeat split|]. vm_compute. discriminate.
Defined.

(** [instant_write] where every write fails. *)
Lemma instant_write_witness :
  let w := mkCW conn0 broken_pipe_env in
  socket (conn (snd (send_raw_instant "PING x" w))) = None
  /\ dispatched (log (env (snd (send_raw_instant "PING x" w))))
     = [mkEvent "disconnect" (Some "irc.example.org") (Some EmptyString)
          ["Connection reset by peer."]].
Proof.
  cbv zeta.
  pose proof (instant_write (mkCW conn0 broken_pipe_env) "PING x" "x" EmptyString 0%nat
                eq_refl) as H.
  cbv zeta in H. destruct H as (_ & H & _).
  rewrite (H eq_refl eq_refl). split; reflexivity.
Defined.

End LifecycleFacts.

(** ** The commands *)

Module CommandFacts.

Import Connection Commands.

Lemma send_raw_queues line : queues_one_line (send_raw line).
Proof.
  intros [c e]. unfold send_raw, bind, get, on_conn, modify. cbn [conn env].
  destruct (socket c); [|reflexivity]. exists line. reflexivity.
Qed.



Lemma join_chars_length s :
  String.length (join "," (chars s)) = (2 * String.length s - 1)%nat.
Proof.
  induction s as [|c s IH]; [reflexivity|].
  destruct s as [|d s]; [reflexivity|].
  change (chars (String c (String d s)))
    with (String c EmptyString :: chars (String d s)).
  change (chars (String d s)) with (String d EmptyString :: chars s) in *.
  cbn [join]. cbn [join] in IH.
  change (String c EmptyString +:+ "," +:+ ?x) with (String c (String "," x)).
  cbn [String.length]. rewrite IH. cbn [String.length]. lia.
Qed.


Import Sample.


End CommandFacts.

(** ** The session and its connection *)

Module SessionMoreFacts.

Import Connection Session SessionTables.

Section Server.

Variable nm_to_n : option string -> Outcome string.
Variable is_channel : option string -> bool.
Variable _parse_modes : string -> list ModeChange.
Variable hasanymodes : string -> string -> string -> bool.
Variable re_match : string -> string -> bool.
Variable callback_raises : string -> HighEvent -> bool.
Variable strftime_now : string.

#[local] Abbreviation handler_step := (handler_step hasanymodes re_match callback_raises).
#[local] Abbreviation dispatch_high := (dispatch_high hasanymodes re_match callback_raises).
#[local] Abbreviation from_low_event := (from_low_event nm_to_n is_channel _parse_modes).
#[local] Abbreviation translate_and_dispatch :=
  (translate_and_dispatch nm_to_n is_channel _parse_modes hasanymodes re_match callback_raises).
#[local] Abbreviation _handle_event :=
  (_handle_event nm_to_n is_channel _parse_modes hasanymodes re_match callback_raises
     strftime_now).
#[local] Abbreviation _ctcp_handler := (_ctcp_handler nm_to_n strftime_now).

Lemma keeps_ret {A} (a : A) : keeps_server (ret a).
Proof. intros s. split; reflexivity. Qed.

Lemma keeps_raise {A} x : keeps_server (@raise SW A x).
Proof. intros s. split; reflexivity. Qed.

Lemma keeps_fuel {A} : keeps_server (@out_of_fuel SW A).
Proof. intros s. split; reflexivity. Qed.

Lemma keeps_lift {A} (r : Result A) : keeps_server (lift r).
Proof. intros s. split; reflexivity. Qed.

Lemma keeps_get : keeps_server (@get SW).
Proof. intros s. split; reflexivity. Qed.

Lemma keeps_record c : keeps_server (record c).
Proof. intros s. split; reflexivity. Qed.

Lemma keeps_bind {A B} (m : M SW A) (k : A -> M SW B) :
  keeps_server m -> (forall a, keeps_server (k a)) -> keeps_server (bind m k).
Proof.
  intros Hm Hk s. unfold bind. destruct (Hm s) as [H1 H2].
  destruct (m s) as [[a| |] s1]; cbn [snd] in *; [|split; assumption..].
  destruct (Hk a s1) as [H3 H4]. split; congruence.
Qed.

Lemma keeps_for_each {A} (l : list A) (body : A -> M SW unit) :
  (forall x, keeps_server (body x)) -> keeps_server (for_each l body).
Proof.
  intros Hb. induction l as [|x l IH]; cbn [for_each]; [apply keeps_ret|].
  apply keeps_bind; [apply Hb|]. intros _. apply IH.
Qed.

Ltac keeps :=
  repeat first
    [ apply keeps_ret | apply keeps_raise | apply keeps_fuel | apply keeps_lift
    | apply keeps_get | apply keeps_record
    | apply keeps_bind; [|intros]
    | match goal with
      | |- keeps_server (if ?b then _ else _) => destruct b
      | |- keeps_server (match ?x with _ => _ end) => destruct x
      end ].

Lemma keeps_handler_step ev ch nk entry : keeps_server (handler_step ev ch nk entry).
Proof. unfold Session.handler_step. keeps. Qed.

Lemma keeps_dispatch_high ev : keeps_server (dispatch_high ev).
Proof.
  unfold Session.dispatch_high. keeps.
  apply keeps_for_each. intros x. apply keeps_handler_step.
Qed.

Lemma keeps_translate_and_dispatch e : keeps_server (translate_and_dispatch e).
Proof.
  unfold Session.translate_and_dispatch.
  apply keeps_bind; [apply keeps_record|]. intros _.
  apply keeps_bind; [apply keeps_lift|]. intros high_event.
  apply keeps_dispatch_high.
Qed.

Lemma handle_event_unfold fuel event :
  _handle_event (S fuel) event
  = bind (if String.eqb (eventtype event) "ping"
          then _ping_ponger event else ret tt) (fun _ =>
    bind get (fun s =>
    bind (if handle_ctcp s && String.eqb (eventtype event) "ctcp"
          then try_except (_ctcp_handler event) (fun _ => true)
                 (record (LoggedException "Error in CTCP handler"))
          else ret tt) (fun _ =>
    if str_in (eventtype event) ["mode"; "umode"]
    then
      if (1 <? length (_parse_modes (join " " (argument event))))%nat
      then for_each (_parse_modes (join " " (argument event)))
             (fun m => _handle_event fuel (single_mode_event event m))
      else translate_and_dispatch event
    else translate_and_dispatch event))).
Proof. reflexivity. Qed.

Lemma single_mode_event_eventtype e m : eventtype (single_mode_event e m) = eventtype e.
Proof. destruct m as [[sign mode] param]. reflexivity. Qed.

Lemma keeps_handle_event_plain fuel : forall e,
  String.eqb (eventtype e) "ping" = false ->
  String.eqb (eventtype e) "ctcp" = false ->
  keeps_server (_handle_event fuel e).
Proof.
  induction fuel as [|fuel IH]; intros e Hp Hc; [apply keeps_fuel|].
  rewrite handle_event_unfold, Hp, Hc.
  apply keeps_bind; [apply keeps_ret|]. intros _.
  apply keeps_bind; [apply keeps_get|]. intros s.
  rewrite andb_false_r.
  apply keeps_bind; [apply keeps_ret|]. intros _.
  destruct (str_in _ _); [|apply keeps_translate_and_dispatch].
  destruct (_ <? _)%nat; [|apply keeps_translate_and_dispatch].
  apply keeps_for_each. intros m. apply IH; rewrite single_mode_event_eventtype; assumption.
Qed.

(** [Session._handle_event] itself acts on the connection for two events
    only: a [ping], and a [ctcp] when CTCP handling is on.  For every other
    event, whether the callbacks return or raise, the connection, its queue
    and its record of effects are after the call what they were before it
    (what a callback does with the connection on its own is not part of
    [_handle_event]). *)
Theorem session_leaves_connection (fuel : nat) (e : Event) (s : SW) :
  eventtype e <> "ping" ->
  handle_ctcp s = false \/ eventtype e <> "ctcp" ->
  cw (snd (_handle_event fuel e s)) = cw s.
Proof.
  intros Hp Hc. apply String.eqb_neq in Hp.
  destruct (String.eqb (eventtype e) "ctcp") eqn:E.
  - destruct Hc as [Hc|Hc]; [|apply String.eqb_neq in Hc; congruence].
    destruct fuel as [|fuel]; [reflexivity|].
    rewrite handle_event_unfold, Hp.
    apply String.eqb_eq in E. rewrite E. cbn [String.eqb str_in existsb orb].
    unfold bind at 1, ret at 1. unfold bind at 1, get at 1. rewrite Hc. cbn [andb].
    unfold bind at 1, ret at 1.
    change (mkEvent _ _ _ _) with e.
    apply keeps_translate_and_dispatch.
  - apply keeps_handle_event_plain; assumption.
Qed.


(** A [ping] event.  On a connection with a socket the session stamps the
    connection with the time, writes [PONG <target>] at once (not through
    the queue) and goes on to translate the event; the connection is then
    left as it is.  On a connection without a socket the stamp is set and
    [ServerNotConnectedError] leaves [_handle_event]. *)
Theorem ping_is_answered (fuel : nat) (e : Event) (s : SW) :
  eventtype e = "ping" ->
  let w := cw s in
  let now := clock (env w) (tick (env w)) in
  let pong_line := "PONG " +:+ format_opt (target e) +:+ CRLF in
  let stamped := mkCW (set_last_ping (Some now) (conn w)) (add_ticks 1 (env w)) in
  let answered := mkCW (conn stamped) (add_log [EWrite pong_line] (env stamped)) in
  (is_Some (socket (conn w)) -> send_fails (env w) pong_line = false ->
     _handle_event (S fuel) e s = translate_and_dispatch e (set_cw answered s)
     /\ cw (snd (_handle_event (S fuel) e s)) = answered)
  /\ (socket (conn w) = None ->
      _handle_event (S fuel) e s = (Raise ServerNotConnectedError, set_cw stamped s)).
Proof.
  intros Ht. cbv zeta. split.
  - intros [sk Hs] Hf.
    assert (H : _handle_event (S fuel) e s
                = translate_and_dispatch e
                    (set_cw (mkCW (set_last_ping (Some (clock (env (cw s)) (tick (env (cw s)))))
                                     (conn (cw s)))
                               (add_log [EWrite ("PONG " +:+ format_opt (target e) +:+ CRLF)]
                                  (add_ticks 1 (env (cw s))))) s)).
    { rewrite handle_event_unfold, Ht. cbn [String.eqb Ascii.eqb Bool.eqb str_in existsb orb].
      unfold bind at 1.
      assert (Hp : _ping_ponger e s
                   = (Ok tt, set_cw (mkCW (set_last_ping (Some (clock (env (cw s)) (tick (env (cw s)))))
                                     (conn (cw s)))
                               (add_log [EWrite ("PONG " +:+ format_opt (target e) +:+ CRLF)]
                                  (add_ticks 1 (env (cw s))))) s)).
      { destruct s as [hc cv cs hs [c en] cl]. destruct c, en. cbn in Hs, Hf. subst.
        unfold _ping_ponger, on_server, pong, send_raw_instant, send_raw_instant_with.
        cbv -[String.append format_opt CRLF app target].
        change (("PONG " +:+ format_opt (target e)) +:+ CRLF)
          with ("PONG " +:+ format_opt (target e) +:+ CRLF).
        rewrite Hf. reflexivity. }
      rewrite Hp. unfold bind at 1, get at 1.
      rewrite andb_false_r. unfold bind at 1, ret at 1. reflexivity. }
    split; [exact H|]. rewrite H.
    destruct (keeps_translate_and_dispatch e
                (set_cw (mkCW (set_last_ping (Some (clock (env (cw s)) (tick (env (cw s)))))
                                 (conn (cw s)))
                           (add_log [EWrite ("PONG " +:+ format_opt (target e) +:+ CRLF)]
                              (add_ticks 1 (env (cw s))))) s)) as [Hk _].
    rewrite Hk. reflexivity.
  - intros Hs. rewrite handle_event_unfold, Ht.
    cbn [String.eqb Ascii.eqb Bool.eqb]. unfold bind at 1.
    destruct s as [hc cv cs hs [c en] cl]. destruct c, en. cbn in Hs. subst. reflexivity.
Qed.


(** The name the reply goes to. *)
Lemma ctcp_handler_answers (e : Event) (s : SW) (src requester text : string) :
  source e = Some src ->
  (if char_in "!" src then nm_to_n (Some src) else Returns src) = Returns requester ->
  is_Some (socket (conn (cw s))) ->
  ctcp_answer s strftime_now (argument e) = Some text ->
  _ctcp_handler e s
  = (Ok tt,
     set_cw (mkCW (set_message_queue
                     (message_queue (conn (cw s))
                      ++ ["NOTICE " +:+ requester +:+ " :" +:+ CTCP_DELIM +:+ text
                            +:+ CTCP_DELIM])
                     (conn (cw s)))
                  (env (cw s))) s).
Proof.
  intros Hsrc Hreq [sk Hs] Hans.
  destruct e as [t so tg arg]. cbn in Hsrc, Hans. subst so.
  destruct s as [hc cv cs hs [c en] cl]. destruct c. cbn in Hs. subst.
  unfold ctcp_answer in Hans. cbn [ctcp_version ctcp_source] in Hans.
  unfold Session._ctcp_handler. cbn [argument source].
  destruct arg as [|ctcp parameters]; [discriminate|].
  unfold bind at 1, lift at 1. cbn [index nth_error].
  unfold bind at 1, lift at 1.
  assert (Hr : (if char_in "!" src then run (nm_to_n (Some src)) else Ok src) = Ok requester).
  { destruct (char_in "!" src); [rewrite Hreq; reflexivity|]. injection Hreq as ->. reflexivity. }
  rewrite Hr. unfold bind at 1, get at 1. cbn [ctcp_version ctcp_source].
  destruct (String.eqb ctcp "VERSION");
    [injection Hans as <-; reflexivity|].
  destruct (String.eqb ctcp "PING").
  { destruct parameters as [|ping_time ps]; [discriminate|]. injection Hans as <-. reflexivity. }
  destruct (String.eqb ctcp "TIME"); [injection Hans as <-; reflexivity|].
  destruct (String.eqb ctcp "SOURCE"); [injection Hans as <-; reflexivity|].
  discriminate.
Qed.

(** The four CTCPs the session answers (VERSION, PING with its stamp, TIME,
    SOURCE): the answer is queued as a NOTICE to the nick of the sender,
    between two [\001], and the event is then translated and dispatched like
    any other. *)
Theorem ctcp_replies (fuel : nat) (e : Event) (s : SW) (src requester text : string) :
  handle_ctcp s = true ->
  eventtype e = "ctcp" ->
  source e = Some src ->
  (if char_in "!" src then nm_to_n (Some src) else Returns src) = Returns requester ->
  is_Some (socket (conn (cw s))) ->
  ctcp_answer s strftime_now (argument e) = Some text ->
  _handle_event (S fuel) e s
  = translate_and_dispatch e
      (set_cw (mkCW (set_message_queue
                       (message_queue (conn (cw s))
                        ++ ["NOTICE " +:+ requester +:+ " :" +:+ CTCP_DELIM +:+ text
                              +:+ CTCP_DELIM])
                       (conn (cw s)))
                    (env (cw s))) s).
Proof.
  intros Hc Ht Hsrc Hreq Hs Hans.
  rewrite handle_event_unfold, Ht. cbn [String.eqb Ascii.eqb Bool.eqb str_in existsb orb].
  unfold bind at 1, ret at 1. unfold bind at 1, get at 1. rewrite Hc. cbn [andb].
  unfold bind at 1, try_except.
  rewrite (ctcp_handler_answers e s src requester text Hsrc Hreq Hs Hans).
  reflexivity.
Qed.

(** An exception inside the CTCP handler is logged and dispatch goes on
    from the state the handler left.  The handler raises [IndexError] on a
    CTCP without a word, [TypeError] on one without a source, and
    [ServerNotConnectedError] when it has an answer and no socket. *)
Theorem ctcp_errors_are_logged (fuel : nat) (e : Event) (s : SW) :
  handle_ctcp s = true ->
  eventtype e = "ctcp" ->
  (forall x s', _ctcp_handler e s = (Raise x, s') ->
     _handle_event (S fuel) e s
     = translate_and_dispatch e (add_calls [LoggedException "Error in CTCP handler"] s'))
  /\ (argument e = [] -> _ctcp_handler e s = (Raise IndexError, s))
  /\ (source e = None -> argument e <> [] -> _ctcp_handler e s = (Raise TypeError, s))
  /\ (forall src requester text,
        source e = Some src ->
        (if char_in "!" src then nm_to_n (Some src) else Returns src) = Returns requester ->
        socket (conn (cw s)) = None ->
        ctcp_answer s strftime_now (argument e) = Some text ->
        _ctcp_handler e s = (Raise ServerNotConnectedError, s)).
Proof.
  intros Hc Ht. repeat split.
  - intros x s' Hx.
    rewrite handle_event_unfold, Ht. cbn [String.eqb Ascii.eqb Bool.eqb str_in existsb orb].
    unfold bind at 1, ret at 1. unfold bind at 1, get at 1. rewrite Hc. cbn [andb].
    unfold bind at 1, try_except. rewrite Hx. reflexivity.
  - intros Ha. unfold Session._ctcp_handler. rewrite Ha. reflexivity.
  - intros Hsrc Ha. unfold Session._ctcp_handler. rewrite Hsrc.
    destruct (argument e); [contradiction|]. reflexivity.
  - intros src requester text Hsrc Hreq Hs Hans.
    destruct e as [t so tg arg]. cbn in Hsrc, Hans. subst so.
    destruct s as [hc cv cs hs [c en] cl]. destruct c. cbn in Hs. subst.
    unfold ctcp_answer in Hans. cbn [ctcp_version ctcp_source] in Hans.
    unfold Session._ctcp_handler. cbn [argument source].
    destruct arg as [|ctcp parameters]; [discriminate|].
    unfold bind at 1, lift at 1. cbn [index nth_error].
    unfold bind at 1, lift at 1.
    assert (Hr : (if char_in "!" src then run (nm_to_n (Some src)) else Ok src) = Ok requester).
    { destruct (char_in "!" src); [rewrite Hreq; reflexivity|]. injection Hreq as ->. reflexivity. }
    rewrite Hr. unfold bind at 1, get at 1. cbn [ctcp_version ctcp_source].
    destruct (String.eqb ctcp "VERSION"); [reflexivity|].
    destruct (String.eqb ctcp "PING").
    { destruct parameters as [|ping_time ps]; [discriminate|]. reflexivity. }
    destruct (String.eqb ctcp "TIME"); [reflexivity|].
    destruct (String.eqb ctcp "SOURCE"); [reflexivity|].
    discriminate.
Qed.


(** [from_low_event] reads [argument[0]] in every branch but those of
    [nick], [join], [part], [mode], [umode] and [notopic]: on an event of any
    other type that has no argument it raises, [IndexError] unless
    [nm_to_n] raised first. *)
Theorem translation_needs_an_argument (e : Event) :
  argument e = [] ->
  str_in (eventtype e) ["nick"; "join"; "part"; "mode"; "umode"; "notopic"] = false ->
  exists x, from_low_event e = Raise x
            /\ (x = IndexError \/ nm_to_n (source e) = Raises x).
Proof.
  intros Ha Ht. destruct e as [t src tgt arg]. cbn in Ha, Ht. subst arg.
  unfold str_in in Ht. cbn [existsb] in Ht.
  repeat (apply orb_false_elim in Ht as [? Ht]).
  unfold Session.from_low_event. cbn [eventtype source target argument]. cbv zeta.
  unfold str_in. cbn [existsb].
  repeat match goal with Hf : String.eqb _ _ = false |- _ => rewrite Hf; clear Hf end.
  cbn [orb]. unfold Nickname_init.
  destruct (String.eqb t "topic"), (String.eqb t "currenttopic"); cbn [orb].
  all: repeat match goal with
  | |- context [if ?b then _ else _] => destruct b
  | |- context [run (nm_to_n ?x)] => destruct (nm_to_n x)
  end; cbn; eauto.
Qed.

End Server.

(** The registry holding one handler that filters on event names only. *)
Lemma map_to_list_one (key : string) (h : Handler) :
  map_to_list (<[key := h]> (∅ : gmap string Handler)) = [(key, h)].
Proof. rewrite insert_empty. apply map_to_list_singleton. Qed.


(** Two functions of one name in one module share a key: the later
    registration replaces the earlier. *)
Lemma same_name_replaces (events channels nicks events' channels' nicks' : StrOrList)
        (modes regex modes' regex' fn_module fn_name : string) (hs : gmap string Handler) :
  event_handler events' channels' nicks' modes' regex' fn_module fn_name
    (event_handler events channels nicks modes regex fn_module fn_name hs)
  = event_handler events' channels' nicks' modes' regex' fn_module fn_name hs.
Proof. unfold event_handler. apply insert_insert_eq. Qed.

Section Lists.

Variable nm_to_n : option string -> Outcome string.
Variable is_channel : option string -> bool.
Variable _parse_modes : string -> list ModeChange.

(** [high_level_events] against the translator.  Of the commands the
    translator gives the events it has a branch for, the list holds all but
    two: [action] and [ctcpreply], which the list runs together into one
    name. *)
Theorem listed_high_level_events (e : Event) (ev : HighEvent) :
  from_low_event nm_to_n is_channel _parse_modes e = Ok ev ->
  str_in (eventtype e) translated_types = true ->
  str_in (command ev) high_level_events
  = negb (str_in (eventtype e) ["action"; "ctcpreply"]).
Proof.
  intros H Ht. destruct e as [t src tgt arg].
  unfold Session.from_low_event in H. cbn [eventtype source target argument] in *.
  cbv zeta in H. unfold translated_types in Ht. unfold str_in in H, Ht.
  cbn [existsb] in H, Ht.
  unfold Nickname_init in H.
  repeat match type of H with
  | context [String.eqb t ?c] =>
      destruct (String.eqb_spec t c) as [->|?]; cbn [orb] in H
  end.
  all: cbn [orb] in Ht; try discriminate Ht.
  all: repeat match type of H with
  | context [run (nm_to_n ?x)] => destruct (nm_to_n x); cbn in H
  | context [index ?l ?i] => destruct (index l i); cbn in H
  | context [if ?b then _ else _] => destruct b; cbn in H
  | context [index_opt ?l ?i] => destruct (index_opt l i); cbn in H
  end.
  all: try discriminate H.
  all: injection H as <-; reflexivity.
Qed.

End Lists.

Import Sample MoreSamples.

(** [session_leaves_connection] on Alice's join. *)
Lemma session_leaves_connection_witness :
  cw (snd (_handle_event Collaborators.nm_to_n Collaborators.is_channel_opt
             (Collaborators._parse_modes "bklov") (Collaborators.hasanymodes [])
             Collaborators.re_match_literal (fun _ _ => false) sample_time
             1 join_event (sw0 join_registry)))
  = cw0.
Proof.
  apply (session_leaves_connection Collaborators.nm_to_n Collaborators.is_channel_opt
           (Collaborators._parse_modes "bklov") (Collaborators.hasanymodes [])
           Collaborators.re_match_literal (fun _ _ => false) sample_time
           1 join_event (sw0 join_registry)).
  - discriminate.
  - right. discriminate.
Defined.

(** [ping_is_answered] on a server's PING. *)
Lemma ping_is_answered_witness :
  log (env (cw (snd (_handle_event Collaborators.nm_to_n Collaborators.is_channel_opt
                       (Collaborators._parse_modes "bklov") (Collaborators.hasanymodes [])
                       Collaborators.re_match_literal (fun _ _ => false) sample_time
                       1 ping_event (sw0 ∅)))))
  = [EWrite ("PONG irc.example.org" +:+ CRLF)].
Proof.
  pose proof (ping_is_answered Collaborators.nm_to_n Collaborators.is_channel_opt
              (Collaborators._parse_modes "bklov") (Collaborators.hasanymodes [])
              Collaborators.re_match_literal (fun _ _ => false) sample_time
              0 ping_event (sw0 ∅) eq_refl) as H.
  cbv zeta in H. destruct H as (H & _).
  destruct (H (ex_intro _ 0%nat eq_refl) eq_refl) as (_ & H1).
  rewrite H1. reflexivity.
Defined.

(** [ctcp_replies] on Alice's VERSION request. *)
Lemma ctcp_replies_witness :
  message_queue
    (conn (cw (snd (_handle_event Collaborators.nm_to_n Collaborators.is_channel_opt
                      (Collaborators._parse_modes "bklov") (Collaborators.hasanymodes [])
                      Collaborators.re_match_literal (fun _ _ => false) sample_time
                      1 version_request (sw0 ∅)))))
  = ["NOTICE alice :" +:+ CTCP_DELIM +:+ "VERSION Hanyuu IRC Lib 1.3" +:+ CTCP_DELIM].
Proof.
  rewrite (ctcp_replies Collaborators.nm_to_n Collaborators.is_channel_opt
             (Collaborators._parse_modes "bklov") (Collaborators.hasanymodes [])
             Collaborators.re_match_literal (fun _ _ => false) sample_time
             0 version_request (sw0 ∅) "alice!a@host" "alice" "VERSION Hanyuu IRC Lib 1.3"
             eq_refl eq_refl eq_refl eq_refl (ex_intro _ 0%nat eq_refl) eq_refl).
  reflexivity.
Defined.

(** [ctcp_errors_are_logged] on a CTCP without a word. *)
Lemma ctcp_errors_are_logged_witness :
  calls (snd (_handle_event Collaborators.nm_to_n Collaborators.is_channel_opt
                (Collaborators._parse_modes "bklov") (Collaborators.hasanymodes [])
                Collaborators.re_match_literal (fun _ _ => false) sample_time
                1 empty_ctcp (sw0 ∅)))
  = [LoggedException "Error in CTCP handler"; Translate empty_ctcp].
Proof.
  destruct (ctcp_errors_are_logged Collaborators.nm_to_n Collaborators.is_channel_opt
              (Collaborators._parse_modes "bklov") (Collaborators.hasanymodes [])
              Collaborators.re_match_literal (fun _ _ => false) sample_time
              0 empty_ctcp (sw0 ∅) eq_refl eq_refl) as (H & Hempty & _).
  rewrite (H IndexError (sw0 ∅) (Hempty eq_refl)). reflexivity.
Defined.

(** [translation_needs_an_argument] on [ERROR :Closing Link]. *)
Lemma translation_needs_an_argument_witness :
  from_low_event Collaborators.nm_to_n Collaborators.is_channel_opt
    (Collaborators._parse_modes "bklov") error_event
  = Raise IndexError.
Proof.
  destruct (translation_needs_an_argument Collaborators.nm_to_n Collaborators.is_channel_opt
              (Collaborators._parse_modes "bklov") error_event eq_refl eq_refl)
    as (x & H & _).
  rewrite H. vm_compute in H. exact (eq_sym H).
Defined.


(** [listed_high_level_events] on an action: its command is not in the
    list. *)
Lemma listed_high_level_events_witness :
  str_in "action" high_level_events = false.
Proof.
  apply (listed_high_level_events Collaborators.nm_to_n Collaborators.is_channel_opt
           (Collaborators._parse_modes "bklov") action_event
           (creator "action" (Some (mkNickname (Some "alice") (Bound (Some "alice!a@host"))))
              (Some "#chan") (Some "waves")) eq_refl eq_refl).
Defined.

End SessionMoreFacts.
